(** * Multimodal artifact indexing and retrieval: a shallow embedding

    The development follows four Python modules:
    - [tools/embeddings.py]            (module [Embeddings] below),
    - [utils/get_attachments_metadata.py] (module [Metadata]),
    - [tools/milvus_tools.py]          (module [MilvusTools]),
    - [utils/preprocess_attachments.py] (module [Preprocess]).

    Python code that may raise is written in a state-and-exception monad
    over a [World] that holds the module-level globals, the contents of
    the vector store and a trace of every call that leaves the process
    (store calls, model inference, logging).  Everything the code receives
    from outside (configuration, model weights, the file system, ExifTool,
    the store's answers) is a field of the record [Env]. *)

From Stdlib Require Import ZArith List String Ascii Lia.
From stdpp Require Import base option list strings gmap pretty.

Local Open Scope Z_scope.

(** ** Python values, exceptions and the monad *)

Module Py.

(** The exception classes that occur in the four modules.  All of them
    derive from [Exception], so a clause [except Exception] catches each
    one.  [MilvusException] carries the store's diagnostic [code] and
    [message]. *)
Inductive exn : Type :=
| MilvusException (code : Z) (message : string)
| ExifToolExecuteError (msg : string)
| AttributeError (msg : string)
| IndexError (msg : string)
| ValueError (msg : string)
| TypeError (msg : string)
| OSError (msg : string)
| RuntimeError (msg : string).

(** [str(e)].  For an exception of the store this is pymilvus's rendering
    [<Class: (code=.., message=..)>].  pymilvus prints the name of the
    class that was raised, for most store errors a subclass of
    [MilvusException]; the class is not part of the model, and the name
    written here is always that of the base class. *)
Definition str_exn (e : exn) : string :=
  match e with
  | MilvusException code message =>
      "<MilvusException: (code=" +:+ pretty code +:+ ", message=" +:+ message +:+ ")>"
  | ExifToolExecuteError msg | AttributeError msg | IndexError msg
  | ValueError msg | TypeError msg | OSError msg | RuntimeError msg => msg
  end.

Inductive result (A : Type) : Type :=
| Ret (a : A)
| Raise (e : exn).
Arguments Ret {A} a.
Arguments Raise {A} e.


(** *** Strings.  A Python [str] is a sequence of characters; a character
    is one [ascii] here (code points 0..255). *)

(** [s[:n]] *)
Fixpoint str_take (n : nat) (s : string) : string :=
  match n, s with
  | O, _ => EmptyString
  | S _, EmptyString => EmptyString
  | S n', String c s' => String c (str_take n' s')
  end.

Definition chr_lower (c : ascii) : ascii :=
  let n := N_of_ascii c in
  if ((65 <=? n) && (n <=? 90))%N then ascii_of_N (n + 32)
  else if ((192 <=? n) && (n <=? 222) && negb (n =? 215))%N then ascii_of_N (n + 32)
  else c.

(** [s.lower()] *)
Fixpoint str_lower (s : string) : string :=
  match s with
  | EmptyString => EmptyString
  | String c s' => String (chr_lower c) (str_lower s')
  end.

(** [c.isspace()] *)
Definition chr_isspace (c : ascii) : bool :=
  let n := N_of_ascii c in
  (((9 <=? n) && (n <=? 13)) || ((28 <=? n) && (n <=? 32))
   || (n =? 133) || (n =? 160))%N.

Fixpoint str_lstrip (s : string) : string :=
  match s with
  | EmptyString => EmptyString
  | String c s' => if chr_isspace c then str_lstrip s' else s
  end.

Fixpoint str_rstrip (s : string) : string :=
  match s with
  | EmptyString => EmptyString
  | String c s' =>
      match str_rstrip s' with
      | EmptyString => if chr_isspace c then EmptyString else String c EmptyString
      | r => String c r
      end
  end.

(** [s.strip()] *)
Definition str_strip (s : string) : string := str_rstrip (str_lstrip s).

Fixpoint str_prefix (p s : string) : bool :=
  match p, s with
  | EmptyString, _ => true
  | String a p', String b s' => if Ascii.eqb a b then str_prefix p' s' else false
  | String _ _, EmptyString => false
  end.

(** [sub in s] *)
Fixpoint str_in (sub s : string) : bool :=
  str_prefix sub s ||
  match s with
  | EmptyString => false
  | String _ s' => str_in sub s'
  end.

(** [sep.join(l)] *)
Fixpoint str_join (sep : string) (l : list string) : string :=
  match l with
  | [] => EmptyString
  | [x] => x
  | x :: l' => x +:+ sep +:+ str_join sep l'
  end.

(** [x in l] for a collection of strings *)
Definition str_mem (x : string) (l : list string) : bool :=
  existsb (String.eqb x) l.

(** The line feed, written [\n] in the Python source. *)
Definition nl : string := String (ascii_of_nat 10) EmptyString.

(** [s] occurs inside [t]. *)
Definition occurs_in (s t : string) : Prop :=
  exists pre post, t = pre +:+ s +:+ post.

End Py.
Export Py.

(** ** Data model *)

(** An embedding vector: its float32 components, each kept as its bit
    pattern.  Nothing below computes with the components. *)
Definition Vec : Type := list Z.

(** The tensors a processor or tokenizer hands to a model. *)
Definition Inputs : Type := list Z.

(** A PIL image as [is_icon] sees it: [img.size] and the outcome of
    [img.convert("RGBA").getcolors(maxcolors=n)], which is [None] when the
    image has more than [n] colours and a list of (count, colour) pairs
    otherwise. *)
Record Image : Type := {
  size : Z * Z;
  rgba_getcolors : Z -> result (option (list (Z * (Z * Z * Z * Z))));
}.

(** A loaded [SentenceTransformer]. *)
Record TextModel : Type := {
  encode : string -> result Vec;
  get_sentence_embedding_dimension : Z;
}.

(** A loaded image model with its two towers, its processor and its
    tokenizer. *)
Record ImageModel : Type := {
  get_image_features : Inputs -> result Vec;
  get_text_features : Inputs -> result Vec;
}.
Definition Processor : Type := Image -> result Inputs.
Definition Tokenizer : Type := list string -> result Inputs.

(** One record of a collection (the dict built in [flush_img] and
    [flush_txt]). *)
Record Row : Type := {
  vector : Vec;
  path : string;
  modality : string;
  content : string;
  metadata : string;
}.

Record Collection : Type := {
  dimension : Z;
  rows : list Row;
}.

(** One hit of a vector search. *)
Record Hit : Type := {
  hit_id : Z;
  hit_distance : Z;
  hit_entity : list (string * string);
}.

(** An element of the list [milvus_text_image_search] returns: a hit, or
    the dict [{"error": msg}]. *)
Inductive SearchItem : Type :=
| ItemHit (h : Hit)
| ItemError (error : string).

(** A [MilvusClient] object: its identity and the arguments it was
    constructed with. *)
Record Client : Type := {
  client_id : nat;
  client_uri : string;
  client_token : option string;
  client_db_name : option string;
}.

(** A [pathlib.Path] of the walk: [str(p)] and [p.suffix]. *)
Record Path : Type := {
  str : string;
  suffix : string;
}.

(** Calls that leave the process, in the order they happen. *)
Inductive Event : Type :=
| EvNewClient (c : Client)
| EvListCollections (c : Client)
| EvHasCollection (c : Client) (name : string)
| EvCreateCollection (c : Client) (name : string) (dim : Z)
| EvInsert (c : Client) (name : string) (data : list Row)
| EvFlush (c : Client) (name : string)
| EvStats (c : Client) (name : string)
| EvDescribe (c : Client) (name : string)
| EvSearch (c : Client) (name : string) (data : list Vec) (anns_field : string)
           (limit : Z) (metric_type : string) (output_fields : list string)
| EvQuery (c : Client) (name : string) (filter : string) (limit : Z)
          (output_fields : option (list string))
| EvTextModelEncode (snippet : string)
| EvImageFeatures (inputs : Inputs)
| EvTextFeatures (inputs : Inputs)
| EvLog (level : string) (msg : string)
| EvPrint (msg : string).

(** Everything the program receives from outside.  None of it changes
    during a run. *)
Record Env : Type := {
  (* configuration object *)
  case_name : string;
  milvus_uri : string;
  milvus_db_name : string;
  milvus_token : option string;
  embed_text_model_name : string;
  embed_image_model_name : string;
  attached_artifact_dir : string;
  (* model weights *)
  SentenceTransformer : string -> result TextModel;
  text_model_to_device : TextModel -> result unit;   (* text_model.to(device) *)
  AutoProcessor_from_pretrained : string -> result Processor;
  AutoTokenizer_from_pretrained : string -> result Tokenizer;
  AutoModel_from_pretrained : string -> result ImageModel;
  dummy_image : Image;                      (* Image.new("RGB", (512, 512)) *)
  astype_float32 : Vec -> Vec;
  normalize : Vec -> result Vec;            (* sklearn's normalize(..)[0] *)
  (* file system *)
  rglob_files : string -> list Path;        (* files under a root *)
  read_text : string -> result string;
  Image_open_RGB : string -> result Image;  (* Image.open(path).convert("RGB") *)
  abspath : string -> string;
  path_exists : string -> bool;
  exiftool_get_metadata : string -> result (list (list (string * option string)));
  (* vector store server *)
  connect : string -> option string -> option string -> result unit;
  store_up : bool;
  unavailable : Z * string;                 (* diagnostics of the store *)
  collection_not_found : string -> Z * string;
  dimension_mismatch : string -> Z -> Z -> Z * string;
  (* the answer to create_collection for a collection that is there, and
     to a search for one vector in a collection that is there *)
  create_existing : string -> Collection -> Z -> result unit;
  ann_search : Collection -> Vec -> string -> Z -> string -> list string
               -> result (list Hit);
  like_query : Collection -> string -> Z -> option (list string) -> result (list string);
  describe : string -> Collection -> string;
}.

(** The mutable state: the store's collections, the number of client
    objects constructed so far, the module-level globals of
    [tools/milvus_tools.py] and [tools/embeddings.py], and the trace. *)
Record World : Type := {
  store : gmap string Collection;
  clients_made : nat;
  milvus_client_instance : option Client;
  text_model : option TextModel;
  image_model : option ImageModel;
  image_processor : option Processor;
  image_tokenizer : option Tokenizer;
  trace : list Event;
}.

Definition set_store (f : gmap string Collection -> gmap string Collection) (w : World) : World :=
  {| store := f (store w); clients_made := clients_made w;
     milvus_client_instance := milvus_client_instance w;
     text_model := text_model w; image_model := image_model w;
     image_processor := image_processor w; image_tokenizer := image_tokenizer w;
     trace := trace w |}.

Definition set_clients_made (n : nat) (w : World) : World :=
  {| store := store w; clients_made := n;
     milvus_client_instance := milvus_client_instance w;
     text_model := text_model w; image_model := image_model w;
     image_processor := image_processor w; image_tokenizer := image_tokenizer w;
     trace := trace w |}.

Definition set_milvus_client_instance (c : option Client) (w : World) : World :=
  {| store := store w; clients_made := clients_made w;
     milvus_client_instance := c;
     text_model := text_model w; image_model := image_model w;
     image_processor := image_processor w; image_tokenizer := image_tokenizer w;
     trace := trace w |}.

Definition set_text_model (m : option TextModel) (w : World) : World :=
  {| store := store w; clients_made := clients_made w;
     milvus_client_instance := milvus_client_instance w;
     text_model := m; image_model := image_model w;
     image_processor := image_processor w; image_tokenizer := image_tokenizer w;
     trace := trace w |}.

Definition set_image_model (m : option ImageModel) (w : World) : World :=
  {| store := store w; clients_made := clients_made w;
     milvus_client_instance := milvus_client_instance w;
     text_model := text_model w; image_model := m;
     image_processor := image_processor w; image_tokenizer := image_tokenizer w;
     trace := trace w |}.

Definition set_image_processor (p : option Processor) (w : World) : World :=
  {| store := store w; clients_made := clients_made w;
     milvus_client_instance := milvus_client_instance w;
     text_model := text_model w; image_model := image_model w;
     image_processor := p; image_tokenizer := image_tokenizer w;
     trace := trace w |}.

Definition set_image_tokenizer (t : option Tokenizer) (w : World) : World :=
  {| store := store w; clients_made := clients_made w;
     milvus_client_instance := milvus_client_instance w;
     text_model := text_model w; image_model := image_model w;
     image_processor := image_processor w; image_tokenizer := t;
     trace := trace w |}.

Definition add_event (ev : Event) (w : World) : World :=
  {| store := store w; clients_made := clients_made w;
     milvus_client_instance := milvus_client_instance w;
     text_model := text_model w; image_model := image_model w;
     image_processor := image_processor w; image_tokenizer := image_tokenizer w;
     trace := trace w ++ [ev] |}.

(** ** The monad: a computation reads and changes the [World] and either
    returns a value or raises; what it did before raising stays done. *)

Definition M (A : Type) : Type := World -> result A * World.

Definition ret {A} (a : A) : M A := fun w => (Ret a, w).
Definition raise {A} (e : exn) : M A := fun w => (Raise e, w).
Definition lift {A} (r : result A) : M A := fun w => (r, w).

Definition bind {A B} (m : M A) (k : A -> M B) : M B :=
  fun w =>
    match m w with
    | (Ret a, w') => k a w'
    | (Raise e, w') => (Raise e, w')
    end.

(** [try: m  except Exception as e: h e] *)
Definition try_except {A} (m : M A) (h : exn -> M A) : M A :=
  fun w =>
    match m w with
    | (Ret a, w') => (Ret a, w')
    | (Raise e, w') => h e w'
    end.

Definition gets {A} (f : World -> A) : M A := fun w => (Ret (f w), w).
Definition modify (f : World -> World) : M unit := fun w => (Ret tt, f w).
Definition emit (ev : Event) : M unit := modify (add_event ev).

Declare Scope py_scope.
Delimit Scope py_scope with py.
Notation "'do' x <- m ; k" := (bind m (fun x => k))
  (at level 10, x name, m at level 100, k at level 200) : py_scope.
Notation "'do' ' p <- m ; k" := (bind m (fun x => match x with p => k end))
  (at level 10, p pattern, m at level 100, k at level 200) : py_scope.
Notation "m ;; k" := (bind m (fun _ => k))
  (at level 100, k at level 200, right associativity) : py_scope.
Local Open Scope py_scope.

(** [print(msg)] *)
Definition print (msg : string) : M unit := emit (EvPrint msg).

(** A call [logger.<level>(msg)]: with [logger=None] the attribute lookup
    raises [AttributeError]. *)
Definition logger_call (logger : option unit) (level msg : string) : M unit :=
  match logger with
  | Some _ => emit (EvLog level msg)
  | None => raise (AttributeError ("'NoneType' object has no attribute '" +:+ level +:+ "'"))
  end.

(** ** tools/embeddings.py *)

Module Embeddings.
Section WithEnv.
Context (env : Env).

(** The global [text_model] is assigned as soon as the constructor has
    returned, before [text_model.to(device)] runs: when that call raises,
    the global stays set. *)
Definition get_text_model : M TextModel :=
  do cur <- gets text_model;
  match cur with
  | Some m => ret m
  | None =>
      do m <- lift (SentenceTransformer env (embed_text_model_name env));
      modify (set_text_model (Some m)) ;;
      lift (text_model_to_device env m) ;;
      ret m
  end.

(** The three globals are assigned one after the other, the model last;
    only [image_model] is tested. *)
Definition get_image_model
  : M (option ImageModel * option Processor * option Tokenizer) :=
  do cur <- gets image_model;
  match cur with
  | None =>
      do p <- lift (AutoProcessor_from_pretrained env (embed_image_model_name env));
      modify (set_image_processor (Some p)) ;;
      do t <- lift (AutoTokenizer_from_pretrained env (embed_image_model_name env));
      modify (set_image_tokenizer (Some t)) ;;
      do m <- lift (AutoModel_from_pretrained env (embed_image_model_name env));
      modify (set_image_model (Some m))
  | Some _ => ret tt
  end ;;
  do m <- gets image_model;
  do p <- gets image_processor;
  do t <- gets image_tokenizer;
  ret (m, p, t).

(** Calling [processor(images=img, ...)], [tokenizer([query], ...)] and a
    method of the model; on [None] each raises. *)
Definition call_processor (p : option Processor) (img : Image) : M Inputs :=
  match p with
  | Some f => lift (f img)
  | None => raise (TypeError "'NoneType' object is not callable")
  end.

Definition call_tokenizer (t : option Tokenizer) (texts : list string) : M Inputs :=
  match t with
  | Some f => lift (f texts)
  | None => raise (TypeError "'NoneType' object is not callable")
  end.

Definition call_get_image_features (m : option ImageModel) (inputs : Inputs) : M Vec :=
  match m with
  | Some model => emit (EvImageFeatures inputs) ;; lift (get_image_features model inputs)
  | None => raise (AttributeError "'NoneType' object has no attribute 'get_image_features'")
  end.

Definition call_get_text_features (m : option ImageModel) (inputs : Inputs) : M Vec :=
  match m with
  | Some model => emit (EvTextFeatures inputs) ;; lift (get_text_features model inputs)
  | None => raise (AttributeError "'NoneType' object has no attribute 'get_text_features'")
  end.

(** [model.encode(snippet, normalize_embeddings=True, max_length=512,
    show_progress_bar=False)] is the field [encode] of the model. *)
Definition text2vector (text : string) : M Vec :=
  do model <- get_text_model;
  let snippet := str_take 500 text in
  emit (EvTextModelEncode snippet) ;;
  do vec <- lift (encode model snippet);
  ret (astype_float32 env vec).

Definition EDGE_MAX : Z := 150.
Definition ASPECT_TOLER : Z := 4.
Definition COLORS_MAX : Z := 256.

(** The [try] around the palette test returns [False] on any exception. *)
Definition is_icon (img : Image) (file_bytes : option Z) : bool :=
  let '(w, h) := size img in
  if Z.max w h >? EDGE_MAX then false
  else
    match rgba_getcolors img (256 * 256) with
    | Raise _ => false
    | Ret None => false
    | Ret (Some colours) =>
        if Z.of_nat (length colours) >? COLORS_MAX then false
        else
          match file_bytes with
          | Some b => if b >? 10000 then false else true
          | None => true
          end
    end.

(** [get_image_model()] is called before the [try]; [is_icon] is called
    with the image alone. *)
Definition image2vector (image_path : string) (filter_icons : bool) : M (option Vec) :=
  do '(model, processor, _) <- get_image_model;
  try_except
    (do img <- lift (Image_open_RGB env image_path);
     if filter_icons && is_icon img None then ret None
     else
       do inputs <- call_processor processor img;
       do vec <- call_get_image_features model inputs;
       do v <- lift (normalize env (astype_float32 env vec));
       ret (Some v))
    (fun _ => ret None).

(** [image_features.shape[-1]] is the length of the feature vector. *)
Definition get_embedding_dimensions : M (Z * Z) :=
  do text_model <- get_text_model;
  let text_dim := get_sentence_embedding_dimension text_model in
  do '(model, processor, _) <- get_image_model;
  do inputs <- call_processor processor (dummy_image env);
  do image_features <- call_get_image_features model inputs;
  let image_dim := Z.of_nat (length image_features) in
  ret (text_dim, image_dim).

(** The text tower of the image model: [tokenizer([query], padding=True,
    return_tensors="pt")], then [model.get_text_features]. *)
Definition query2vector (query : string) : M Vec :=
  do '(model, _, tokenizer) <- get_image_model;
  do inputs <- call_tokenizer tokenizer [query];
  do vec <- call_get_text_features model inputs;
  lift (normalize env (astype_float32 env vec)).

End WithEnv.
End Embeddings.

(** ** utils/get_attachments_metadata.py *)

Module Metadata.
Section WithEnv.
Context (env : Env).

Definition exclude_patterns : list string :=
  [ "File:Directory"; "File:FileName"; "SourceFile";
    "File:FileModifyDate"; "File:FileAccessDate"; "File:FileCreateDate";
    "EXIF:CreateDate"; "EXIF:ModifyDate"; "EXIF:DateTimeOriginal";
    "XMP:CreateDate"; "XMP:ModifyDate"; "XMP:DateCreated";
    "IPTC:DateCreated"; "IPTC:TimeCreated"; "File:FileInodeChangeDate";
    ":Date"; ":Time" ].

(** [sorted(metadata.items())]: the keys of a dict are distinct, so the
    order is the order of the keys. *)
Fixpoint insert_item (x : string * option string) (l : list (string * option string))
  : list (string * option string) :=
  match l with
  | [] => [x]
  | y :: l' => if String.leb (fst x) (fst y) then x :: l else y :: insert_item x l'
  end.

Definition sorted_items (d : list (string * option string)) : list (string * option string) :=
  foldr insert_item [] d.

(** The loop that builds [filtered_metadata]; a value is [None] or its
    [str]. *)
Fixpoint filter_metadata (items : list (string * option string)) : list string :=
  match items with
  | [] => []
  | (key, value) :: rest =>
      match value with
      | None => filter_metadata rest
      | Some v =>
          if String.eqb (str_strip v) "" then filter_metadata rest
          else if existsb (fun pattern => str_in (str_lower pattern) (str_lower key))
                    exclude_patterns
          then filter_metadata rest
          else ("  " +:+ key +:+ ": " +:+ v) :: filter_metadata rest
      end
  end.

(** The body of the [try] block. *)
Definition get_all_metadata_try (file_path : string) : result string :=
  if negb (path_exists env file_path)
  then Ret ("Error: File '" +:+ file_path +:+ "' does not exist.")
  else
    let metadata_string := "ExifTool Metadata:" +:+ nl in
    match exiftool_get_metadata env file_path with
    | Raise e => Raise e
    | Ret [] => Raise (IndexError "list index out of range")
    | Ret (metadata :: _) =>
        match metadata with
        | [] => Ret (str_strip (metadata_string +:+ "  (No metadata found)" +:+ nl))
        | _ =>
            let metadata_string :=
              metadata_string +:+ "ExifTool Metadata (Excluding Directories and Dates):" +:+ nl in
            let filtered_metadata := filter_metadata (sorted_items metadata) in
            let metadata_string :=
              match filtered_metadata with
              | [] => metadata_string
                        +:+ "  (No metadata found after filtering directories and dates)"
              | _ => metadata_string +:+ str_join nl filtered_metadata
              end in
            Ret (str_strip metadata_string)
        end
    end.

Definition get_all_metadata (file_path : string) : result string :=
  let file_path := abspath env file_path in
  match get_all_metadata_try file_path with
  | Ret s => Ret s
  | Raise (ExifToolExecuteError msg as e) =>
      Ret ("Error: ExifTool failed to execute. Ensure ExifTool is installed and in PATH."
           +:+ nl +:+ "Details: " +:+ str_exn e)
  | Raise e =>
      Ret ("Error extracting metadata for '" +:+ file_path +:+ "': " +:+ str_exn e)
  end.

End WithEnv.
End Metadata.

(** ** The [MilvusClient] methods the program calls.

    The client library and the server are outside the repository.  The
    model: a collection has a dimension and a list of rows; [insert]
    appends, and raises for a row whose vector has another length than the
    collection's dimension; a call on a collection that does not exist
    raises a [MilvusException] with the store's diagnostic; every call
    raises when the server is down.  What the store answers to
    [create_collection] for a collection that is there, and to a search in
    a collection that is there, is left to the store: the fields
    [create_existing] and [ann_search] of the environment. *)

Module Store.
Section WithEnv.
Context (env : Env).

Definition diagnostic (d : Z * string) : exn := MilvusException (fst d) (snd d).

Definition MilvusClient (uri : string) (token db_name : option string) : M Client :=
  lift (connect env uri token db_name) ;;
  do n <- gets clients_made;
  let c := {| client_id := n; client_uri := uri;
              client_token := token; client_db_name := db_name |} in
  modify (set_clients_made (S n)) ;;
  emit (EvNewClient c) ;;
  ret c.

Definition reach : M unit :=
  if store_up env then ret tt else raise (diagnostic (unavailable env)).

Definition the_collection (name : string) : M Collection :=
  do s <- gets store;
  match s !! name with
  | Some col => ret col
  | None => raise (diagnostic (collection_not_found env name))
  end.

Definition fits (col : Collection) (v : Vec) : bool :=
  Z.of_nat (length v) =? dimension col.

Definition list_collections (c : Client) : M (list string) :=
  emit (EvListCollections c) ;;
  reach ;;
  do s <- gets store;
  ret (map fst (map_to_list s)).

Definition has_collection (c : Client) (name : string) : M bool :=
  emit (EvHasCollection c name) ;;
  reach ;;
  do s <- gets store;
  ret (bool_decide (is_Some (s !! name))).

Definition create_collection (c : Client) (name : string) (dim : Z) : M unit :=
  emit (EvCreateCollection c name dim) ;;
  reach ;;
  do s <- gets store;
  match s !! name with
  | None => modify (set_store <[name := {| dimension := dim; rows := [] |}]>)
  | Some col => lift (create_existing env name col dim)
  end.

Definition insert (c : Client) (name : string) (data : list Row) : M unit :=
  emit (EvInsert c name data) ;;
  reach ;;
  do col <- the_collection name;
  match find (fun r => negb (fits col (vector r))) data with
  | Some r =>
      raise (diagnostic (dimension_mismatch env name (dimension col)
                           (Z.of_nat (length (vector r)))))
  | None =>
      modify (set_store <[name := {| dimension := dimension col;
                                     rows := rows col ++ data |}]>)
  end.

Definition flush (c : Client) (name : string) : M unit :=
  emit (EvFlush c name) ;;
  reach ;;
  the_collection name ;;
  ret tt.

(** [int(client.get_collection_stats(name)["row_count"])] *)
Definition row_count (c : Client) (name : string) : M Z :=
  emit (EvStats c name) ;;
  reach ;;
  do col <- the_collection name;
  ret (Z.of_nat (length (rows col))).

Definition describe_collection (c : Client) (name : string) : M string :=
  emit (EvDescribe c name) ;;
  reach ;;
  do col <- the_collection name;
  ret (describe env name col).

(** One list of hits for every vector of [data], or the first exception. *)
Fixpoint search_each (col : Collection) (data : list Vec) (anns_field : string)
    (limit : Z) (metric_type : string) (output_fields : list string)
  : result (list (list Hit)) :=
  match data with
  | [] => Ret []
  | v :: rest =>
      match ann_search env col v anns_field limit metric_type output_fields with
      | Raise e => Raise e
      | Ret hits =>
          match search_each col rest anns_field limit metric_type output_fields with
          | Raise e => Raise e
          | Ret others => Ret (hits :: others)
          end
      end
  end.

Definition search (c : Client) (name : string) (data : list Vec) (anns_field : string)
    (limit : Z) (metric_type : string) (output_fields : list string) : M (list (list Hit)) :=
  emit (EvSearch c name data anns_field limit metric_type output_fields) ;;
  reach ;;
  do col <- the_collection name;
  lift (search_each col data anns_field limit metric_type output_fields).

Definition query (c : Client) (name : string) (filter : string) (limit : Z)
    (output_fields : option (list string)) : M (list string) :=
  emit (EvQuery c name filter limit output_fields) ;;
  reach ;;
  do col <- the_collection name;
  lift (like_query env col filter limit output_fields).

End WithEnv.
End Store.

(** ** tools/milvus_tools.py *)

Module MilvusTools.
Section WithEnv.
Context (env : Env).

Definition MILVUS_URI : string := milvus_uri env.
Definition MILVUS_DB_NAME : string := milvus_db_name env.
Definition MILVUS_TOKEN : option string := milvus_token env.

Definition get_milvus_client : M (option Client) :=
  do cur <- gets milvus_client_instance;
  match cur with
  | None =>
      print ("Initializing MilvusClient for URI: " +:+ MILVUS_URI
             +:+ ", DB: " +:+ MILVUS_DB_NAME) ;;
      try_except
        (do c <- Store.MilvusClient env MILVUS_URI MILVUS_TOKEN (Some MILVUS_DB_NAME);
         modify (set_milvus_client_instance (Some c)) ;;
         Store.list_collections env c ;;
         print "MilvusClient initialized and connection successful.")
        (fun e =>
           print ("Error initializing or connecting MilvusClient: " +:+ str_exn e) ;;
           modify (set_milvus_client_instance None))
  | Some _ => ret tt
  end ;;
  gets milvus_client_instance.

Definition get_collection_info (collection_name : string) : M string :=
  try_except
    (do client <- get_milvus_client;
     match client with
     | Some c => Store.describe_collection env c collection_name
     | None => raise (AttributeError "'NoneType' object has no attribute 'describe_collection'")
     end)
    (fun e => raise (ValueError ("Failed to get collection info: " +:+ str_exn e))).

(** The loop of [milvus_list_collections]. *)
Fixpoint collection_details_loop (client : Client) (collections : list string)
    (collection_details : string) : M string :=
  match collections with
  | [] => ret collection_details
  | collection :: rest =>
      let collection_details :=
        collection_details +:+ "Collection: " +:+ collection +:+ nl in
      do collection_details <-
        try_except
          (do collection_detail <- Store.describe_collection env client collection;
           ret (collection_details +:+ collection_detail +:+ nl))
          (fun e => ret (collection_details +:+ "Error retrieving details: "
                         +:+ str_exn e +:+ nl));
      collection_details_loop client rest collection_details
  end.

Definition milvus_list_collections : M string :=
  do client <- get_milvus_client;
  match client with
  | None => ret "Error: Milvus client not available or connection failed."
  | Some client =>
      try_except
        (do collections <- Store.list_collections env client;
         do collection_details <- collection_details_loop client collections "";
         ret ("Collections in database '" +:+ MILVUS_DB_NAME +:+ "':" +:+ nl
              +:+ collection_details))
        (fun e => ret ("Error listing Milvus collections: " +:+ str_exn e))
  end.

Definition milvus_text_image_search (query_text collection_name vector_field : string)
    (limit : Z) (output_fields : option (list string)) (metric_type : string)
  : M (list SearchItem) :=
  let output_fields :=
    match output_fields with
    | None => ["path"; "modality"; "metadata"]
    | Some l => l
    end in
  do client <- get_milvus_client;
  match client with
  | None => ret [ItemError "Milvus client not available or connection failed."]
  | Some client =>
      do converted <-
        try_except
          (do query_vector_np <- Embeddings.query2vector env query_text;
           ret (inl query_vector_np))
          (fun e => ret (inr [ItemError ("Failed to convert query to vector: "
                                         +:+ str_exn e)]));
      match converted with
      | inr error => ret error
      | inl query_vector_list =>
          try_except
            (print ("Searching collection '" +:+ collection_name
                    +:+ "' with vector in field '" +:+ vector_field +:+ "'") ;;
             do results <- Store.search env client collection_name [query_vector_list]
                             vector_field limit metric_type output_fields;
             ret (match results with
                  | first :: _ => map ItemHit first
                  | [] => []
                  end))
            (fun e =>
               match e with
               | MilvusException code message =>
                   ret [ItemError ("Milvus vector search failed: " +:+ str_exn e
                                   +:+ " (Code: " +:+ pretty code
                                   +:+ ", Message: " +:+ message +:+ ")")]
               | _ =>
                   ret [ItemError ("Milvus vector search failed with an unexpected error: "
                                   +:+ str_exn e)]
               end)
      end
  end.

(** The call with the defaults of the signature:
    [vector_field="vector"], [limit=5], [output_fields=None],
    [metric_type="COSINE"]. *)
Definition milvus_text_image_search_default (query_text collection_name : string)
  : M (list SearchItem) :=
  milvus_text_image_search query_text collection_name "vector" 5 None "COSINE".

Definition milvus_text_search (collection_name query_text text_field_name : string)
    (limit : Z) (output_fields : option (list string)) : M string :=
  do client <- get_milvus_client;
  match client with
  | None => ret "Error: Milvus client not available or connection failed."
  | Some client =>
      let filter_expr := text_field_name +:+ " like '%" +:+ query_text +:+ "%'" in
      try_except
        (do results <- Store.query env client collection_name filter_expr limit output_fields;
         let output := "Text search results for '" +:+ query_text
                       +:+ "' in collection '" +:+ collection_name +:+ "':" +:+ nl +:+ nl in
         ret (fold_left (fun output result => output +:+ result +:+ nl +:+ nl) results output))
        (fun e => ret ("Error: Text search failed: " +:+ str_exn e))
  end.

End WithEnv.
End MilvusTools.

(** ** utils/preprocess_attachments.py *)

Module Preprocess.
Section WithEnv.
Context (env : Env).

Definition create_collection (client : Client) (name : string) (dim : Z)
    (logger : option unit) : M unit :=
  match logger with
  | Some _ => logger_call logger "info" ("Creating collection " +:+ name)
  | None => ret tt
  end ;;
  Store.create_collection env client name dim.

Definition BATCH_SIZE : nat := 100.

(** The two dicts of parallel lists. *)
Record ImgBatch : Type := {
  img_vector : list Vec;
  img_path : list string;
}.

Record TxtBatch : Type := {
  txt_vector : list Vec;
  txt_path : list string;
  txt_content : list string;
}.

Definition img_empty : ImgBatch := {| img_vector := []; img_path := [] |}.
Definition txt_empty : TxtBatch := {| txt_vector := []; txt_path := []; txt_content := [] |}.

Definition IMAGE_COLL : string := case_name env +:+ "__attachments_image".
Definition TEXT_COLL : string := case_name env +:+ "__attachments_text".

(** The list comprehensions over [zip(...)]. *)
Fixpoint img_rows (vs : list Vec) (ps : list string) : M (list Row) :=
  match vs, ps with
  | v :: vs', p :: ps' =>
      do m <- lift (Metadata.get_all_metadata env p);
      do rest <- img_rows vs' ps';
      ret ({| vector := v; path := p; modality := "image"; content := "";
              metadata := m |} :: rest)
  | _, _ => ret []
  end.

Fixpoint txt_rows (vs : list Vec) (ps cs : list string) : M (list Row) :=
  match vs, ps, cs with
  | v :: vs', p :: ps', c :: cs' =>
      do m <- lift (Metadata.get_all_metadata env p);
      do rest <- txt_rows vs' ps' cs';
      ret ({| vector := v; path := p; modality := "text"; content := c;
              metadata := m |} :: rest)
  | _, _, _ => ret []
  end.

Definition flush_img (client : Client) (img_batch : ImgBatch) : M ImgBatch :=
  match img_vector img_batch with
  | [] => ret img_batch
  | _ =>
      do rows <- img_rows (img_vector img_batch) (img_path img_batch);
      Store.insert env client IMAGE_COLL rows ;;
      ret img_empty
  end.

Definition flush_txt (client : Client) (txt_batch : TxtBatch) : M TxtBatch :=
  match txt_vector txt_batch with
  | [] => ret txt_batch
  | _ =>
      do rows <- txt_rows (txt_vector txt_batch) (txt_path txt_batch)
                   (txt_content txt_batch);
      Store.insert env client TEXT_COLL rows ;;
      ret txt_empty
  end.

Definition IMAGE_SUFFIXES : list string := [".jpg"; ".jpeg"; ".png"].
Definition TEXT_SUFFIXES : list string := [".txt"; ".md"].

(** The body of the [try] block of [process_file]. *)
Definition process_file_try (p : Path) (b : ImgBatch * TxtBatch) : M (ImgBatch * TxtBatch) :=
  let '(img_batch, txt_batch) := b in
  if str_mem (str_lower (suffix p)) IMAGE_SUFFIXES then
    do vec <- Embeddings.image2vector env (str p) true;
    match vec with
    | Some vec =>
        ret ({| img_vector := img_vector img_batch ++ [astype_float32 env vec];
                img_path := img_path img_batch ++ [str p] |}, txt_batch)
    | None => ret b
    end
  else if str_mem (str_lower (suffix p)) TEXT_SUFFIXES then
    do full_text <- lift (read_text env (str p));
    let snippet := str_take 500 full_text in
    do vec <- Embeddings.text2vector env snippet;
    ret (img_batch,
         {| txt_vector := txt_vector txt_batch ++ [astype_float32 env vec];
            txt_path := txt_path txt_batch ++ [str p];
            txt_content := txt_content txt_batch ++ [snippet] |})
  else ret b.

Definition process_file (logger : option unit) (p : Path) (b : ImgBatch * TxtBatch)
  : M (ImgBatch * TxtBatch) :=
  try_except (process_file_try p b)
    (fun e =>
       logger_call logger "error" ("Failed to ingest " +:+ str p +:+ ": " +:+ str_exn e) ;;
       ret b).

(** The [for f in files] loop. *)
Fixpoint walk (client : Client) (logger : option unit) (files : list Path)
    (b : ImgBatch * TxtBatch) : M (ImgBatch * TxtBatch) :=
  match files with
  | [] => ret b
  | f :: rest =>
      do '(img_batch, txt_batch) <- process_file logger f b;
      do img_batch <-
        (if (BATCH_SIZE <=? length (img_vector img_batch))%nat
         then flush_img client img_batch else ret img_batch);
      do txt_batch <-
        (if (BATCH_SIZE <=? length (txt_vector txt_batch))%nat
         then flush_txt client txt_batch else ret txt_batch);
      walk client logger rest (img_batch, txt_batch)
  end.

Definition preprocess_data_to_milvus (logger : option unit) : M unit :=
  let CONNECTION_URI := milvus_uri env in
  do client <- Store.MilvusClient env CONNECTION_URI None None;
  do has_image <- Store.has_collection env client IMAGE_COLL;
  do both <- (if has_image then Store.has_collection env client TEXT_COLL else ret false);
  if both then
    logger_call logger "info" "Both collections already exist, skipping data processing"
  else
    do '(DIM_TEXT, DIM_IMAGE) <- Embeddings.get_embedding_dimensions env;
    create_collection client IMAGE_COLL DIM_IMAGE logger ;;
    create_collection client TEXT_COLL DIM_TEXT logger ;;
    let DATA_ROOT := attached_artifact_dir env in
    let files := rglob_files env DATA_ROOT in
    do '(img_batch, txt_batch) <- walk client logger files (img_empty, txt_empty);
    flush_img client img_batch ;;
    flush_txt client txt_batch ;;
    Store.flush env client IMAGE_COLL ;;
    Store.flush env client TEXT_COLL ;;
    do img_count <- Store.row_count env client IMAGE_COLL;
    do txt_count <- Store.row_count env client TEXT_COLL;
    logger_call logger "info"
      ("Done. Image entities: " +:+ pretty img_count
       +:+ ", Text entities: " +:+ pretty txt_count).

End WithEnv.
End Preprocess.

(** ** Observations on a run *)

(** World after, and value of, a computation started in [w]. *)
Definition exec {A} (m : M A) (w : World) : World := snd (m w).
Definition eval {A} (m : M A) (w : World) : result A := fst (m w).

(** The [insert] calls of a trace, oldest first: collection and rows. *)
Definition insert_calls (t : list Event) : list (string * list Row) :=
  flat_map (fun ev => match ev with
                      | EvInsert _ name data => [(name, data)]
                      | _ => []
                      end) t.

(** The client object through which a store call was made. *)
Definition event_client (ev : Event) : option Client :=
  match ev with
  | EvNewClient c | EvListCollections c | EvHasCollection c _
  | EvCreateCollection c _ _ | EvInsert c _ _ | EvFlush c _ | EvStats c _
  | EvDescribe c _ | EvSearch c _ _ _ _ _ _ | EvQuery c _ _ _ _ => Some c
  | EvTextModelEncode _ | EvImageFeatures _ | EvTextFeatures _
  | EvLog _ _ | EvPrint _ => None
  end.

Definition is_text_model_event (ev : Event) : bool :=
  match ev with EvTextModelEncode _ => true | _ => false end.

Definition is_search_event (ev : Event) : bool :=
  match ev with EvSearch _ _ _ _ _ _ _ => true | _ => false end.

Definition is_error_log (ev : Event) : bool :=
  match ev with EvLog level _ => String.eqb level "error" | _ => false end.

Definition is_mutation_event (ev : Event) : bool :=
  match ev with EvInsert _ _ _ | EvCreateCollection _ _ _ => true | _ => false end.

#[global] Instance client_eq_dec : EqDecision Client.
Proof. solve_decision. Defined.

(** A store call made through a client other than [c] fails the test. *)
Definition client_is (c : Client) (ev : Event) : bool :=
  match event_client ev with
  | Some c' => bool_decide (c' = c)
  | None => true
  end.

Definition row_count_of (w : World) (name : string) : option nat :=
  (fun col => length (rows col)) <$> store w !! name.

(** What [get_all_metadata] returns for a path (it always returns). *)
Definition metadata_of (env : Env) (p : string) : string :=
  match Metadata.get_all_metadata env p with
  | Ret s => s
  | Raise _ => ""
  end.

(** What [process_file] adds to the text batch for a file: vector, path
    and snippet, when the suffix is a text suffix, the file can be read and
    the model [tm] embeds the snippet. *)
Definition text_entry (env : Env) (tm : TextModel) (p : Path)
  : option (Vec * string * string) :=
  if str_mem (str_lower (suffix p)) Preprocess.TEXT_SUFFIXES then
    match read_text env (str p) with
    | Ret full_text =>
        let snippet := str_take 500 full_text in
        match encode tm (str_take 500 snippet) with
        | Ret vec => Some (astype_float32 env (astype_float32 env vec), str p, snippet)
        | Raise _ => None
        end
    | Raise _ => None
    end
  else None.


Definition image_file (p : Path) : bool :=
  str_mem (str_lower (suffix p)) Preprocess.IMAGE_SUFFIXES.

(** The text batch that holds the given entries, and the rows a flush
    makes of them. *)
Definition txt_batch_of (l : list (Vec * string * string)) : Preprocess.TxtBatch :=
  {| Preprocess.txt_vector := map (fun e => fst (fst e)) l;
     Preprocess.txt_path := map (fun e => snd (fst e)) l;
     Preprocess.txt_content := map snd l |}.

Definition txt_row (env : Env) (e : Vec * string * string) : Row :=
  {| vector := fst (fst e); path := snd (fst e); modality := "text";
     content := snd e; metadata := metadata_of env (snd (fst e)) |}.

Definition img_row (env : Env) (e : Vec * string) : Row :=
  {| vector := fst e; path := snd e; modality := "image";
     content := ""; metadata := metadata_of env (snd e) |}.

(** Every vector the text model gives has the length the model reports. *)
Definition text_model_sound (env : Env) (tm : TextModel) : Prop :=
  forall s vec, encode tm s = Ret vec ->
    Z.of_nat (length (astype_float32 env (astype_float32 env vec)))
    = get_sentence_embedding_dimension tm.

(** The world changes by events that are no [insert] call, and neither the
    store nor the loaded text model changes. *)
Definition quiet_step (w w' : World) : Prop :=
  store w' = store w /\ text_model w' = text_model w
  /\ exists evs, trace w' = trace w ++ evs /\ insert_calls evs = [].

(** Two worlds with the same loaded models. *)
Definition same_models (w w2 : World) : Prop :=
  text_model w2 = text_model w /\ image_model w2 = image_model w
  /\ image_processor w2 = image_processor w /\ image_tokenizer w2 = image_tokenizer w.

Definition entry_fits (tm : TextModel) (e : Vec * string * string) : Prop :=
  Z.of_nat (length (fst (fst e))) = get_sentence_embedding_dimension tm.

(** [preserves R m]: the world after [m] is related by [R] to the world
    before. *)
Definition preserves (R : World -> World -> Prop) {A} (m : M A) : Prop :=
  forall w, R w (exec m w).

(** The trace only grows, and by events that pass the test [ok]. *)
Definition grows (ok : Event -> bool) (w w' : World) : Prop :=
  exists evs, trace w' = trace w ++ evs /\ forallb ok evs = true.

(** A part of the world stays as it is. *)
Definition keeps {A} (f : World -> A) (w w' : World) : Prop := f w' = f w.

Definition both (R1 R2 : World -> World -> Prop) (w w' : World) : Prop :=
  R1 w w' /\ R2 w w'.

(** No text-model inference and no search. *)
Definition calm (ev : Event) : bool :=
  negb (is_text_model_event ev) && negb (is_search_event ev).

Definition no_mutation (ev : Event) : bool := negb (is_mutation_event ev).

(** Through [client] only, and without touching the memoised handle. *)
Definition own (client : Client) : World -> World -> Prop :=
  both (grows (client_is client)) (keeps milvus_client_instance).

(** The client object of an ingestion run started in [w]. *)
Definition ingestion_client (env : Env) (w : World) : Client :=
  {| client_id := clients_made w; client_uri := milvus_uri env;
     client_token := None; client_db_name := None |}.

(** The paths through [milvus_text_image_search]: the fields asked for,
    and the answer made of the outcome of the search. *)
Definition default_output_fields (output_fields : option (list string)) : list string :=
  match output_fields with
  | None => ["path"; "modality"; "metadata"]
  | Some l => l
  end.

Definition search_answer (r : result (list (list Hit))) : list SearchItem :=
  match r with
  | Ret (first :: _) => map ItemHit first
  | Ret [] => []
  | Raise (MilvusException code message as e) =>
      [ItemError ("Milvus vector search failed: " +:+ str_exn e
                  +:+ " (Code: " +:+ pretty code
                  +:+ ", Message: " +:+ message +:+ ")")]
  | Raise e =>
      [ItemError ("Milvus vector search failed with an unexpected error: " +:+ str_exn e)]
  end.

(** What the store answers to a search for [data] in [name]. *)
Definition search_outcome (env : Env) (s : gmap string Collection) (name : string)
    (data : list Vec) (anns_field : string) (limit : Z) (metric_type : string)
    (output_fields : list string) : result (list (list Hit)) :=
  if store_up env then
    match s !! name with
    | None => Raise (Store.diagnostic (collection_not_found env name))
    | Some col => Store.search_each env col data anns_field limit metric_type output_fields
    end
  else Raise (Store.diagnostic (unavailable env)).

(** ** Entries of the image batch, and calls on one collection *)

(** What [process_file] adds to the image batch for a file, with the image
    model [m] and its processor [pr] loaded: vector and path, when the
    suffix is an image suffix, the image opens, is not filtered as an icon,
    and processor, model and normalisation all succeed. *)
Definition image_entry (env : Env) (m : ImageModel) (pr : Processor) (p : Path)
  : option (Vec * string) :=
  if image_file p then
    match Image_open_RGB env (str p) with
    | Ret img =>
        if Embeddings.is_icon img None then None
        else
          match pr img with
          | Ret inputs =>
              match get_image_features m inputs with
              | Ret vec =>
                  match normalize env (astype_float32 env vec) with
                  | Ret v => Some (astype_float32 env v, str p)
                  | Raise _ => None
                  end
              | Raise _ => None
              end
          | Raise _ => None
          end
    | Raise _ => None
    end
  else None.

Definition img_batch_of (l : list (Vec * string)) : Preprocess.ImgBatch :=
  {| Preprocess.img_vector := map fst l; Preprocess.img_path := map snd l |}.

(** Every vector the image pipeline gives has length [dim]. *)
Definition image_model_sound (env : Env) (m : ImageModel) (pr : Processor) (dim : Z) : Prop :=
  forall img inputs vec v,
    pr img = Ret inputs -> get_image_features m inputs = Ret vec ->
    normalize env (astype_float32 env vec) = Ret v ->
    Z.of_nat (length (astype_float32 env v)) = dim.

Definition img_entry_fits (dim : Z) (e : Vec * string) : Prop :=
  Z.of_nat (length (fst e)) = dim.

(** The models are loaded and stay, the store stays, and no [insert] call
    is made. *)
Definition still (w w' : World) : Prop :=
  store w' = store w /\ text_model w' = text_model w
  /\ image_model w' = image_model w /\ image_processor w' = image_processor w
  /\ exists evs, trace w' = trace w ++ evs /\ insert_calls evs = [].

(** The two batches are parallel lists, shorter than [BATCH_SIZE]. *)
Definition batches_ok (b : Preprocess.ImgBatch * Preprocess.TxtBatch) : Prop :=
  length (Preprocess.img_path (fst b)) = length (Preprocess.img_vector (fst b))
  /\ length (Preprocess.txt_path (snd b)) = length (Preprocess.txt_vector (snd b))
  /\ length (Preprocess.txt_content (snd b)) = length (Preprocess.txt_vector (snd b))
  /\ (length (Preprocess.img_vector (fst b)) < Preprocess.BATCH_SIZE)%nat
  /\ (length (Preprocess.txt_vector (snd b)) < Preprocess.BATCH_SIZE)%nat.

(** Only the store's own exceptions. *)
Definition is_store_error (e : exn) : Prop :=
  exists code message, e = MilvusException code message.

(** [raises_only P m]: when [m] raises, the exception satisfies [P]. *)
Definition raises_only (P : exn -> Prop) {A} (m : M A) : Prop :=
  forall w e, eval m w = Raise e -> P e.

(** The rows of the calls on [name] in a list of insert calls. *)
Definition calls_on (name : string) (calls : list (string * list Row)) : list (list Row) :=
  flat_map (fun c => if String.eqb (fst c) name then [snd c] else []) calls.

(** What one step of the loop does with a batch: nothing below
    [BATCH_SIZE], one insert of the whole batch from [BATCH_SIZE] on. *)
Definition step_chunks {A} (l : list A) : list (list A) :=
  if (Preprocess.BATCH_SIZE <=? length l)%nat then [l] else [].

Definition step_rest {A} (l : list A) : list A :=
  if (Preprocess.BATCH_SIZE <=? length l)%nat then [] else l.

(** An insert call of the walk: on one of the two collections, with a full
    batch. *)
Definition full_insert (env : Env) (c : string * list Row) : Prop :=
  (fst c = Preprocess.IMAGE_COLL env \/ fst c = Preprocess.TEXT_COLL env)
  /\ length (snd c) = Preprocess.BATCH_SIZE.

(** The insert that a flush makes of a batch: none for an empty batch. *)
Definition flush_call (name : string) (data : list Row) : list (string * list Row) :=
  match data with
  | [] => []
  | _ => [(name, data)]
  end.

(** An insert call of a run: on one of the two collections, with at least
    one and at most [BATCH_SIZE] rows. *)
Definition batch_insert (env : Env) (c : string * list Row) : Prop :=
  (fst c = Preprocess.IMAGE_COLL env \/ fst c = Preprocess.TEXT_COLL env)
  /\ (0 < length (snd c) <= Preprocess.BATCH_SIZE)%nat.

(** Whether the store lets [create_collection] for [name] return: it does
    for a collection that is not there; for one that is there the answer
    is the store's. *)
Definition create_accepted (env : Env) (w : World) (name : string) (dim : Z) : Prop :=
  match store w !! name with
  | Some col => create_existing env name col dim = Ret tt
  | None => True
  end.

(** What one file may do to the batches: nothing, one image entry more, or
    one text entry more; always in all lists of the batch at once. *)
Definition one_more (b b' : Preprocess.ImgBatch * Preprocess.TxtBatch) : Prop :=
  b' = b
  \/ (exists v p,
        b' = ({| Preprocess.img_vector := Preprocess.img_vector (fst b) ++ [v];
                 Preprocess.img_path := Preprocess.img_path (fst b) ++ [p] |}, snd b))
  \/ (exists v p c,
        b' = (fst b,
              {| Preprocess.txt_vector := Preprocess.txt_vector (snd b) ++ [v];
                 Preprocess.txt_path := Preprocess.txt_path (snd b) ++ [p];
                 Preprocess.txt_content := Preprocess.txt_content (snd b) ++ [c] |})).


(** The test that every event passes. *)
Definition any_event (ev : Event) : bool := true.

(** [read_only m]: [m] leaves the store as it is and makes no [insert] and
    no [create_collection] call. *)
Definition read_only {A} (m : M A) : Prop :=
  forall w,
    store (exec m w) = store w
    /\ exists evs, trace (exec m w) = trace w ++ evs /\ forallb no_mutation evs = true.

(** The filter expression of [milvus_text_search]. *)
Definition like_filter (text_field_name query_text : string) : string :=
  text_field_name +:+ " like '%" +:+ query_text +:+ "%'".

Definition is_query_event (ev : Event) : bool :=
  match ev with EvQuery _ _ _ _ _ => true | _ => false end.

(** The three globals of the image model go together: where the model is
    set, processor and tokenizer are set. *)
Definition loaded_together (w : World) : Prop :=
  is_Some (image_model w) -> is_Some (image_processor w) /\ is_Some (image_tokenizer w).

Definition together_step (w w' : World) : Prop :=
  loaded_together w -> loaded_together w'.

(** [keeps_together m]: [m] does not break [loaded_together]. *)
Definition keeps_together {A} (m : M A) : Prop :=
  forall w, loaded_together w -> loaded_together (exec m w).

(** ** A small concrete environment, used to run the definitions *)

Module Demo.

Definition tm : TextModel :=
  {| encode := fun s => Ret [Z.of_nat (String.length s); 1];
     get_sentence_embedding_dimension := 2 |}.

Definition im : ImageModel :=
  {| get_image_features := fun inputs => Ret [1; 2; 3];
     get_text_features := fun inputs => Ret [4; 5; 6] |}.

Definition processor : Processor := fun img => Ret [fst (size img); snd (size img)].
Definition tokenizer : Tokenizer :=
  fun texts => Ret (map (fun t => Z.of_nat (String.length t)) texts).

Definition black (w h : Z) : Image :=
  {| size := (w, h);
     rgba_getcolors := fun _ => Ret (Some [(w * h, (0, 0, 0, 255))]) |}.

Definition hit_of (r : Row) : Hit :=
  {| hit_id := 0; hit_distance := 0; hit_entity := [("path", path r)] |}.

Definition mk (files : list Path) (img : string -> result Image)
    (exif : string -> result (list (list (string * option string)))) : Env :=
  {| case_name := "case1";
     milvus_uri := "http://localhost:19530";
     milvus_db_name := "default";
     milvus_token := None;
     embed_text_model_name := "text-model";
     embed_image_model_name := "image-model";
     attached_artifact_dir := "test/backup/case1/Export/Attachments";
     SentenceTransformer := fun _ => Ret tm;
     text_model_to_device := fun _ => Ret tt;
     AutoProcessor_from_pretrained := fun _ => Ret processor;
     AutoTokenizer_from_pretrained := fun _ => Ret tokenizer;
     AutoModel_from_pretrained := fun _ => Ret im;
     dummy_image := black 512 512;
     astype_float32 := fun v => v;
     normalize := fun v => Ret v;
     rglob_files := fun _ => files;
     read_text := fun p => Ret ("text of " +:+ p);
     Image_open_RGB := img;
     abspath := fun p => "/work/" +:+ p;
     path_exists := fun _ => true;
     exiftool_get_metadata := exif;
     connect := fun _ _ _ => Ret tt;
     store_up := true;
     unavailable := (2, "service unavailable");
     collection_not_found := fun name => (100, "collection not found: " +:+ name);
     dimension_mismatch := fun name want got => (1100, "vector dimension mismatch");
     create_existing := fun name _ _ =>
       Raise (MilvusException 1 ("collection " +:+ name +:+ " already exists"));
     ann_search := fun col v _ limit _ _ =>
       Ret (take (Z.to_nat limit) (map hit_of (rows col)));
     like_query := fun _ _ _ _ => Ret [];
     describe := fun name _ => name |}.

Definition no_image : string -> result Image :=
  fun _ => Raise (OSError "cannot identify image file").

Definition exif_ok : string -> result (list (list (string * option string))) :=
  fun _ => Ret [[("File:FileType", Some "TXT"); ("File:FileName", Some "x")]].

Definition exif_broken : string -> result (list (list (string * option string))) :=
  fun _ => Raise (RuntimeError "exiftool died").

Definition txt_file (i : nat) : Path :=
  {| str := "note" +:+ pretty i +:+ ".txt"; suffix := ".txt" |}.

(** 137 text files and nothing else. *)
Definition files137 : list Path := map txt_file (seq 0 137).

Definition env : Env := mk files137 no_image exif_ok.

(** A process that has just started, and a store without collections. *)
Definition fresh : World :=
  {| store := ∅; clients_made := 0; milvus_client_instance := None;
     text_model := None; image_model := None; image_processor := None;
     image_tokenizer := None; trace := [] |}.

Definition icon : Image := black 16 16.

(** Both collections are there already (and empty). *)
Definition indexed : World :=
  {| store := <["case1__attachments_image" := {| dimension := 3; rows := [] |}]>
                (<["case1__attachments_text" := {| dimension := 2; rows := [] |}]> ∅);
     clients_made := 0; milvus_client_instance := None;
     text_model := None; image_model := None; image_processor := None;
     image_tokenizer := None; trace := [] |}.

(** One text file, and an ExifTool that fails on every file. *)
Definition broken_env : Env := mk [txt_file 0] no_image exif_broken.

(** The first two client objects of a process: the one of
    [get_milvus_client], the one of a later ingestion run. *)
Definition search_client : Client :=
  {| client_id := 0; client_uri := "http://localhost:19530";
     client_token := None; client_db_name := Some "default" |}.

Definition ingest_client : Client :=
  {| client_id := 1; client_uri := "http://localhost:19530";
     client_token := None; client_db_name := None |}.

Definition icon_file : Path := {| str := "icon.PNG"; suffix := ".PNG" |}.

(** A tree with one small one-colour PNG. *)
Definition icon_env : Env := mk [icon_file] (fun _ => Ret icon) exif_ok.


End Demo.

(** ** A tree with files of every kind *)

Module Tree.

Definition photo : Path := {| str := "photo.JPG"; suffix := ".JPG" |}.
Definition logo : Path := {| str := "logo.png"; suffix := ".png" |}.
Definition torn : Path := {| str := "torn.jpeg"; suffix := ".jpeg" |}.
Definition readme : Path := {| str := "README.md"; suffix := ".md" |}.
Definition blob : Path := {| str := "blob.txt"; suffix := ".txt" |}.
Definition report : Path := {| str := "report.pdf"; suffix := ".pdf" |}.

(** A photo, a one-colour logo, and a file that is no image. *)
Definition open_image (p : string) : result Image :=
  if String.eqb p "photo.JPG" then Ret (Demo.black 800 600)
  else if String.eqb p "logo.png" then Ret Demo.icon
  else Raise (OSError "cannot identify image file").

(** [blob.txt] may not be read by this user. *)
Definition read (p : string) : result string :=
  if String.eqb p "blob.txt" then Raise (OSError "[Errno 13] Permission denied: 'blob.txt'")
  else Ret ("text of " +:+ p).

Definition env : Env :=
  {| case_name := "case1";
     milvus_uri := "http://localhost:19530";
     milvus_db_name := "default";
     milvus_token := None;
     embed_text_model_name := "text-model";
     embed_image_model_name := "image-model";
     attached_artifact_dir := "test/backup/case1/Export/Attachments";
     SentenceTransformer := fun _ => Ret Demo.tm;
     text_model_to_device := fun _ => Ret tt;
     AutoProcessor_from_pretrained := fun _ => Ret Demo.processor;
     AutoTokenizer_from_pretrained := fun _ => Ret Demo.tokenizer;
     AutoModel_from_pretrained := fun _ => Ret Demo.im;
     dummy_image := Demo.black 512 512;
     astype_float32 := fun v => v;
     normalize := fun v => Ret v;
     rglob_files := fun _ => [photo; logo; torn; readme; blob; report];
     read_text := read;
     Image_open_RGB := open_image;
     abspath := fun p => "/work/" +:+ p;
     path_exists := fun _ => true;
     exiftool_get_metadata := Demo.exif_ok;
     connect := fun _ _ _ => Ret tt;
     store_up := true;
     unavailable := (2, "service unavailable");
     collection_not_found := fun name => (100, "collection not found: " +:+ name);
     dimension_mismatch := fun name want got => (1100, "vector dimension mismatch");
     create_existing := fun name _ _ =>
       Raise (MilvusException 1 ("collection " +:+ name +:+ " already exists"));
     ann_search := fun col v _ limit _ _ =>
       Ret (take (Z.to_nat limit) (map Demo.hit_of (rows col)));
     like_query := fun _ _ _ _ => Ret [];
     describe := fun name _ => name |}.

End Tree.

(** ** A machine without the model files *)

Module Offline.

(** As the demo environment, but the tokenizer of the image model cannot
    be loaded. *)
Definition env : Env :=
  {| case_name := "case1";
     milvus_uri := "http://localhost:19530";
     milvus_db_name := "default";
     milvus_token := None;
     embed_text_model_name := "text-model";
     embed_image_model_name := "image-model";
     attached_artifact_dir := "test/backup/case1/Export/Attachments";
     SentenceTransformer := fun _ => Ret Demo.tm;
     text_model_to_device := fun _ => Ret tt;
     AutoProcessor_from_pretrained := fun _ => Ret Demo.processor;
     AutoTokenizer_from_pretrained := fun _ => Raise (OSError "image-model is not a local folder");
     AutoModel_from_pretrained := fun _ => Ret Demo.im;
     dummy_image := Demo.black 512 512;
     astype_float32 := fun v => v;
     normalize := fun v => Ret v;
     rglob_files := fun _ => [];
     read_text := fun p => Ret ("text of " +:+ p);
     Image_open_RGB := Demo.no_image;
     abspath := fun p => "/work/" +:+ p;
     path_exists := fun _ => true;
     exiftool_get_metadata := Demo.exif_ok;
     connect := fun _ _ _ => Ret tt;
     store_up := true;
     unavailable := (2, "service unavailable");
     collection_not_found := fun name => (100, "collection not found: " +:+ name);
     dimension_mismatch := fun name want got => (1100, "vector dimension mismatch");
     create_existing := fun name _ _ =>
       Raise (MilvusException 1 ("collection " +:+ name +:+ " already exists"));
     ann_search := fun col v _ limit _ _ =>
       Ret (take (Z.to_nat limit) (map Demo.hit_of (rows col)));
     like_query := fun _ _ _ _ => Ret [];
     describe := fun name _ => name |}.

End Offline.

(** Whether [get_all_metadata] gets a metadata dict for a path: the file
    exists and ExifTool answers with a list that is not empty. *)
Definition metadata_available (env : Env) (p : string) : bool :=
  path_exists env (abspath env p)
  && match exiftool_get_metadata env (abspath env p) with
     | Ret (_ :: _) => true
     | _ => false
     end.

(** * Properties *)

(** ** The icon filter *)

Section IconFilter.
Import Embeddings.

Lemma is_icon_None_small (img : Image) (colours : list (Z * (Z * Z * Z * Z))) :
  Z.max (fst (size img)) (snd (size img)) <= EDGE_MAX ->
  rgba_getcolors img (256 * 256) = Ret (Some colours) ->
  Z.of_nat (length colours) <= COLORS_MAX ->
  is_icon img None = true.
Proof.
  intros Hedge Hcol Hlen. unfold is_icon.
  destruct (size img) as [w h]; simpl in Hedge.
  destruct (Z.gtb_spec (Z.max w h) EDGE_MAX) as [Hgt | _]; [lia |].
  rewrite Hcol.
  destruct (Z.gtb_spec (Z.of_nat (length colours)) COLORS_MAX) as [Hgt | _]; [lia |].
  reflexivity.
Qed.

Lemma is_icon_hint_big (img : Image) (file_bytes : Z) :
  file_bytes > 10000 -> is_icon img (Some file_bytes) = false.
Proof.
  intros Hbig. unfold is_icon.
  destruct (size img) as [w h].
  destruct (Z.max w h >? EDGE_MAX); [reflexivity |].
  destruct (rgba_getcolors img (256 * 256)) as [[colours |] | e]; try reflexivity.
  destruct (Z.of_nat (length colours) >? COLORS_MAX); [reflexivity |].
  destruct (Z.gtb_spec file_bytes 10000) as [_ | Hle]; [reflexivity | lia].
Qed.

(** C7.  Whatever the image, a file-size hint above 10,000 bytes makes
    [is_icon] answer [false], also for an image that is at most 150 pixels
    wide and high and has at most 256 colours. *)
Theorem is_icon_size_hint_override (img : Image) (file_bytes : Z) :
  file_bytes > 10000 -> is_icon img (Some file_bytes) = false.
Proof.
  intros Hbig. unfold is_icon.
  destruct (size img) as [w h].
  destruct (Z.max w h >? EDGE_MAX); [reflexivity |].
  destruct (rgba_getcolors img (256 * 256)) as [[colours |] | e]; try reflexivity.
  destruct (Z.of_nat (length colours) >? COLORS_MAX); [reflexivity |].
  destruct (Z.gtb_spec file_bytes 10000) as [_ | Hle]; [reflexivity | lia].
Qed.

(** The 16x16 one-colour image is an icon without a hint, and is not one
    with a hint of 10,001 bytes. *)
Lemma is_icon_size_hint_override_witness :
  is_icon Demo.icon None = true /\ is_icon Demo.icon (Some 10001) = false.
Proof.
  split; [reflexivity |].
  apply (is_icon_size_hint_override Demo.icon 10001). lia.
Defined.

End IconFilter.

(** ** Running the monad *)

Ltac munfold :=
  unfold eval, exec, print, logger_call, emit, bind, ret, raise, lift, gets, modify,
    try_except in *.

Lemma bind_Ret {A B} (m : M A) (k : A -> M B) (w w' : World) (a : A) :
  m w = (Ret a, w') -> bind m k w = k a w'.
Proof. intros H. unfold bind. rewrite H. reflexivity. Qed.

Lemma bind_Raise {A B} (m : M A) (k : A -> M B) (w w' : World) (e : exn) :
  m w = (Raise e, w') -> bind m k w = (Raise e, w').
Proof. intros H. unfold bind. rewrite H. reflexivity. Qed.



(** ** Truncation *)

Lemma str_take_idem (n : nat) (s : string) : str_take n (str_take n s) = str_take n s.
Proof.
  revert s. induction n as [| n IH]; intros [| c s]; simpl; try reflexivity.
  now rewrite IH.
Qed.





(** ** The icon filter inside ingestion *)

Section IconInIngestion.
Import Embeddings Preprocess.

Lemma image2vector_icon (env : Env) (image_path : string) (img : Image) (w : World) :
  Image_open_RGB env image_path = Ret img ->
  is_icon img None = true ->
  image2vector env image_path true w =
    match get_image_model env w with
    | (Ret _, w') => (Ret None, w')
    | (Raise e, w') => (Raise e, w')
    end.
Proof.
  intros Hopen Hicon. unfold image2vector.
  destruct (get_image_model env w) as [[[[model processor] tokenizer] | e] w'] eqn:Hmodel.
  - erewrite bind_Ret by exact Hmodel.
    munfold. rewrite Hopen, Hicon. reflexivity.
  - erewrite bind_Raise by exact Hmodel. reflexivity.
Qed.

(** C10.  [image2vector] asks [is_icon] without a file size.  So for an
    image file that opens, is at most 150 pixels wide and high and has at
    most 256 colours, [image2vector] with the filter on returns [None]
    (once the image model is there) and [process_file] leaves both batches
    as they were, although [is_icon] with any size above 10,000 bytes
    would have said that the image is not an icon. *)
Theorem image2vector_never_passes_file_size
    (env : Env) (p : Path) (img : Image) (colours : list (Z * (Z * Z * Z * Z))) :
  Image_open_RGB env (str p) = Ret img ->
  Z.max (fst (size img)) (snd (size img)) <= 150 ->
  rgba_getcolors img (256 * 256) = Ret (Some colours) ->
  Z.of_nat (length colours) <= 256 ->
  str_mem (str_lower (suffix p)) IMAGE_SUFFIXES = true ->
  (forall file_bytes, file_bytes > 10000 -> is_icon img (Some file_bytes) = false)
  /\ forall (b : ImgBatch * TxtBatch) (w : World),
       image2vector env (str p) true w =
         match get_image_model env w with
         | (Ret _, w') => (Ret None, w')
         | (Raise e, w') => (Raise e, w')
         end
       /\ process_file_try env p b w =
            match get_image_model env w with
            | (Ret _, w') => (Ret b, w')
            | (Raise e, w') => (Raise e, w')
            end.
Proof.
  intros Hopen Hedge Hcol Hlen Hsuffix. split.
  - intros file_bytes. apply is_icon_hint_big.
  - intros [img_batch txt_batch] w.
    assert (Hicon : is_icon img None = true)
      by (eapply is_icon_None_small; eassumption).
    pose proof (image2vector_icon env (str p) img w Hopen Hicon) as Hvec.
    split; [exact Hvec |].
    unfold process_file_try. rewrite Hsuffix.
    unfold bind. rewrite Hvec.
    destruct (get_image_model env w) as [[triple | e] w']; reflexivity.
Qed.

(** A 16x16 one-colour PNG is dropped during ingestion. *)
Lemma image2vector_never_passes_file_size_witness :
  is_icon Demo.icon (Some 20000) = false
  /\ eval (image2vector Demo.icon_env (str Demo.icon_file) true) Demo.fresh = Ret None
  /\ eval (process_file_try Demo.icon_env Demo.icon_file (img_empty, txt_empty)) Demo.fresh
     = Ret (img_empty, txt_empty).
Proof.
  destruct (image2vector_never_passes_file_size Demo.icon_env Demo.icon_file Demo.icon
              [(256, (0, 0, 0, 255))]) as [Hhint Hrun];
    [reflexivity | simpl; lia | reflexivity | simpl; lia | reflexivity |].
  split; [apply Hhint; lia |].
  destruct (Hrun (img_empty, txt_empty) Demo.fresh) as [Hvec Hfile].
  unfold eval. rewrite Hvec, Hfile. split; reflexivity.
Defined.

End IconInIngestion.

(** ** Dispatch on the extension *)

Section Dispatch.
Import Embeddings Preprocess.

Lemma str_mem_cases (x : string) (l : list string) :
  str_mem x l = true -> In x l.
Proof.
  unfold str_mem. rewrite existsb_exists. intros [y [Hin Heq]].
  apply String.eqb_eq in Heq. now subst.
Qed.

Lemma text_suffix_not_image (x : string) :
  str_mem x TEXT_SUFFIXES = true -> str_mem x IMAGE_SUFFIXES = false.
Proof.
  intros H. apply str_mem_cases in H. simpl in H.
  destruct H as [<- | [<- | []]]; reflexivity.
Qed.

(** C9.  [process_file] decides on the lower-cased suffix.  A file whose
    suffix lower-cases to [.jpg], [.jpeg] or [.png] goes to
    [image2vector] (with the icon filter on) and, when a vector comes
    back, into the image batch; a file whose suffix lower-cases to [.txt]
    or [.md] is read, cut to 500 characters, sent to [text2vector] and put
    into the text batch. *)
Theorem process_file_dispatch_lowercases
    (env : Env) (p : Path) (img_batch : ImgBatch) (txt_batch : TxtBatch) (w : World) :
  (In (str_lower (suffix p)) [".jpg"; ".jpeg"; ".png"] ->
     process_file_try env p (img_batch, txt_batch) w =
       match image2vector env (str p) true w with
       | (Ret (Some vec), w') =>
           (Ret ({| img_vector := img_vector img_batch ++ [astype_float32 env vec];
                    img_path := img_path img_batch ++ [str p] |}, txt_batch), w')
       | (Ret None, w') => (Ret (img_batch, txt_batch), w')
       | (Raise e, w') => (Raise e, w')
       end)
  /\ (In (str_lower (suffix p)) [".txt"; ".md"] ->
     process_file_try env p (img_batch, txt_batch) w =
       match read_text env (str p) with
       | Ret full_text =>
           match text2vector env (str_take 500 full_text) w with
           | (Ret vec, w') =>
               (Ret (img_batch,
                     {| txt_vector := txt_vector txt_batch ++ [astype_float32 env vec];
                        txt_path := txt_path txt_batch ++ [str p];
                        txt_content := txt_content txt_batch ++ [str_take 500 full_text] |}),
                w')
           | (Raise e, w') => (Raise e, w')
           end
       | Raise e => (Raise e, w)
       end).
Proof.
  split; intros Hin.
  - assert (Hmem : str_mem (str_lower (suffix p)) IMAGE_SUFFIXES = true).
    { simpl in Hin. destruct Hin as [<- | [<- | [<- | []]]]; reflexivity. }
    unfold process_file_try. rewrite Hmem. unfold bind.
    destruct (image2vector env (str p) true w) as [[[vec |] | e] w']; reflexivity.
  - assert (Hmem : str_mem (str_lower (suffix p)) TEXT_SUFFIXES = true).
    { simpl in Hin. destruct Hin as [<- | [<- | []]]; reflexivity. }
    unfold process_file_try.
    rewrite (text_suffix_not_image _ Hmem), Hmem.
    unfold bind, lift.
    destruct (read_text env (str p)) as [full_text | e]; [| reflexivity].
    destruct (text2vector env (str_take 500 full_text) w) as [[vec | e] w']; reflexivity.
Qed.

(** [photo.JPG] is sent to the image model (and rejected there, as the
    demo file system has no such image); [README.Md] lands in the text
    batch. *)
Lemma process_file_dispatch_lowercases_witness :
  eval (process_file_try Demo.env {| str := "photo.JPG"; suffix := ".JPG" |}
          (img_empty, txt_empty)) Demo.fresh
    = Ret (img_empty, txt_empty)
  /\ eval (process_file_try Demo.env {| str := "README.Md"; suffix := ".Md" |}
             (img_empty, txt_empty)) Demo.fresh
    = Ret (img_empty,
           {| txt_vector := [[17; 1]]; txt_path := ["README.Md"];
              txt_content := ["text of README.Md"] |}).
Proof.
  split; unfold eval.
  - rewrite (proj1 (process_file_dispatch_lowercases Demo.env
                      {| str := "photo.JPG"; suffix := ".JPG" |}
                      img_empty txt_empty Demo.fresh));
      [reflexivity | simpl; auto].
  - rewrite (proj2 (process_file_dispatch_lowercases Demo.env
                      {| str := "README.Md"; suffix := ".Md" |}
                      img_empty txt_empty Demo.fresh));
      [reflexivity | simpl; auto].
Defined.

End Dispatch.

(** ** What a computation leaves alone

    [preserves R m]: the world after [m] is related by [R] to the world
    before, for a reflexive and transitive [R].  The rules follow the
    structure of a computation. *)

Section Preserves.
Context (R : World -> World -> Prop) `{!PreOrder R}.

Lemma preserves_ret {A} (a : A) : preserves R (ret a).
Proof. intros w. reflexivity. Qed.

Lemma preserves_raise {A} (e : exn) : preserves R (@raise A e).
Proof. intros w. reflexivity. Qed.

Lemma preserves_lift {A} (r : result A) : preserves R (lift r).
Proof. intros w. reflexivity. Qed.

Lemma preserves_gets {A} (f : World -> A) : preserves R (gets f).
Proof. intros w. reflexivity. Qed.

Lemma preserves_modify (f : World -> World) :
  (forall w, R w (f w)) -> preserves R (modify f).
Proof. intros H w. apply H. Qed.

Lemma preserves_bind {A B} (m : M A) (k : A -> M B) :
  preserves R m -> (forall a, preserves R (k a)) -> preserves R (bind m k).
Proof.
  intros Hm Hk w. specialize (Hm w). unfold exec, bind in *.
  destruct (m w) as [[a | e] w1]; simpl in *.
  - etransitivity; [exact Hm | apply Hk].
  - exact Hm.
Qed.

Lemma preserves_try {A} (m : M A) (h : exn -> M A) :
  preserves R m -> (forall e, preserves R (h e)) -> preserves R (try_except m h).
Proof.
  intros Hm Hh w. specialize (Hm w). unfold exec, try_except in *.
  destruct (m w) as [[a | e] w1]; simpl in *.
  - exact Hm.
  - etransitivity; [exact Hm | apply Hh].
Qed.

End Preserves.

(** One step of a proof of [preserves]: [leaf] closes what is left at a
    [modify]. *)
Ltac preserves_step leaf :=
  lazymatch goal with
  | |- PreOrder _ => apply _
  | |- preserves _ (bind _ _) => apply preserves_bind; [ apply _ | | intros ? ]
  | |- preserves _ (try_except _ _) => apply preserves_try; [ apply _ | | intros ? ]
  | |- preserves _ (ret _) => apply preserves_ret; apply _
  | |- preserves _ (raise _) => apply preserves_raise; apply _
  | |- preserves _ (lift _) => apply preserves_lift; apply _
  | |- preserves _ (gets _) => apply preserves_gets; apply _
  | |- preserves _ (modify _) => apply preserves_modify; intros ?; leaf
  | |- preserves _ (emit _) => apply preserves_modify; intros ?; leaf
  | |- preserves _ (print _) => apply preserves_modify; intros ?; leaf
  | |- preserves _ (logger_call ?l _ _) => destruct l; unfold logger_call
  | |- preserves _ (match ?x with _ => _ end) => destruct x
  | |- preserves _ _ => solve [ auto ]
  end.

Ltac preserves_auto leaf := repeat preserves_step leaf.

#[local] Instance grows_preorder (ok : Event -> bool) : PreOrder (grows ok).
Proof.
  split.
  - intros w. exists []. split; [now rewrite app_nil_r | reflexivity].
  - intros w1 w2 w3 [evs1 [H1 Hok1]] [evs2 [H2 Hok2]].
    exists (evs1 ++ evs2). split.
    + rewrite H2, H1. now rewrite <- app_assoc.
    + rewrite forallb_app, Hok1, Hok2. reflexivity.
Qed.

#[local] Instance keeps_preorder {A} (f : World -> A) : PreOrder (keeps f).
Proof.
  split.
  - intros w. reflexivity.
  - intros w1 w2 w3 H1 H2. unfold keeps in *. congruence.
Qed.

#[local] Instance both_preorder (R1 R2 : World -> World -> Prop)
  `{!PreOrder R1} `{!PreOrder R2} : PreOrder (both R1 R2).
Proof.
  split.
  - intros w. split; reflexivity.
  - intros w1 w2 w3 [H1 H2] [H3 H4]. split; etransitivity; eassumption.
Qed.

Lemma grows_add_event (ok : Event -> bool) (ev : Event) (w : World) :
  ok ev = true -> grows ok w (add_event ev w).
Proof. intros Hok. exists [ev]. split; [reflexivity | simpl; now rewrite Hok]. Qed.

Lemma grows_same_trace (ok : Event -> bool) (w w' : World) :
  trace w' = trace w -> grows ok w w'.
Proof. intros H. exists []. split; [now rewrite app_nil_r | reflexivity]. Qed.

(** Leaves: an event that passes the test, or a change of a field other
    than the trace and the kept one. *)
Ltac leaf_grows :=
  first [ apply grows_add_event; reflexivity
        | apply grows_same_trace; reflexivity ].

Ltac leaf_keeps := reflexivity.

Ltac leaf_rel :=
  idtac;
  lazymatch goal with
  | |- both _ _ _ _ => split; leaf_rel
  | |- grows _ _ _ => leaf_grows
  | |- keeps _ _ _ => reflexivity
  end.

(** ** The singleton client *)

Section Client.
Import MilvusTools.
Context (env : Env).

Lemma get_milvus_client_calm :
  preserves (both (grows calm) (both (keeps text_model) (keeps store)))
    (get_milvus_client env).
Proof.
  unfold get_milvus_client, Store.MilvusClient, Store.list_collections, Store.reach.
  preserves_auto leaf_rel.
Qed.

Lemma query2vector_calm (query : string) :
  preserves (both (grows calm)
               (both (keeps text_model) (both (keeps store) (keeps milvus_client_instance))))
    (Embeddings.query2vector env query).
Proof.
  unfold Embeddings.query2vector, Embeddings.get_image_model, Embeddings.call_tokenizer,
    Embeddings.call_get_text_features.
  preserves_auto leaf_rel.
Qed.

Lemma get_image_model_Ret (m : option ImageModel) (p : option Processor)
    (t : option Tokenizer) (w w' : World) :
  Embeddings.get_image_model env w = (Ret (m, p, t), w') ->
  image_model w' = m /\ image_processor w' = p /\ image_tokenizer w' = t
  /\ trace w' = trace w.
Proof.
  unfold Embeddings.get_image_model. munfold.
  destruct (image_model w) eqn:Hcur; simpl.
  - intros H. inversion H; subst. auto.
  - destruct (AutoProcessor_from_pretrained env _); simpl; [| discriminate].
    destruct (AutoTokenizer_from_pretrained env _); simpl; [| discriminate].
    destruct (AutoModel_from_pretrained env _); simpl; [| discriminate].
    intros H. inversion H; subst. auto.
Qed.

(** What a vector that [query2vector] returns is. *)
Lemma query2vector_Ret (query : string) (v : Vec) (w w' : World) :
  Embeddings.query2vector env query w = (Ret v, w') ->
  exists model tokenizer inputs raw,
    image_model w' = Some model /\ image_tokenizer w' = Some tokenizer
    /\ tokenizer [query] = Ret inputs
    /\ get_text_features model inputs = Ret raw
    /\ normalize env (astype_float32 env raw) = Ret v
    /\ trace w' = trace w ++ [EvTextFeatures inputs].
Proof.
  unfold Embeddings.query2vector. unfold bind at 1.
  destruct (Embeddings.get_image_model env w) as [[[[m p] t] | e] w0] eqn:Hmodel;
    [| discriminate].
  apply get_image_model_Ret in Hmodel as (Hm & _ & Ht & Htrace).
  unfold Embeddings.call_tokenizer, Embeddings.call_get_text_features. munfold.
  destruct t as [tokenizer |]; [| discriminate].
  destruct (tokenizer [query]) as [inputs |] eqn:Htok; [| discriminate].
  destruct m as [model |]; [| discriminate]. simpl.
  destruct (get_text_features model inputs) as [raw |] eqn:Hraw; [| discriminate].
  destruct (normalize env (astype_float32 env raw)) as [v' |] eqn:Hnorm; [| discriminate].
  intros H. inversion H; subst.
  exists model, tokenizer, inputs, raw. simpl. rewrite Htrace. auto 10.
Qed.

(** A search changes nothing but the trace, which gets the one event. *)
Lemma search_exec (c : Client) (name : string) (data : list Vec) (anns_field : string)
    (limit : Z) (metric_type : string) (output_fields : list string) (w : World) :
  exec (Store.search env c name data anns_field limit metric_type output_fields) w
  = add_event (EvSearch c name data anns_field limit metric_type output_fields) w.
Proof.
  unfold Store.search, Store.reach, Store.the_collection. munfold. simpl.
  destruct (store_up env); simpl; [| reflexivity].
  destruct (store w !! name) as [col |]; simpl; [| reflexivity].
  destruct (Store.search_each env col data anns_field limit metric_type output_fields);
    reflexivity.
Qed.

Lemma milvus_text_image_search_paths (query_text collection_name vector_field : string)
    (limit : Z) (output_fields : option (list string)) (metric_type : string) (w : World) :
  milvus_text_image_search env query_text collection_name vector_field limit
    output_fields metric_type w
  = match get_milvus_client env w with
    | (Raise e, w1) => (Raise e, w1)
    | (Ret None, w1) =>
        (Ret [ItemError "Milvus client not available or connection failed."], w1)
    | (Ret (Some client), w1) =>
        match Embeddings.query2vector env query_text w1 with
        | (Raise e, w2) =>
            (Ret [ItemError ("Failed to convert query to vector: " +:+ str_exn e)], w2)
        | (Ret v, w2) =>
            let w3 := add_event
                        (EvPrint ("Searching collection '" +:+ collection_name
                                  +:+ "' with vector in field '" +:+ vector_field +:+ "'"))
                        w2 in
            (Ret (search_answer
                    (eval (Store.search env client collection_name [v] vector_field limit
                             metric_type (default_output_fields output_fields)) w3)),
             add_event (EvSearch client collection_name [v] vector_field limit
                          metric_type (default_output_fields output_fields)) w3)
        end
    end.
Proof.
  unfold milvus_text_image_search. unfold bind at 1.
  destruct (get_milvus_client env w) as [[[client |] | e] w1]; try reflexivity.
  unfold bind at 1. unfold try_except at 1. unfold bind at 1.
  destruct (Embeddings.query2vector env query_text w1) as [[v | e] w2]; [| reflexivity].
  cbv beta iota. unfold ret at 1. cbv beta iota.
  unfold try_except, print, emit, modify. unfold bind at 1. unfold bind at 1.
  cbv beta iota.
  fold (default_output_fields output_fields).
  set (w3 := add_event _ w2).
  pose proof (search_exec client collection_name [v] vector_field limit metric_type
                (default_output_fields output_fields) w3) as Hexec.
  unfold exec, eval in *.
  destruct (Store.search env client collection_name [v] vector_field limit metric_type
              (default_output_fields output_fields) w3) as [[results | e] w4];
    simpl in Hexec; subst w4; simpl.
  - destruct results; reflexivity.
  - destruct e; reflexivity.
Qed.

(** [get_milvus_client] never raises, and what it returns is what the
    global holds afterwards. *)
Lemma get_milvus_client_returns (w : World) :
  get_milvus_client env w
  = (Ret (milvus_client_instance (exec (get_milvus_client env) w)),
     exec (get_milvus_client env) w).
Proof.
  unfold exec, get_milvus_client, Store.MilvusClient, Store.list_collections, Store.reach.
  munfold.
  destruct (milvus_client_instance w) eqn:Hcur; simpl; [now rewrite Hcur |].
  destruct (connect env _ _ _); simpl; [| reflexivity].
  destruct (store_up env); reflexivity.
Qed.

Lemma calm_In (evs : list Event) (ev : Event) :
  forallb calm evs = true -> In ev evs ->
  is_text_model_event ev = false /\ is_search_event ev = false.
Proof.
  intros Hall Hin. rewrite forallb_forall in Hall. specialize (Hall ev Hin).
  unfold calm in Hall. apply andb_prop in Hall as [H1 H2].
  split; [destruct (is_text_model_event ev) | destruct (is_search_event ev)];
    simpl in *; congruence.
Qed.

Lemma calm_no_search (evs : list Event) :
  forallb calm evs = true -> List.filter is_search_event evs = [].
Proof.
  induction evs as [| ev evs IH]; [reflexivity |].
  simpl. intros H. apply andb_prop in H as [Hev Hevs].
  unfold calm in Hev. apply andb_prop in Hev as [_ Hev].
  destruct (is_search_event ev); [discriminate | now apply IH].
Qed.

(** C3.  Whatever collection is named, [milvus_text_image_search] never
    runs the text-embedding model (no call of its [encode], and the
    global that holds it is not touched), and the vector of every search
    it issues is the normalised output of the image model's
    [get_text_features] on the tokenised query.  And it does encode and
    search: with the client there and [query2vector] giving a vector, it
    issues exactly one search, in the collection named, with that vector. *)
Theorem search_query_is_encoded_by_image_model
    (query_text collection_name vector_field : string) (limit : Z)
    (output_fields : option (list string)) (metric_type : string) (w : World) :
  let w' := exec (milvus_text_image_search env query_text collection_name vector_field
                    limit output_fields metric_type) w in
  text_model w' = text_model w
  /\ exists evs,
      trace w' = trace w ++ evs
      /\ (forall snippet, ~ In (EvTextModelEncode snippet) evs)
      /\ (forall c name data field l metric fields,
            In (EvSearch c name data field l metric fields) evs ->
            name = collection_name
            /\ exists model tokenizer inputs raw v,
                image_model w' = Some model
                /\ image_tokenizer w' = Some tokenizer
                /\ tokenizer [query_text] = Ret inputs
                /\ get_text_features model inputs = Ret raw
                /\ normalize env (astype_float32 env raw) = Ret v
                /\ data = [v]
                /\ In (EvTextFeatures inputs) evs)
      /\ (forall client v w1 w2,
            get_milvus_client env w = (Ret (Some client), w1) ->
            Embeddings.query2vector env query_text w1 = (Ret v, w2) ->
            List.filter is_search_event evs
            = [EvSearch client collection_name [v] vector_field limit metric_type
                 (default_output_fields output_fields)]).
Proof.
  intros w'. subst w'. unfold exec.
  rewrite milvus_text_image_search_paths.
  pose proof (get_milvus_client_calm w) as (Hgrow1 & Htext1 & _).
  destruct Hgrow1 as (evs1 & Htrace1 & Hcalm1).
  unfold keeps in Htext1.
  rewrite get_milvus_client_returns.
  set (w1 := exec (get_milvus_client env) w) in *.
  assert (Hquiet1 : text_model w1 = text_model w
                    /\ exists evs, trace w1 = trace w ++ evs
                         /\ (forall snippet, ~ In (EvTextModelEncode snippet) evs)
                         /\ (forall c name data field l metric fields,
                                ~ In (EvSearch c name data field l metric fields) evs)).
  { split; [exact Htext1 |]. exists evs1. split; [exact Htrace1 |].
    split; intros; intros Hin; apply (calm_In _ _ Hcalm1) in Hin as [? ?]; discriminate. }
  destruct (milvus_client_instance w1) as [client |].
  2:{ simpl. destruct Hquiet1 as (Ht & evs & Htr & Hno1 & Hno2).
      split; [exact Ht |]. exists evs. split; [exact Htr |]. split; [exact Hno1 |].
      split; [intros * Hin; now apply Hno2 in Hin |].
      intros client v w1' w2 Hclient. discriminate. }
  clear Hquiet1.
  pose proof (query2vector_calm query_text w1) as (Hgrow2 & Htext2 & _).
  destruct Hgrow2 as (evs2 & Htrace2 & Hcalm2).
  unfold keeps, exec in Htext2, Htrace2.
  destruct (Embeddings.query2vector env query_text w1) as [[v | e] w2] eqn:Hq;
    simpl in Htext2, Htrace2; simpl.
  - pose proof Hq as Hq'.
    apply query2vector_Ret in Hq
      as (model & tokenizer & inputs & raw & Hm & Htok & Hin & Hraw & Hnorm & Htr).
    split; [congruence |].
    exists (evs1 ++ evs2 ++ [EvPrint ("Searching collection '" +:+ collection_name
                                    +:+ "' with vector in field '" +:+ vector_field +:+ "'");
                           EvSearch client collection_name [v] vector_field limit metric_type
                             (default_output_fields output_fields)]).
    split; [| split; [| split]].
    + rewrite Htrace2, Htrace1. rewrite <- !app_assoc. reflexivity.
    + intros snippet Hmem. rewrite !in_app_iff in Hmem.
      destruct Hmem as [Hmem | [Hmem | Hmem]].
      * apply (calm_In _ _ Hcalm1) in Hmem as [? ?]. discriminate.
      * apply (calm_In _ _ Hcalm2) in Hmem as [? ?]. discriminate.
      * simpl in Hmem. destruct Hmem as [? | [? | []]]; discriminate.
    + intros c name data field l metric fields Hmem. rewrite !in_app_iff in Hmem.
      destruct Hmem as [Hmem | [Hmem | Hmem]].
      * apply (calm_In _ _ Hcalm1) in Hmem as [? ?]. discriminate.
      * apply (calm_In _ _ Hcalm2) in Hmem as [? ?]. discriminate.
      * simpl in Hmem. destruct Hmem as [? | [Heq | []]]; [discriminate |].
        inversion Heq; subst. split; [reflexivity |].
        exists model, tokenizer, inputs, raw, v.
        split; [exact Hm |]. split; [exact Htok |]. split; [exact Hin |].
        split; [exact Hraw |]. split; [exact Hnorm |]. split; [reflexivity |].
        rewrite !in_app_iff. right. left.
        rewrite Htr in Htrace2. apply app_inv_head in Htrace2. subst evs2.
        now left.
    + intros client' v' w1' w2' Hclient Hquery.
      injection Hclient as <- <-. rewrite Hq' in Hquery. injection Hquery as <- _.
      rewrite !List.filter_app, (calm_no_search _ Hcalm1), (calm_no_search _ Hcalm2).
      reflexivity.
  - split; [congruence |].
    exists (evs1 ++ evs2). split; [| split; [| split]].
    + rewrite Htrace2, Htrace1. now rewrite <- app_assoc.
    + intros snippet Hmem. rewrite in_app_iff in Hmem.
      destruct Hmem as [Hmem | Hmem];
        [apply (calm_In _ _ Hcalm1) in Hmem as [? ?]
        | apply (calm_In _ _ Hcalm2) in Hmem as [? ?]]; discriminate.
    + intros c name data field l metric fields Hmem. rewrite in_app_iff in Hmem.
      destruct Hmem as [Hmem | Hmem];
        [apply (calm_In _ _ Hcalm1) in Hmem as [? ?]
        | apply (calm_In _ _ Hcalm2) in Hmem as [? ?]]; discriminate.
    + intros client' v' w1' w2' Hclient Hquery.
      injection Hclient as <- <-. rewrite Hq in Hquery. discriminate.
Qed.

Lemma search_run (c : Client) (name : string) (data : list Vec) (anns_field : string)
    (limit : Z) (metric_type : string) (output_fields : list string) (w : World) :
  eval (Store.search env c name data anns_field limit metric_type output_fields) w
  = search_outcome env (store w) name data anns_field limit metric_type output_fields.
Proof.
  unfold search_outcome, Store.search, Store.reach, Store.the_collection. munfold. simpl.
  destruct (store_up env); simpl; [| reflexivity].
  destruct (store w !! name) as [col |]; simpl; [| reflexivity].
  destruct (Store.search_each env col data anns_field limit metric_type output_fields);
    reflexivity.
Qed.

Lemma occurs_in_middle (a s b : string) : occurs_in s (a +:+ s +:+ b).
Proof. exists a, b. reflexivity. Qed.

Lemma string_app_assoc (a b c : string) : (a +:+ b) +:+ c = a +:+ (b +:+ c).
Proof.
  induction a as [| x a IH]; [reflexivity |].
  change (String x ((a +:+ b) +:+ c) = String x (a +:+ b +:+ c)). now rewrite IH.
Qed.

(** C5.  [milvus_text_image_search] never raises.  When the client is
    there and the query has been turned into a vector, the answer is made
    of what the store answers to the search.  Where the store refuses with
    a [MilvusException], as it does for a collection that does not exist,
    the tool returns the one-element list [{"error": msg}] whose [msg]
    ends with the exception's code and message.  The code compares no
    lengths: what a vector of another length than the collection's
    dimension gives is what the store answers to it. *)
Theorem search_returns_structured_error
    (query_text collection_name vector_field : string) (limit : Z)
    (output_fields : option (list string)) (metric_type : string) (w : World) :
  (exists items,
      eval (milvus_text_image_search env query_text collection_name vector_field limit
              output_fields metric_type) w = Ret items)
  /\ forall client v w1 w2,
      get_milvus_client env w = (Ret (Some client), w1) ->
      Embeddings.query2vector env query_text w1 = (Ret v, w2) ->
      let answer := search_outcome env (store w) collection_name [v] vector_field limit
                      metric_type (default_output_fields output_fields) in
      eval (milvus_text_image_search env query_text collection_name vector_field
              limit output_fields metric_type) w = Ret (search_answer answer)
      /\ (forall code message,
            answer = Raise (MilvusException code message) ->
            exists text msg,
              search_answer answer = [ItemError msg]
              /\ msg = "Milvus vector search failed: " +:+ text
                       +:+ " (Code: " +:+ pretty code +:+ ", Message: " +:+ message +:+ ")"
              /\ occurs_in (pretty code) msg /\ occurs_in message msg)
      /\ (store w !! collection_name = None ->
          exists code message, answer = Raise (MilvusException code message)).
Proof.
  split.
  - unfold eval. rewrite milvus_text_image_search_paths, get_milvus_client_returns.
    destruct (milvus_client_instance _) as [client |]; [| eexists; reflexivity].
    destruct (Embeddings.query2vector env query_text _) as [[v | e] w2];
      eexists; reflexivity.
  - intros client v w1 w2 Hclient Hquery answer.
    pose proof (get_milvus_client_calm w) as (_ & _ & Hstore1).
    pose proof (query2vector_calm query_text w1) as (_ & _ & Hstore2 & _).
    unfold keeps, exec in Hstore1, Hstore2. rewrite Hclient in Hstore1.
    rewrite Hquery in Hstore2. simpl in Hstore1, Hstore2.
    split; [| split].
    + unfold eval. rewrite milvus_text_image_search_paths, Hclient, Hquery. simpl.
      rewrite search_run. cbn [store add_event]. rewrite Hstore2, Hstore1. reflexivity.
    + intros code message Hanswer. rewrite Hanswer. cbn [search_answer].
      exists (str_exn (MilvusException code message)). eexists.
      split; [reflexivity |]. split; [reflexivity |]. split.
      * exists ("Milvus vector search failed: "
                +:+ str_exn (MilvusException code message) +:+ " (Code: "),
               (", Message: " +:+ message +:+ ")").
        now rewrite !string_app_assoc.
      * exists ("Milvus vector search failed: "
                +:+ str_exn (MilvusException code message) +:+ " (Code: "
                +:+ pretty code +:+ ", Message: "), ")".
        now rewrite !string_app_assoc.
    + intros Hnone. subst answer. unfold search_outcome. rewrite Hnone.
      unfold Store.diagnostic. destruct (store_up env); eauto.
Qed.

End Client.

(** A search in the demo world: one inference of the image model's text
    tower, one search with its vector, nothing from the text model. *)
Example search_in_demo_world :
  let run := MilvusTools.milvus_text_image_search_default Demo.env "a cat"
               "case1__attachments_image" in
  eval run Demo.indexed = Ret []
  /\ List.filter (fun ev => is_text_model_event ev || is_search_event ev
                            || match ev with EvTextFeatures _ => true | _ => false end)
       (trace (exec run Demo.indexed))
     = [EvTextFeatures [5];
        EvSearch Demo.search_client "case1__attachments_image" [[4; 5; 6]] "vector" 5
          "COSINE" ["path"; "modality"; "metadata"]].
Proof. cbv zeta. split; vm_compute; reflexivity. Qed.

(** A missing collection in the demo store: the tool hands back the
    store's code 100 and its message. *)
Lemma search_returns_structured_error_witness :
  exists text,
    eval (MilvusTools.milvus_text_image_search_default Demo.env "a cat" "nope") Demo.fresh
    = Ret [ItemError
             ("Milvus vector search failed: " +:+ text
              +:+ " (Code: 100, Message: collection not found: nope)")].
Proof.
  destruct (search_returns_structured_error Demo.env "a cat" "nope" "vector" 5 None "COSINE"
              Demo.fresh) as [_ H].
  destruct (H {| client_id := 0; client_uri := "http://localhost:19530";
                 client_token := None; client_db_name := Some "default" |}
              [4; 5; 6]
              (exec (MilvusTools.get_milvus_client Demo.env) Demo.fresh)
              (exec (Embeddings.query2vector Demo.env "a cat")
                 (exec (MilvusTools.get_milvus_client Demo.env) Demo.fresh)))
    as (Hrun & Herror & _); [reflexivity | reflexivity |].
  destruct (Herror 100 "collection not found: nope" eq_refl)
    as (text & msg & Hanswer & Hmsg & _).
  exists text. unfold MilvusTools.milvus_text_image_search_default.
  rewrite Hrun, Hanswer, Hmsg. reflexivity.
Defined.

(** The text collection of the demo store has dimension 2 and no row, the
    query vector of the image space has length 3, and this store answers
    the search with no hit: the tool returns the empty list, and no
    error. *)
Lemma search_with_another_dimension_is_not_reported :
  let w1 := exec (MilvusTools.get_milvus_client Demo.env) Demo.indexed in
  dimension <$> store Demo.indexed !! "case1__attachments_text" = Some 2
  /\ eval (Embeddings.query2vector Demo.env "a cat") w1 = Ret [4; 5; 6]
  /\ eval (MilvusTools.milvus_text_image_search_default Demo.env "a cat"
             "case1__attachments_text") Demo.indexed = Ret [].
Proof. cbv zeta. split; [| split]; vm_compute; reflexivity. Qed.

(** The query is encoded by the image model and one search is made with
    its vector. *)
Lemma search_query_is_encoded_by_image_model_witness :
  List.filter is_search_event
    (trace (exec (MilvusTools.milvus_text_image_search_default Demo.env "a cat"
                    "case1__attachments_image") Demo.indexed))
  = [EvSearch Demo.search_client "case1__attachments_image" [[4; 5; 6]] "vector" 5
       "COSINE" ["path"; "modality"; "metadata"]].
Proof.
  destruct (search_query_is_encoded_by_image_model Demo.env "a cat"
              "case1__attachments_image" "vector" 5 None "COSINE" Demo.indexed)
    as (_ & evs & Htrace & _ & _ & Hsearch).
  unfold MilvusTools.milvus_text_image_search_default. rewrite Htrace.
  change (trace Demo.indexed ++ evs) with evs.
  apply (Hsearch Demo.search_client [4; 5; 6]
           (exec (MilvusTools.get_milvus_client Demo.env) Demo.indexed)
           (exec (Embeddings.query2vector Demo.env "a cat")
              (exec (MilvusTools.get_milvus_client Demo.env) Demo.indexed)));
    reflexivity.
Defined.

(** ** Ingestion and its client *)

Section IngestionClient.
Import Embeddings Preprocess.
Context (env : Env).

Lemma client_is_same (c : Client) (ev : Event) :
  event_client ev = Some c -> client_is c ev = true.
Proof. intros H. unfold client_is. rewrite H. now apply bool_decide_eq_true. Qed.

Ltac leaf_own :=
  idtac;
  lazymatch goal with
  | |- both _ _ _ _ => split; leaf_own
  | |- keeps _ _ _ => reflexivity
  | |- grows _ _ (add_event _ _) =>
      apply grows_add_event; first [ reflexivity | apply client_is_same; reflexivity ]
  | |- grows _ _ _ => apply grows_same_trace; reflexivity
  end.

Lemma img_rows_own (client : Client) (vs : list Vec) (ps : list string) :
  preserves (own client) (img_rows env vs ps).
Proof.
  unfold own. revert ps. induction vs as [| v vs IH]; intros [| p ps]; simpl;
    preserves_auto leaf_own.
Qed.

Lemma txt_rows_own (client : Client) (vs : list Vec) (ps cs : list string) :
  preserves (own client) (txt_rows env vs ps cs).
Proof.
  unfold own. revert ps cs.
  induction vs as [| v vs IH]; intros [| p ps] [| c cs]; simpl;
    preserves_auto leaf_own.
Qed.

Lemma insert_own (client : Client) (name : string) (data : list Row) :
  preserves (own client) (Store.insert env client name data).
Proof.
  unfold own, Store.insert, Store.reach, Store.the_collection.
  preserves_auto leaf_own.
Qed.

Lemma flush_img_own (client : Client) (b : ImgBatch) :
  preserves (own client) (flush_img env client b).
Proof.
  pose proof (img_rows_own client). pose proof (insert_own client).
  unfold own in *. unfold flush_img. preserves_auto leaf_own.
Qed.

Lemma flush_txt_own (client : Client) (b : TxtBatch) :
  preserves (own client) (flush_txt env client b).
Proof.
  pose proof (txt_rows_own client). pose proof (insert_own client).
  unfold own in *. unfold flush_txt. preserves_auto leaf_own.
Qed.

Lemma get_text_model_own (client : Client) :
  preserves (own client) (get_text_model env).
Proof. unfold own, get_text_model. preserves_auto leaf_own. Qed.

Lemma get_image_model_own (client : Client) :
  preserves (own client) (get_image_model env).
Proof. unfold own, get_image_model. preserves_auto leaf_own. Qed.

Lemma process_file_own (client : Client) (logger : option unit) (p : Path)
    (b : ImgBatch * TxtBatch) :
  preserves (own client) (process_file env logger p b).
Proof.
  pose proof (get_text_model_own client). pose proof (get_image_model_own client).
  unfold own in *.
  unfold process_file, process_file_try, image2vector, text2vector,
    call_processor, call_get_image_features.
  preserves_auto leaf_own.
Qed.

Lemma walk_own (client : Client) (logger : option unit) (files : list Path)
    (b : ImgBatch * TxtBatch) :
  preserves (own client) (walk env client logger files b).
Proof.
  pose proof (process_file_own client logger).
  pose proof (flush_img_own client). pose proof (flush_txt_own client).
  unfold own in *. revert b.
  induction files as [| f files IH]; intros b; simpl; preserves_auto leaf_own.
Qed.

Lemma MilvusClient_run (uri : string) (token db_name : option string) (w : World) :
  Store.MilvusClient env uri token db_name w
  = match connect env uri token db_name with
    | Ret _ =>
        let c := {| client_id := clients_made w; client_uri := uri;
                    client_token := token; client_db_name := db_name |} in
        (Ret c, add_event (EvNewClient c) (set_clients_made (S (clients_made w)) w))
    | Raise e => (Raise e, w)
    end.
Proof.
  unfold Store.MilvusClient. munfold.
  destruct (connect env uri token db_name); reflexivity.
Qed.

Lemma preprocess_own (logger : option unit) (w : World) :
  own (ingestion_client env w) w (exec (preprocess_data_to_milvus env logger) w).
Proof.
  unfold preprocess_data_to_milvus, exec. unfold bind at 1.
  rewrite MilvusClient_run.
  destruct (connect env (milvus_uri env) None None) as [[] | e]; [| reflexivity].
  cbv zeta. fold (ingestion_client env w).
  set (client := ingestion_client env w).
  set (w0 := add_event (EvNewClient client) _).
  assert (H0 : own client w w0).
  { split; [| reflexivity]. exists [EvNewClient client]. split; [reflexivity |].
    simpl. now rewrite client_is_same. }
  etransitivity; [exact H0 |]. clear H0. generalize w0. clear w0.
  lazymatch goal with
  | |- forall w0, own ?c w0 (snd (?m w0)) => change (preserves (own c) m)
  end.
  pose proof (walk_own client logger).
  pose proof (flush_img_own client). pose proof (flush_txt_own client).
  pose proof (get_text_model_own client). pose proof (get_image_model_own client).
  unfold own in *.
  unfold Store.has_collection, get_embedding_dimensions, create_collection,
    Store.create_collection, Store.flush, Store.row_count, Store.reach,
    Store.the_collection, call_processor, call_get_image_features.
  preserves_auto leaf_own.
Qed.

Lemma get_milvus_client_memo (w : World) (c : Client) :
  milvus_client_instance w = Some c ->
  MilvusTools.get_milvus_client env w = (Ret (Some c), w).
Proof.
  intros H. unfold MilvusTools.get_milvus_client. munfold. rewrite H. simpl.
  now rewrite H.
Qed.

Lemma get_milvus_client_init (w : World) :
  milvus_client_instance w = None ->
  milvus_client_instance (exec (MilvusTools.get_milvus_client env) w)
  = match connect env (milvus_uri env) (milvus_token env) (Some (milvus_db_name env)) with
    | Ret _ =>
        if store_up env
        then Some {| client_id := clients_made w; client_uri := milvus_uri env;
                     client_token := milvus_token env;
                     client_db_name := Some (milvus_db_name env) |}
        else None
    | Raise _ => None
    end.
Proof.
  intros H.
  unfold exec, MilvusTools.get_milvus_client, Store.MilvusClient, Store.list_collections,
    Store.reach, MilvusTools.MILVUS_URI, MilvusTools.MILVUS_TOKEN,
    MilvusTools.MILVUS_DB_NAME.
  munfold. rewrite H. simpl.
  destruct (connect env _ _ _); simpl; [| reflexivity].
  destruct (store_up env); reflexivity.
Qed.

Lemma search_tool_client (query_text collection_name vector_field : string) (limit : Z)
    (output_fields : option (list string)) (metric_type : string) (w : World) :
  let run := MilvusTools.milvus_text_image_search env query_text collection_name
               vector_field limit output_fields metric_type in
  exists evs,
    trace (exec run w) = trace w ++ evs
    /\ match milvus_client_instance (exec run w) with
       | None =>
           eval run w = Ret [ItemError "Milvus client not available or connection failed."]
           /\ forall ev, In ev evs -> is_search_event ev = false
       | Some c =>
           forall ev, In ev evs -> is_search_event ev = true -> event_client ev = Some c
       end.
Proof.
  intros run. subst run. unfold exec, eval.
  rewrite milvus_text_image_search_paths.
  pose proof (get_milvus_client_calm env w) as (Hgrow1 & _).
  destruct Hgrow1 as (evs1 & Htrace1 & Hcalm1).
  rewrite get_milvus_client_returns.
  set (w1 := exec (MilvusTools.get_milvus_client env) w) in *.
  destruct (milvus_client_instance w1) as [client |] eqn:Hmemo1.
  2:{ simpl. exists evs1. split; [exact Htrace1 |]. rewrite Hmemo1.
      split; [reflexivity |]. intros ev Hin. now apply (calm_In _ _ Hcalm1) in Hin. }
  pose proof (query2vector_calm env query_text w1) as (Hgrow2 & _ & _ & Hmemo2).
  destruct Hgrow2 as (evs2 & Htrace2 & Hcalm2).
  unfold keeps, exec in Hmemo2, Htrace2.
  destruct (Embeddings.query2vector env query_text w1) as [[v | e] w2];
    simpl in Hmemo2, Htrace2; simpl; rewrite Hmemo2, Hmemo1.
  - eexists (evs1 ++ evs2 ++ [_; _]). split.
    + rewrite Htrace2, Htrace1. rewrite <- !app_assoc. reflexivity.
    + intros ev Hin Hsearch. rewrite !in_app_iff in Hin.
      destruct Hin as [Hin | [Hin | Hin]].
      * apply (calm_In _ _ Hcalm1) in Hin as [? ?]. congruence.
      * apply (calm_In _ _ Hcalm2) in Hin as [? ?]. congruence.
      * simpl in Hin. destruct Hin as [<- | [<- | []]]; [discriminate | reflexivity].
  - exists (evs1 ++ evs2). split.
    + rewrite Htrace2, Htrace1. now rewrite <- app_assoc.
    + intros ev Hin Hsearch. rewrite in_app_iff in Hin.
      destruct Hin as [Hin | Hin];
        [apply (calm_In _ _ Hcalm1) in Hin as [? ?]
        | apply (calm_In _ _ Hcalm2) in Hin as [? ?]]; congruence.
Qed.

(** C8, as the code has it.  The client of [get_milvus_client] is
    memoised: once set it is returned as it is, without a new connection.
    It is made at the first call, from URI, token and database name; when
    the constructor or the first listing fails, the handle stays unset and
    [None] is returned.  The search tool issues its searches through the
    memoised client, and answers with an error item, without any search,
    when there is none.  Ingestion is outside this: a run makes a client
    of its own from the URI alone, sends every store call through it, and
    leaves the memoised handle as it found it. *)
Theorem store_client_is_memoised_for_search_only :
  (forall w c,
      milvus_client_instance w = Some c ->
      MilvusTools.get_milvus_client env w = (Ret (Some c), w))
  /\ (forall w,
        milvus_client_instance w = None ->
        let w' := exec (MilvusTools.get_milvus_client env) w in
        eval (MilvusTools.get_milvus_client env) w = Ret (milvus_client_instance w')
        /\ milvus_client_instance w'
           = match connect env (milvus_uri env) (milvus_token env)
                     (Some (milvus_db_name env)) with
             | Ret _ =>
                 if store_up env
                 then Some {| client_id := clients_made w; client_uri := milvus_uri env;
                              client_token := milvus_token env;
                              client_db_name := Some (milvus_db_name env) |}
                 else None
             | Raise _ => None
             end)
  /\ (forall query_text collection_name vector_field limit output_fields metric_type w,
        let run := MilvusTools.milvus_text_image_search env query_text collection_name
                     vector_field limit output_fields metric_type in
        exists evs,
          trace (exec run w) = trace w ++ evs
          /\ match milvus_client_instance (exec run w) with
             | None =>
                 eval run w
                 = Ret [ItemError "Milvus client not available or connection failed."]
                 /\ forall ev, In ev evs -> is_search_event ev = false
             | Some c =>
                 forall ev, In ev evs -> is_search_event ev = true ->
                            event_client ev = Some c
             end)
  /\ (forall logger w,
        let w' := exec (preprocess_data_to_milvus env logger) w in
        milvus_client_instance w' = milvus_client_instance w
        /\ exists evs,
            trace w' = trace w ++ evs
            /\ forall ev c, In ev evs -> event_client ev = Some c ->
                            c = {| client_id := clients_made w;
                                   client_uri := milvus_uri env;
                                   client_token := None; client_db_name := None |}).
Proof.
  split; [exact get_milvus_client_memo |].
  split; [| split].
  - intros w Hnone w'. subst w'. split.
    + unfold eval. now rewrite get_milvus_client_returns.
    + now apply get_milvus_client_init.
  - intros. apply search_tool_client.
  - intros logger w w'. subst w'.
    destruct (preprocess_own logger w) as [(evs & Htrace & Hall) Hmemo].
    split; [exact Hmemo |]. exists evs. split; [exact Htrace |].
    intros ev c Hin Hc. rewrite forallb_forall in Hall. specialize (Hall ev Hin).
    unfold client_is in Hall. rewrite Hc in Hall.
    now apply bool_decide_eq_true in Hall.
Qed.

End IngestionClient.

(** In the demo world: a second call of [get_milvus_client] returns the
    client of the first. *)
Lemma store_client_is_memoised_for_search_only_witness :
  let w1 := exec (MilvusTools.get_milvus_client Demo.env) Demo.fresh in
  milvus_client_instance w1 = Some Demo.search_client
  /\ MilvusTools.get_milvus_client Demo.env w1 = (Ret (Some Demo.search_client), w1).
Proof.
  intros w1.
  pose proof (store_client_is_memoised_for_search_only Demo.env) as (Hmemo & Hinit & _).
  assert (H1 : milvus_client_instance w1 = Some Demo.search_client).
  { subst w1. exact (proj2 (Hinit Demo.fresh eq_refl)). }
  split; [exact H1 |]. apply Hmemo. exact H1.
Defined.

(** C8 as stated fails.  After the search tool has set up the memoised
    client (object 0), an ingestion run talks to the store through another
    client (object 1, made without token and database name), and the
    memoised handle still holds the first. *)
Lemma ingestion_does_not_share_the_client :
  let w1 := exec (MilvusTools.milvus_text_image_search_default Demo.env "a cat" "nope")
              Demo.fresh in
  let w2 := exec (Preprocess.preprocess_data_to_milvus Demo.env (Some tt)) w1 in
  milvus_client_instance w1 = Some Demo.search_client
  /\ milvus_client_instance w2 = Some Demo.search_client
  /\ take 2 (drop (length (trace w1)) (trace w2))
     = [EvNewClient Demo.ingest_client;
        EvHasCollection Demo.ingest_client "case1__attachments_image"]
  /\ forallb (client_is Demo.ingest_client) (drop (length (trace w1)) (trace w2)) = true
  /\ Demo.ingest_client <> Demo.search_client.
Proof.
  cbv zeta. repeat split; try (vm_compute; reflexivity). discriminate.
Qed.

(** ** Skipping when both collections exist *)

Section Skip.
Import Preprocess.
Context (env : Env).

Lemma has_collection_run (c : Client) (name : string) (w : World) :
  Store.has_collection env c name w
  = (if store_up env then Ret (bool_decide (is_Some (store w !! name)))
     else Raise (Store.diagnostic (unavailable env)),
     add_event (EvHasCollection c name) w).
Proof.
  unfold Store.has_collection, Store.reach. munfold.
  destruct (store_up env); reflexivity.
Qed.

Lemma preprocess_skip_run (logger : option unit) (w : World)
    (image_col text_col : Collection) :
  store w !! IMAGE_COLL env = Some image_col ->
  store w !! TEXT_COLL env = Some text_col ->
  preprocess_data_to_milvus env logger w
  = match connect env (milvus_uri env) None None with
    | Raise e => (Raise e, w)
    | Ret _ =>
        let client := {| client_id := clients_made w; client_uri := milvus_uri env;
                         client_token := None; client_db_name := None |} in
        let w1 := add_event (EvHasCollection client (IMAGE_COLL env))
                    (add_event (EvNewClient client)
                       (set_clients_made (S (clients_made w)) w)) in
        if store_up env then
          let w2 := add_event (EvHasCollection client (TEXT_COLL env)) w1 in
          match logger with
          | Some _ =>
              (Ret tt,
               add_event
                 (EvLog "info" "Both collections already exist, skipping data processing")
                 w2)
          | None =>
              (Raise (AttributeError "'NoneType' object has no attribute 'info'"), w2)
          end
        else (Raise (Store.diagnostic (unavailable env)), w1)
    end.
Proof.
  intros Himage Htext. unfold preprocess_data_to_milvus.
  unfold bind at 1. rewrite MilvusClient_run.
  destruct (connect env (milvus_uri env) None None) as [[] | e]; [| reflexivity].
  cbv zeta. unfold bind at 1. rewrite has_collection_run.
  destruct (store_up env) eqn:Hup; [| reflexivity].
  cbn [store add_event set_clients_made]. rewrite Himage.
  simpl bool_decide. cbv beta iota.
  unfold bind at 1. rewrite has_collection_run, Hup.
  cbn [store add_event set_clients_made]. rewrite Htext.
  simpl bool_decide. cbv beta iota.
  destruct logger as [[] |]; reflexivity.
Qed.

(** X19.  When the image collection and the text collection of the case
    both exist, a run of ingestion changes nothing in the store, loads no
    model and makes no [insert] and no [create_collection] call; with the
    store reachable and a logger given it returns normally after the two
    existence checks and one log line. *)
Theorem ingestion_skips_when_both_collections_exist
    (logger : option unit) (w : World) (image_col text_col : Collection) :
  store w !! IMAGE_COLL env = Some image_col ->
  store w !! TEXT_COLL env = Some text_col ->
  let w' := exec (preprocess_data_to_milvus env logger) w in
  let client := {| client_id := clients_made w; client_uri := milvus_uri env;
                   client_token := None; client_db_name := None |} in
  store w' = store w
  /\ text_model w' = text_model w
  /\ image_model w' = image_model w
  /\ exists evs,
      trace w' = trace w ++ evs
      /\ insert_calls evs = []
      /\ forallb (fun ev => negb (is_mutation_event ev)) evs = true
      /\ (connect env (milvus_uri env) None None = Ret tt ->
          store_up env = true ->
          logger = Some tt ->
          eval (preprocess_data_to_milvus env logger) w = Ret tt
          /\ evs = [EvNewClient client;
                    EvHasCollection client (IMAGE_COLL env);
                    EvHasCollection client (TEXT_COLL env);
                    EvLog "info"
                      "Both collections already exist, skipping data processing"]).
Proof.
  intros Himage Htext w' client. subst w'.
  unfold exec, eval.
  rewrite (preprocess_skip_run logger w image_col text_col Himage Htext).
  destruct (connect env (milvus_uri env) None None) as [[] | e].
  2:{ cbn [fst snd]. do 3 (split; [reflexivity |]). exists []. rewrite app_nil_r.
      do 3 (split; [reflexivity |]). discriminate. }
  cbv zeta. fold client.
  destruct (store_up env).
  2:{ cbn [fst snd trace store text_model image_model add_event set_clients_made].
      rewrite <- !app_assoc.
      do 3 (split; [reflexivity |]). eexists (_ :: _ :: nil).
      do 3 (split; [reflexivity |]). discriminate. }
  destruct logger as [[] |];
    cbn [fst snd trace store text_model image_model add_event set_clients_made];
    rewrite <- !app_assoc.
  - do 3 (split; [reflexivity |]). eexists (_ :: _ :: _ :: _ :: nil).
    do 3 (split; [reflexivity |]). intros _ _ _. split; reflexivity.
  - do 3 (split; [reflexivity |]). eexists (_ :: _ :: _ :: nil).
    do 3 (split; [reflexivity |]). discriminate.
Qed.

(** C1.  Called as it is declared, with [logger=None], ingestion does not
    return when both collections exist: after the two existence checks the
    skip branch calls [logger.info] without the test that
    [create_collection] makes before its own call, and the run ends in an
    [AttributeError].  No insert has been made and the store is as it
    was. *)
Theorem skip_with_default_logger_raises (w : World) (image_col text_col : Collection) :
  store w !! IMAGE_COLL env = Some image_col ->
  store w !! TEXT_COLL env = Some text_col ->
  connect env (milvus_uri env) None None = Ret tt ->
  store_up env = true ->
  let run := preprocess_data_to_milvus env None in
  eval run w = Raise (AttributeError "'NoneType' object has no attribute 'info'")
  /\ store (exec run w) = store w
  /\ exists evs, trace (exec run w) = trace w ++ evs /\ insert_calls evs = [].
Proof.
  intros Himage Htext Hconn Hup run. subst run. unfold eval, exec.
  rewrite (preprocess_skip_run None w image_col text_col Himage Htext), Hconn, Hup.
  cbn [fst snd trace store add_event set_clients_made]. rewrite <- !app_assoc.
  split; [reflexivity |]. split; [reflexivity |].
  eexists (_ :: _ :: _ :: nil). split; reflexivity.
Qed.

Lemma bind_Ret_inv {A B} (m : M A) (k : A -> M B) (w w' : World) (b : B) :
  bind m k w = (Ret b, w') ->
  exists a w1, m w = (Ret a, w1) /\ k a w1 = (Ret b, w').
Proof.
  unfold bind. destruct (m w) as [[a | e] w1]; [| discriminate].
  intros H. now exists a, w1.
Qed.

Lemma row_count_Ret (c : Client) (name : string) (n : Z) (w w' : World) :
  Store.row_count env c name w = (Ret n, w') ->
  is_Some (store w !! name) /\ store w' = store w.
Proof.
  unfold Store.row_count, Store.reach, Store.the_collection. munfold.
  destruct (store_up env); cbn [fst snd store add_event]; [| discriminate].
  destruct (store w !! name) as [col |]; [| discriminate].
  intros H. inversion H; subst. split; [eauto | reflexivity].
Qed.

Lemma logger_call_store (logger : option unit) (level msg : string) (w w' : World)
    (r : result unit) :
  logger_call logger level msg w = (r, w') -> store w' = store w.
Proof.
  destruct logger; munfold; intros H; inversion H; reflexivity.
Qed.

(** A run that returns normally leaves a store with both collections. *)
Lemma run_leaves_both_collections (logger : option unit) (w w' : World) :
  preprocess_data_to_milvus env logger w = (Ret tt, w') ->
  is_Some (store w' !! IMAGE_COLL env) /\ is_Some (store w' !! TEXT_COLL env).
Proof.
  unfold preprocess_data_to_milvus. intros H.
  apply bind_Ret_inv in H as (client & w1 & _ & H).
  apply bind_Ret_inv in H as (has_image & w2 & Himage & H).
  apply bind_Ret_inv in H as (all & w3 & Htext & H).
  rewrite has_collection_run in Himage.
  destruct (store_up env) eqn:Hup; [| discriminate].
  inversion Himage as [[Hhas Hw2]]. clear Himage.
  destruct all.
  - apply logger_call_store in H.
    destruct has_image; [| discriminate].
    rewrite has_collection_run, Hup in Htext.
    inversion Htext as [[Hhas_text Hw3]]. clear Htext.
    apply bool_decide_eq_true in Hhas.
    apply bool_decide_eq_true in Hhas_text.
    subst w2 w3. cbn [store add_event] in *. rewrite H. split; assumption.
  - clear Htext Hhas Hw2.
    apply bind_Ret_inv in H as ([dim_text dim_image] & w4 & _ & H).
    apply bind_Ret_inv in H as (? & w5 & _ & H).
    apply bind_Ret_inv in H as (? & w6 & _ & H).
    apply bind_Ret_inv in H as ([img_batch txt_batch] & w7 & _ & H).
    apply bind_Ret_inv in H as (? & w8 & _ & H).
    apply bind_Ret_inv in H as (? & w9 & _ & H).
    apply bind_Ret_inv in H as (? & w10 & _ & H).
    apply bind_Ret_inv in H as (? & w11 & _ & H).
    apply bind_Ret_inv in H as (img_count & w12 & Hcount_image & H).
    apply bind_Ret_inv in H as (txt_count & w13 & Hcount_text & H).
    apply logger_call_store in H.
    apply row_count_Ret in Hcount_image as [Himage Hs12].
    apply row_count_Ret in Hcount_text as [Htext Hs13].
    rewrite H, Hs13. split; [rewrite Hs12; exact Himage | exact Htext].
Qed.

(** Running ingestion again after a run that returned normally: no insert
    call, no collection made, the store as it was. *)
Lemma second_run_makes_no_insert (logger logger' : option unit) (w w' : World) :
  preprocess_data_to_milvus env logger w = (Ret tt, w') ->
  store (exec (preprocess_data_to_milvus env logger') w') = store w'
  /\ exists evs,
      trace (exec (preprocess_data_to_milvus env logger') w') = trace w' ++ evs
      /\ insert_calls evs = []
      /\ forallb (fun ev => negb (is_mutation_event ev)) evs = true.
Proof.
  intros Hfirst.
  destruct (run_leaves_both_collections logger w w' Hfirst)
    as [[image_col Himage] [text_col Htext]].
  unfold exec.
  rewrite (preprocess_skip_run logger' w' image_col text_col Himage Htext).
  destruct (connect env (milvus_uri env) None None) as [[] | e].
  2:{ cbn [fst snd]. split; [reflexivity |]. exists []. rewrite app_nil_r.
      repeat split. }
  cbv zeta.
  destruct (store_up env).
  2:{ cbn [fst snd trace store add_event set_clients_made]. rewrite <- !app_assoc.
      split; [reflexivity |]. eexists (_ :: _ :: nil). repeat split. }
  destruct logger' as [[] |];
    cbn [fst snd trace store add_event set_clients_made]; rewrite <- !app_assoc;
    (split; [reflexivity |]).
  - eexists (_ :: _ :: _ :: _ :: nil). repeat split.
  - eexists (_ :: _ :: _ :: nil). repeat split.
Qed.

End Skip.

(** The call [preprocess_data_to_milvus()] on the demo store with both
    collections. *)
Lemma skip_with_default_logger_raises_witness :
  eval (Preprocess.preprocess_data_to_milvus Demo.env None) Demo.indexed
  = Raise (AttributeError "'NoneType' object has no attribute 'info'").
Proof.
  apply (skip_with_default_logger_raises Demo.env Demo.indexed
           {| dimension := 3; rows := [] |} {| dimension := 2; rows := [] |});
    reflexivity.
Defined.

(** On the demo store with both collections: four events, no insert. *)
Lemma ingestion_skips_when_both_collections_exist_witness :
  eval (Preprocess.preprocess_data_to_milvus Demo.env (Some tt)) Demo.indexed = Ret tt
  /\ insert_calls (trace (exec (Preprocess.preprocess_data_to_milvus Demo.env (Some tt))
                            Demo.indexed)) = []
  /\ length (trace (exec (Preprocess.preprocess_data_to_milvus Demo.env (Some tt))
                      Demo.indexed)) = 4%nat.
Proof.
  destruct (ingestion_skips_when_both_collections_exist Demo.env (Some tt) Demo.indexed
              {| dimension := 3; rows := [] |} {| dimension := 2; rows := [] |}
              eq_refl eq_refl)
    as (_ & _ & _ & evs & Htrace & Hins & _ & Hfull).
  destruct (Hfull eq_refl eq_refl eq_refl) as [Hret Hevs].
  split; [exact Hret |]. rewrite Htrace. simpl. split; [exact Hins |].
  rewrite Hevs. reflexivity.
Defined.

(** ** Metadata extraction inside a flush *)

Section MetadataInFlush.
Import Preprocess.
Context (env : Env).

Lemma get_all_metadata_returns (p : string) :
  Metadata.get_all_metadata env p = Ret (metadata_of env p).
Proof.
  unfold metadata_of, Metadata.get_all_metadata.
  destruct (Metadata.get_all_metadata_try env (abspath env p)) as [s | e];
    [reflexivity | destruct e; reflexivity].
Qed.

Lemma get_all_metadata_failure (p : string) (e : exn) :
  path_exists env (abspath env p) = true ->
  exiftool_get_metadata env (abspath env p) = Raise e ->
  metadata_of env p
  = match e with
    | ExifToolExecuteError _ =>
        "Error: ExifTool failed to execute. Ensure ExifTool is installed and in PATH."
        +:+ nl +:+ "Details: " +:+ str_exn e
    | _ => "Error extracting metadata for '" +:+ abspath env p +:+ "': " +:+ str_exn e
    end.
Proof.
  intros Hexists Hexif.
  unfold metadata_of, Metadata.get_all_metadata, Metadata.get_all_metadata_try.
  rewrite Hexists, Hexif. simpl. destruct e; reflexivity.
Qed.

Lemma txt_rows_run (l : list (Vec * string * string)) (w : World) :
  txt_rows env (txt_vector (txt_batch_of l)) (txt_path (txt_batch_of l))
    (txt_content (txt_batch_of l)) w
  = (Ret (map (txt_row env) l), w).
Proof.
  induction l as [| [[v p] c] l IH]; [reflexivity |].
  simpl in *. unfold bind at 1. unfold lift. rewrite get_all_metadata_returns.
  unfold bind at 1. rewrite IH. reflexivity.
Qed.

Lemma img_rows_run (l : list (Vec * string)) (w : World) :
  img_rows env (map fst l) (map snd l) w = (Ret (map (img_row env) l), w).
Proof.
  induction l as [| [v p] l IH]; [reflexivity |].
  simpl in *. unfold bind at 1. unfold lift. rewrite get_all_metadata_returns.
  unfold bind at 1. rewrite IH. reflexivity.
Qed.

Lemma insert_trace (client : Client) (name : string) (data : list Row) (w : World) :
  trace (exec (Store.insert env client name data) w)
  = trace w ++ [EvInsert client name data].
Proof.
  unfold exec, Store.insert, Store.reach, Store.the_collection. munfold. simpl.
  destruct (store_up env); simpl; [| reflexivity].
  destruct (store w !! name) as [col |]; simpl; [| reflexivity].
  destruct (find _ data); reflexivity.
Qed.

(** C4, as the code has it.  [get_all_metadata] never raises: an
    exception of ExifTool is caught inside it and becomes the returned
    text (one of two error messages); nothing is logged.  A flush
    therefore makes a record for every file of the batch, also for a file
    whose metadata extraction failed, with that text as its [metadata],
    and sends them all in one [insert]. *)
Theorem metadata_failure_is_stored_not_skipped :
  (forall p, exists s, Metadata.get_all_metadata env p = Ret s)
  /\ (forall p e,
        path_exists env (abspath env p) = true ->
        exiftool_get_metadata env (abspath env p) = Raise e ->
        Metadata.get_all_metadata env p
        = Ret match e with
              | ExifToolExecuteError _ =>
                  "Error: ExifTool failed to execute. Ensure ExifTool is installed and in PATH."
                  +:+ nl +:+ "Details: " +:+ str_exn e
              | _ => "Error extracting metadata for '" +:+ abspath env p +:+ "': "
                     +:+ str_exn e
              end)
  /\ (forall client (l : list (Vec * string * string)) w,
        l <> [] ->
        exists data,
          trace (exec (flush_txt env client (txt_batch_of l)) w)
          = trace w ++ [EvInsert client (TEXT_COLL env) data]
          /\ map path data = map (fun e => snd (fst e)) l
          /\ map metadata data = map (fun e => metadata_of env (snd (fst e))) l)
  /\ (forall client (l : list (Vec * string)) w,
        l <> [] ->
        exists data,
          trace (exec (flush_img env client
                         {| img_vector := map fst l; img_path := map snd l |}) w)
          = trace w ++ [EvInsert client (IMAGE_COLL env) data]
          /\ map path data = map snd l
          /\ map metadata data = map (fun e => metadata_of env (snd e)) l).
Proof.
  split; [intros p; eexists; apply get_all_metadata_returns |].
  split; [| split].
  - intros p e Hexists Hexif. rewrite get_all_metadata_returns.
    now rewrite (get_all_metadata_failure p e Hexists Hexif).
  - intros client l w Hne. exists (map (txt_row env) l).
    split; [| split].
    + unfold flush_txt.
      destruct (txt_vector (txt_batch_of l)) eqn:Hvec.
      { destruct l; [contradiction | discriminate]. }
      rewrite <- Hvec. clear Hvec.
      unfold exec, bind at 1. rewrite txt_rows_run.
      pose proof (insert_trace client (TEXT_COLL env) (map (txt_row env) l) w) as Hins.
      unfold exec in Hins. unfold bind at 1.
      destruct (Store.insert env client (TEXT_COLL env) (map (txt_row env) l) w)
        as [[[] | e] w']; exact Hins.
    + rewrite map_map. reflexivity.
    + rewrite map_map. reflexivity.
  - intros client l w Hne. exists (map (img_row env) l).
    split; [| split].
    + unfold flush_img. cbn [img_vector img_path].
      destruct (map fst l) eqn:Hvec.
      { destruct l; [contradiction | discriminate]. }
      rewrite <- Hvec. clear Hvec.
      unfold exec, bind at 1. rewrite img_rows_run.
      pose proof (insert_trace client (IMAGE_COLL env) (map (img_row env) l) w) as Hins.
      unfold exec in Hins. unfold bind at 1.
      destruct (Store.insert env client (IMAGE_COLL env) (map (img_row env) l) w)
        as [[[] | e] w']; exact Hins.
    + rewrite map_map. reflexivity.
    + rewrite map_map. reflexivity.
Qed.

End MetadataInFlush.

(** In the demo tree with a failing ExifTool the one text file gets a
    record all the same. *)
Lemma metadata_failure_is_stored_not_skipped_witness :
  Metadata.get_all_metadata Demo.broken_env "note0.txt"
  = Ret "Error extracting metadata for '/work/note0.txt': exiftool died".
Proof.
  exact (proj1 (proj2 (metadata_failure_is_stored_not_skipped Demo.broken_env))
           "note0.txt" (RuntimeError "exiftool died") eq_refl eq_refl).
Defined.

(** C4 as stated fails.  ExifTool raises on the only file of the tree; the
    run returns normally, nothing is logged as an error, and the text
    collection holds a record for that file, with the error text as its
    metadata. *)
Lemma metadata_failure_does_not_skip_the_file :
  let run := Preprocess.preprocess_data_to_milvus Demo.broken_env (Some tt) in
  exiftool_get_metadata Demo.broken_env (abspath Demo.broken_env "note0.txt")
  = Raise (RuntimeError "exiftool died")
  /\ eval run Demo.fresh = Ret tt
  /\ List.filter is_error_log (trace (exec run Demo.fresh)) = []
  /\ (map (fun r => (path r, metadata r))
        <$> (rows <$> store (exec run Demo.fresh) !! "case1__attachments_text"))
     = Some [("note0.txt", "Error extracting metadata for '/work/note0.txt': exiftool died")].
Proof. cbv zeta. repeat split; vm_compute; reflexivity. Qed.

(** ** Draining the batches *)

Section Drain.
Import Embeddings Preprocess.
Context (env : Env) (tm : TextModel) (client : Client).

Lemma insert_calls_app (t1 t2 : list Event) :
  insert_calls (t1 ++ t2) = insert_calls t1 ++ insert_calls t2.
Proof. unfold insert_calls. apply flat_map_app. Qed.

#[local] Instance quiet_step_preorder : PreOrder quiet_step.
Proof.
  split.
  - intros w. repeat split. exists []. now rewrite app_nil_r.
  - intros w1 w2 w3 (Hs1 & Ht1 & evs1 & Htr1 & Hi1) (Hs2 & Ht2 & evs2 & Htr2 & Hi2).
    split; [congruence |]. split; [congruence |].
    exists (evs1 ++ evs2). split.
    + rewrite Htr2, Htr1. now rewrite <- app_assoc.
    + rewrite insert_calls_app, Hi1, Hi2. reflexivity.
Qed.

Lemma quiet_add_event (ev : Event) (w : World) :
  insert_calls [ev] = [] -> quiet_step w (add_event ev w).
Proof. intros H. repeat split. exists [ev]. split; [reflexivity | exact H]. Qed.

Lemma txt_batch_of_app (l : list (Vec * string * string)) (e : Vec * string * string) :
  txt_batch_of (l ++ [e])
  = {| txt_vector := txt_vector (txt_batch_of l) ++ [fst (fst e)];
       txt_path := txt_path (txt_batch_of l) ++ [snd (fst e)];
       txt_content := txt_content (txt_batch_of l) ++ [snd e] |}.
Proof. unfold txt_batch_of. simpl. now rewrite !map_app. Qed.

(** One file that is no image file, once the text model is loaded. *)
Lemma process_file_no_image (p : Path) (ib : ImgBatch)
    (l : list (Vec * string * string)) (w : World) :
  image_file p = false ->
  text_model w = Some tm ->
  exists w',
    process_file env (Some tt) p (ib, txt_batch_of l) w
    = (Ret (ib, txt_batch_of (l ++ option_list (text_entry env tm p))), w')
    /\ quiet_step w w'.
Proof.
  intros Himage Hmodel.
  unfold process_file, process_file_try, text_entry. cbv zeta.
  unfold image_file in Himage. rewrite Himage.
  destruct (str_mem (str_lower (suffix p)) TEXT_SUFFIXES).
  2:{ exists w. simpl. rewrite app_nil_r. split; reflexivity. }
  unfold try_except, bind at 1, lift.
  destruct (read_text env (str p)) as [full_text | e].
  2:{ eexists. simpl. rewrite app_nil_r. split; [reflexivity |].
      now apply quiet_add_event. }
  unfold text2vector, get_text_model. munfold. rewrite Hmodel. cbn [fst snd].
  destruct (encode tm (str_take 500 (str_take 500 full_text))) as [vec | e].
  - eexists. split.
    + change (option_list (Some ?x)) with [x]. rewrite txt_batch_of_app. reflexivity.
    + now apply quiet_add_event.
  - eexists. simpl. rewrite app_nil_r. split; [reflexivity |].
    etransitivity; apply quiet_add_event; reflexivity.
Qed.

Lemma find_unfit_None (col : Collection) (l : list (Vec * string * string)) :
  dimension col = get_sentence_embedding_dimension tm ->
  Forall (entry_fits tm) l ->
  find (fun r => negb (Store.fits col (vector r))) (map (txt_row env) l) = None.
Proof.
  intros Hdim Hfit. induction Hfit as [| e l He Hl IH]; [reflexivity |].
  simpl. unfold Store.fits at 1. unfold entry_fits in He. rewrite He, Hdim.
  rewrite Z.eqb_refl. exact IH.
Qed.

(** A flush of a batch that is not empty, into a collection that is
    there. *)
Lemma flush_txt_run (l : list (Vec * string * string)) (col : Collection) (w : World) :
  l <> [] ->
  store_up env = true ->
  store w !! TEXT_COLL env = Some col ->
  dimension col = get_sentence_embedding_dimension tm ->
  Forall (entry_fits tm) l ->
  flush_txt env client (txt_batch_of l) w
  = (Ret txt_empty,
     set_store <[TEXT_COLL env := {| dimension := dimension col;
                                      rows := rows col ++ map (txt_row env) l |}]>
       (add_event (EvInsert client (TEXT_COLL env) (map (txt_row env) l)) w)).
Proof.
  intros Hne Hup Hcol Hdim Hfit. unfold flush_txt.
  destruct (txt_vector (txt_batch_of l)) eqn:Hvec.
  { destruct l; [contradiction | discriminate]. }
  rewrite <- Hvec. clear Hvec.
  unfold bind at 1. rewrite txt_rows_run.
  unfold Store.insert, Store.reach, Store.the_collection. munfold.
  rewrite Hup. cbn [store add_event fst snd]. rewrite Hcol.
  rewrite (find_unfit_None col l Hdim Hfit). reflexivity.
Qed.

Lemma text_entry_fits (p : Path) (e : Vec * string * string) :
  text_model_sound env tm -> text_entry env tm p = Some e -> entry_fits tm e.
Proof.
  intros Hsound. unfold text_entry. cbv zeta.
  destruct (str_mem _ TEXT_SUFFIXES); [| discriminate].
  destruct (read_text env (str p)) as [full_text |]; [| discriminate].
  destruct (encode tm _) as [vec |] eqn:Henc; [| discriminate].
  intros H. inversion H; subst. unfold entry_fits. simpl.
  exact (Hsound _ _ Henc).
Qed.



(** [get_embedding_dimensions] looks at the loaded models only. *)
Lemma get_embedding_dimensions_frame (w w2 : World) :
  same_models w w2 ->
  eval (get_embedding_dimensions env) w2 = eval (get_embedding_dimensions env) w
  /\ text_model (exec (get_embedding_dimensions env) w2)
     = text_model (exec (get_embedding_dimensions env) w).
Proof.
  destruct w as [s c mc tmo imo ipo ito t], w2 as [s2 c2 mc2 tmo2 imo2 ipo2 ito2 t2].
  unfold same_models. simpl. intros (-> & -> & -> & ->).
  unfold get_embedding_dimensions, get_text_model, get_image_model, call_processor,
    call_get_image_features.
  munfold. simpl.
  destruct tmo as [m |]; simpl.
  2: destruct (SentenceTransformer env _) as [m |]; simpl; [| split; reflexivity].
  2: destruct (text_model_to_device env m) as [[] |]; simpl; [| split; reflexivity].
  all: destruct imo as [im |]; simpl.
  all: repeat match goal with
         | |- context [match AutoProcessor_from_pretrained env ?n with _ => _ end] =>
             destruct (AutoProcessor_from_pretrained env n); simpl
         | |- context [match AutoTokenizer_from_pretrained env ?n with _ => _ end] =>
             destruct (AutoTokenizer_from_pretrained env n); simpl
         | |- context [match AutoModel_from_pretrained env ?n with _ => _ end] =>
             destruct (AutoModel_from_pretrained env n); simpl
         end.
  all: try (split; reflexivity).
  all: try (destruct ipo as [pr |]; simpl; [| split; reflexivity]).
  all: match goal with
       | |- context [match ?pr (dummy_image env) with _ => _ end] =>
           destruct (pr (dummy_image env)); simpl; [| split; reflexivity]
       end.
  all: match goal with
       | |- context [match get_image_features ?m ?i with _ => _ end] =>
           destruct (get_image_features m i); simpl; split; reflexivity
       end.
Qed.

Lemma no_mutation_insert_calls (evs : list Event) :
  forallb no_mutation evs = true -> insert_calls evs = [].
Proof.
  induction evs as [| ev evs IH]; [reflexivity |].
  simpl. intros H. apply andb_prop in H as [Hev Hevs].
  rewrite (IH Hevs). destruct ev; try reflexivity; discriminate.
Qed.

Lemma get_embedding_dimensions_calm :
  preserves (both (grows no_mutation) (keeps store)) (get_embedding_dimensions env).
Proof.
  unfold get_embedding_dimensions, get_text_model, get_image_model, call_processor,
    call_get_image_features.
  preserves_auto leaf_rel.
Qed.

Lemma get_text_model_Ret (w w1 : World) (m : TextModel) :
  get_text_model env w = (Ret m, w1) -> text_model w1 = Some m.
Proof.
  unfold get_text_model. munfold.
  destruct (text_model w) as [m0 |] eqn:Hcur; simpl.
  - intros H. inversion H; subst. exact Hcur.
  - destruct (SentenceTransformer env _) as [m0 |]; simpl; [| intros H; inversion H].
    destruct (text_model_to_device env m0) as [[] |]; simpl; intros H; inversion H; subst.
    reflexivity.
Qed.

Lemma get_embedding_dimensions_Ret (w w3 : World) (dim_text dim_image : Z) :
  get_embedding_dimensions env w = (Ret (dim_text, dim_image), w3) ->
  exists m, text_model w3 = Some m /\ dim_text = get_sentence_embedding_dimension m.
Proof.
  unfold get_embedding_dimensions. unfold bind at 1.
  destruct (get_text_model env w) as [[m | e] w1] eqn:Hm; [| discriminate].
  apply get_text_model_Ret in Hm.
  intros Hrun. exists m.
  set (rest := bind (get_image_model env) _) in *.
  assert (Hkeep : preserves (keeps text_model) rest).
  { subst rest. unfold get_image_model, call_processor, call_get_image_features.
    preserves_auto leaf_rel. }
  specialize (Hkeep w1). unfold keeps, exec in Hkeep. rewrite Hrun in Hkeep.
  split; [simpl in Hkeep; congruence |].
  subst rest. revert Hrun. clear.
  unfold bind at 1.
  destruct (get_image_model env w1) as [[[[model processor] tokenizer] | e] w2];
    [| discriminate].
  unfold bind at 1.
  destruct (call_processor processor (dummy_image env) w2) as [[inputs | e] w4];
    [| discriminate].
  unfold bind at 1.
  destruct (call_get_image_features model inputs w4) as [[feats | e] w5];
    [| discriminate].
  unfold ret. intros H. now inversion H.
Qed.

Lemma create_collection_run (name : string) (dim : Z) (w : World) :
  store_up env = true ->
  store w !! name = None ->
  create_collection env client name dim (Some tt) w
  = (Ret tt,
     set_store <[name := {| dimension := dim; rows := [] |}]>
       (add_event (EvCreateCollection client name dim)
          (add_event (EvLog "info" ("Creating collection " +:+ name)) w))).
Proof.
  intros Hup Hnone. unfold create_collection, Store.create_collection, Store.reach.
  munfold. rewrite Hup. cbn [store add_event fst snd]. rewrite Hnone. reflexivity.
Qed.

Lemma flush_run (name : string) (col : Collection) (w : World) :
  store_up env = true ->
  store w !! name = Some col ->
  Store.flush env client name w = (Ret tt, add_event (EvFlush client name) w).
Proof.
  intros Hup Hcol. unfold Store.flush, Store.reach, Store.the_collection.
  munfold. rewrite Hup. cbn [store add_event fst snd]. rewrite Hcol. reflexivity.
Qed.

Lemma row_count_run (name : string) (col : Collection) (w : World) :
  store_up env = true ->
  store w !! name = Some col ->
  Store.row_count env client name w
  = (Ret (Z.of_nat (length (rows col))), add_event (EvStats client name) w).
Proof.
  intros Hup Hcol. unfold Store.row_count, Store.reach, Store.the_collection.
  munfold. rewrite Hup. cbn [store add_event fst snd]. rewrite Hcol. reflexivity.
Qed.

Lemma collections_differ : IMAGE_COLL env <> TEXT_COLL env.
Proof.
  unfold IMAGE_COLL, TEXT_COLL. intros H.
  apply (inj (String.append (case_name env))) in H. discriminate.
Qed.


End Drain.

(** ** 137 text files, batches of 100 *)

Section BatchDrain.
Import Embeddings Preprocess.
Context (env : Env).




End BatchDrain.


(** * Further properties of the code *)

(** ** Ingestion of a tree with images and texts *)

Section Ingest.
Import Embeddings Preprocess.
Context (env : Env) (tm : TextModel) (m : ImageModel) (pr : Processor) (client : Client).

#[local] Instance still_preorder : PreOrder still.
Proof.
  split.
  - intros w. repeat split. exists []. now rewrite app_nil_r.
  - intros w1 w2 w3 (Hs1 & Ht1 & Hm1 & Hp1 & evs1 & Htr1 & Hi1)
      (Hs2 & Ht2 & Hm2 & Hp2 & evs2 & Htr2 & Hi2).
    split; [congruence |]. split; [congruence |]. split; [congruence |].
    split; [congruence |].
    exists (evs1 ++ evs2). split.
    + rewrite Htr2, Htr1. now rewrite <- app_assoc.
    + rewrite insert_calls_app, Hi1, Hi2. reflexivity.
Qed.

Lemma still_add_event (ev : Event) (w : World) :
  insert_calls [ev] = [] -> still w (add_event ev w).
Proof. intros H. repeat split. exists [ev]. split; [reflexivity | exact H]. Qed.

Lemma img_batch_of_app (l : list (Vec * string)) (e : Vec * string) :
  img_batch_of (l ++ [e])
  = {| img_vector := img_vector (img_batch_of l) ++ [fst e];
       img_path := img_path (img_batch_of l) ++ [snd e] |}.
Proof. unfold img_batch_of. simpl. now rewrite !map_app. Qed.

Lemma image_suffix_not_text (x : string) :
  str_mem x IMAGE_SUFFIXES = true -> str_mem x TEXT_SUFFIXES = false.
Proof.
  intros H. apply str_mem_cases in H. simpl in H.
  destruct H as [<- | [<- | [<- | []]]]; reflexivity.
Qed.

Lemma get_image_model_loaded (w : World) :
  image_model w = Some m ->
  get_image_model env w = (Ret (Some m, image_processor w, image_tokenizer w), w).
Proof.
  intros H. unfold get_image_model. munfold. rewrite H. simpl. now rewrite H.
Qed.

(** One file, once the models are loaded. *)
Lemma process_file_loaded (p : Path) (li : list (Vec * string))
    (lt : list (Vec * string * string)) (w : World) :
  text_model w = Some tm ->
  image_model w = Some m ->
  image_processor w = Some pr ->
  exists w',
    process_file env (Some tt) p (img_batch_of li, txt_batch_of lt) w
    = (Ret (img_batch_of (li ++ option_list (image_entry env m pr p)),
            txt_batch_of (lt ++ option_list (text_entry env tm p))), w')
    /\ still w w'.
Proof.
  intros Htm Him Hpr.
  destruct (image_file p) eqn:Himage.
  - (* an image file *)
    assert (Htext : text_entry env tm p = None).
    { unfold text_entry. unfold image_file in Himage.
      now rewrite (image_suffix_not_text _ Himage). }
    rewrite Htext. simpl option_list. rewrite app_nil_r.
    unfold process_file, process_file_try, image_entry. rewrite Himage.
    unfold image_file in Himage. rewrite Himage.
    unfold try_except, bind at 1. unfold image2vector. unfold bind at 1.
    rewrite (get_image_model_loaded w Him), Hpr. cbv beta iota.
    unfold try_except, bind at 1, lift.
    destruct (Image_open_RGB env (str p)) as [img | e].
    2:{ exists w. simpl. rewrite app_nil_r. split; reflexivity. }
    cbn [andb].
    destruct (is_icon img None).
    { exists w. simpl. rewrite app_nil_r. split; reflexivity. }
    unfold call_processor, call_get_image_features. munfold. cbn [fst snd].
    destruct (pr img) as [inputs | e].
    2:{ exists w. simpl. rewrite app_nil_r. split; reflexivity. }
    destruct (get_image_features m inputs) as [vec | e].
    2:{ eexists. simpl. rewrite app_nil_r. split; [reflexivity |].
        now apply still_add_event. }
    destruct (normalize env (astype_float32 env vec)) as [v | e].
    2:{ eexists. simpl. rewrite app_nil_r. split; [reflexivity |].
        now apply still_add_event. }
    eexists. split.
    + change (option_list (Some ?x)) with [x]. rewrite img_batch_of_app. reflexivity.
    + now apply still_add_event.
  - (* no image file *)
    assert (Hentry : image_entry env m pr p = None).
    { unfold image_entry. now rewrite Himage. }
    rewrite Hentry. simpl option_list. rewrite app_nil_r.
    destruct (process_file_no_image env tm p (img_batch_of li) lt w Himage Htm)
      as (w' & Hrun & Hs & Ht & evs & Htr & Hi).
    exists w'. split; [exact Hrun |].
    split; [exact Hs |]. split; [exact Ht |].
    (* the image model is not touched by a text file *)
    assert (Hkeep : preserves (both (keeps image_model) (keeps image_processor))
                      (process_file env (Some tt) p (img_batch_of li, txt_batch_of lt))).
    { unfold process_file, process_file_try. unfold image_file in Himage. rewrite Himage.
      unfold text2vector, get_text_model. preserves_auto leaf_rel. }
    destruct (Hkeep w) as [Hm' Hp']. unfold keeps, exec in Hm', Hp'.
    rewrite Hrun in Hm', Hp'. simpl in Hm', Hp'.
    split; [exact Hm' |]. split; [exact Hp' |]. eauto.
Qed.

Lemma calls_on_app (name : string) (l1 l2 : list (string * list Row)) :
  calls_on name (l1 ++ l2) = calls_on name l1 ++ calls_on name l2.
Proof. unfold calls_on. apply flat_map_app. Qed.

Lemma calls_on_same {A} (name : string) (f : A -> list Row) (l : list A) :
  calls_on name (map (fun x => (name, f x)) l) = map f l.
Proof.
  induction l as [| x l IH]; [reflexivity |].
  simpl. rewrite String.eqb_refl. simpl. now rewrite IH.
Qed.

Lemma calls_on_other {A} (name other : string) (f : A -> list Row) (l : list A) :
  other <> name -> calls_on name (map (fun x => (other, f x)) l) = [].
Proof.
  intros Hne. induction l as [| x l IH]; [reflexivity |].
  simpl. destruct (String.eqb_spec other name) as [Heq | _]; [contradiction | exact IH].
Qed.

Lemma find_unfit_None_img (col : Collection) (l : list (Vec * string)) :
  Forall (img_entry_fits (dimension col)) l ->
  find (fun r => negb (Store.fits col (vector r))) (map (img_row env) l) = None.
Proof.
  intros Hfit. induction Hfit as [| e l He Hl IH]; [reflexivity |].
  simpl. unfold Store.fits at 1. unfold img_entry_fits in He. simpl. rewrite He.
  rewrite Z.eqb_refl. exact IH.
Qed.

Lemma flush_img_run (l : list (Vec * string)) (col : Collection) (w : World) :
  l <> [] ->
  store_up env = true ->
  store w !! IMAGE_COLL env = Some col ->
  Forall (img_entry_fits (dimension col)) l ->
  flush_img env client (img_batch_of l) w
  = (Ret img_empty,
     set_store <[IMAGE_COLL env := {| dimension := dimension col;
                                       rows := rows col ++ map (img_row env) l |}]>
       (add_event (EvInsert client (IMAGE_COLL env) (map (img_row env) l)) w)).
Proof.
  intros Hne Hup Hcol Hfit. unfold flush_img.
  destruct (img_vector (img_batch_of l)) eqn:Hvec.
  { destruct l; [contradiction | discriminate]. }
  rewrite <- Hvec. clear Hvec.
  unfold bind at 1. unfold img_batch_of. cbn [img_vector img_path].
  rewrite img_rows_run.
  unfold Store.insert, Store.reach, Store.the_collection. munfold.
  rewrite Hup. cbn [store add_event fst snd]. rewrite Hcol.
  rewrite (find_unfit_None_img col l Hfit). reflexivity.
Qed.

Lemma step_split {A} (l : list A) : l = concat (step_chunks l) ++ step_rest l.
Proof.
  unfold step_chunks, step_rest. destruct (BATCH_SIZE <=? length l)%nat; simpl;
    now rewrite ?app_nil_r.
Qed.

Lemma step_chunks_full {A} (l : list A) :
  (length l <= BATCH_SIZE)%nat -> Forall (fun ch => length ch = BATCH_SIZE) (step_chunks l).
Proof.
  intros Hle. unfold step_chunks.
  destruct (Nat.leb_spec BATCH_SIZE (length l)); constructor; [lia | constructor].
Qed.

Lemma step_rest_short {A} (l : list A) : (length (step_rest l) < BATCH_SIZE)%nat.
Proof.
  unfold step_rest. destruct (Nat.leb_spec BATCH_SIZE (length l)); [| assumption].
  unfold BATCH_SIZE. simpl. lia.
Qed.

Lemma step_rest_Forall {A} (P : A -> Prop) (l : list A) :
  Forall P l -> Forall P (step_rest l).
Proof. intros H. unfold step_rest. destruct (BATCH_SIZE <=? length l)%nat; auto. Qed.

Lemma insert_same_rows (col : Collection) (s : gmap string Collection) (name : string) :
  s !! name = Some col ->
  <[name := {| dimension := dimension col; rows := rows col ++ [] |}]> s = s.
Proof. intros H. rewrite app_nil_r. apply insert_id. rewrite H. now destruct col. Qed.

(** The image batch after a file. *)
Lemma img_step (li : list (Vec * string)) (ci : Collection) (w : World) :
  store_up env = true ->
  store w !! IMAGE_COLL env = Some ci ->
  Forall (img_entry_fits (dimension ci)) li ->
  exists w',
    (if (BATCH_SIZE <=? length (img_vector (img_batch_of li)))%nat
     then flush_img env client (img_batch_of li) else ret (img_batch_of li)) w
    = (Ret (img_batch_of (step_rest li)), w')
    /\ store w'
       = <[IMAGE_COLL env := {| dimension := dimension ci;
                                rows := rows ci
                                        ++ map (img_row env) (concat (step_chunks li)) |}]>
           (store w)
    /\ text_model w' = text_model w /\ image_model w' = image_model w
    /\ image_processor w' = image_processor w
    /\ exists evs,
        trace w' = trace w ++ evs
        /\ insert_calls evs
           = map (fun ch => (IMAGE_COLL env, map (img_row env) ch)) (step_chunks li).
Proof.
  intros Hup Hcol Hfit.
  replace (length (img_vector (img_batch_of li))) with (length li)
    by (unfold img_batch_of; simpl; now rewrite length_map).
  unfold step_rest, step_chunks.
  destruct (Nat.leb_spec BATCH_SIZE (length li)) as [Hfull | Hshort].
  - assert (Hne : li <> []).
    { intros ->. unfold BATCH_SIZE in Hfull. simpl in Hfull. lia. }
    rewrite (flush_img_run li ci w Hne Hup Hcol Hfit).
    eexists. split; [reflexivity |]. cbn [store set_store add_event concat].
    rewrite app_nil_r. do 4 (split; [reflexivity |]).
    exists [EvInsert client (IMAGE_COLL env) (map (img_row env) li)]. split; reflexivity.
  - exists w. split; [reflexivity |]. cbn [concat map].
    rewrite (insert_same_rows ci _ _ Hcol). do 4 (split; [reflexivity |]).
    exists []. now rewrite app_nil_r.
Qed.

(** The text batch after a file. *)
Lemma txt_step (lt : list (Vec * string * string)) (ct : Collection) (w : World) :
  store_up env = true ->
  store w !! TEXT_COLL env = Some ct ->
  dimension ct = get_sentence_embedding_dimension tm ->
  Forall (entry_fits tm) lt ->
  exists w',
    (if (BATCH_SIZE <=? length (txt_vector (txt_batch_of lt)))%nat
     then flush_txt env client (txt_batch_of lt) else ret (txt_batch_of lt)) w
    = (Ret (txt_batch_of (step_rest lt)), w')
    /\ store w'
       = <[TEXT_COLL env := {| dimension := dimension ct;
                               rows := rows ct
                                       ++ map (txt_row env) (concat (step_chunks lt)) |}]>
           (store w)
    /\ text_model w' = text_model w /\ image_model w' = image_model w
    /\ image_processor w' = image_processor w
    /\ exists evs,
        trace w' = trace w ++ evs
        /\ insert_calls evs
           = map (fun ch => (TEXT_COLL env, map (txt_row env) ch)) (step_chunks lt).
Proof.
  intros Hup Hcol Hdim Hfit.
  replace (length (txt_vector (txt_batch_of lt))) with (length lt)
    by (unfold txt_batch_of; simpl; now rewrite length_map).
  unfold step_rest, step_chunks.
  destruct (Nat.leb_spec BATCH_SIZE (length lt)) as [Hfull | Hshort].
  - assert (Hne : lt <> []).
    { intros ->. unfold BATCH_SIZE in Hfull. simpl in Hfull. lia. }
    rewrite (flush_txt_run env tm client lt ct w Hne Hup Hcol Hdim Hfit).
    eexists. split; [reflexivity |]. cbn [store set_store add_event concat].
    rewrite app_nil_r. do 4 (split; [reflexivity |]).
    exists [EvInsert client (TEXT_COLL env) (map (txt_row env) lt)]. split; reflexivity.
  - exists w. split; [reflexivity |]. cbn [concat map].
    rewrite (insert_same_rows ct _ _ Hcol). do 4 (split; [reflexivity |]).
    exists []. now rewrite app_nil_r.
Qed.

Lemma image_entry_fits (dim : Z) (p : Path) (e : Vec * string) :
  image_model_sound env m pr dim -> image_entry env m pr p = Some e -> img_entry_fits dim e.
Proof.
  intros Hsound. unfold image_entry.
  destruct (image_file p); [| discriminate].
  destruct (Image_open_RGB env (str p)) as [img |]; [| discriminate].
  destruct (is_icon img None); [discriminate |].
  destruct (pr img) as [inputs |] eqn:Hpr; [| discriminate].
  destruct (get_image_features m inputs) as [vec |] eqn:Hvec; [| discriminate].
  destruct (normalize env (astype_float32 env vec)) as [v |] eqn:Hv; [| discriminate].
  intros H. inversion H; subst. unfold img_entry_fits. simpl.
  exact (Hsound _ _ _ _ Hpr Hvec Hv).
Qed.

Lemma omap_cons_app {A B} (f : A -> option B) (x : A) (l : list A) :
  omap f (x :: l) = option_list (f x) ++ omap f l.
Proof. simpl. destruct (f x); reflexivity. Qed.

Lemma Forall_full_map {A} (name : string) (f : A -> Row) (chunks : list (list A)) :
  name = IMAGE_COLL env \/ name = TEXT_COLL env ->
  Forall (fun ch => length ch = BATCH_SIZE) chunks ->
  Forall (full_insert env) (map (fun ch => (name, map f ch)) chunks).
Proof.
  intros Hname Hall. induction Hall as [| ch chunks Hch _ IH]; constructor; [| exact IH].
  split; [exact Hname |]. simpl. now rewrite length_map.
Qed.

(** The walk, once the models are loaded and both collections are there:
    the entries of either kind leave in batches of [BATCH_SIZE], in the
    order of the walk; what is left stays in the two batches. *)
Lemma walk_loaded (dim_image : Z) (files : list Path) :
  store_up env = true ->
  text_model_sound env tm ->
  image_model_sound env m pr dim_image ->
  forall (li : list (Vec * string)) (lt : list (Vec * string * string))
         (ci ct : Collection) (w : World),
    text_model w = Some tm -> image_model w = Some m -> image_processor w = Some pr ->
    store w !! IMAGE_COLL env = Some ci -> store w !! TEXT_COLL env = Some ct ->
    dimension ci = dim_image -> dimension ct = get_sentence_embedding_dimension tm ->
    (length li < BATCH_SIZE)%nat -> (length lt < BATCH_SIZE)%nat ->
    Forall (img_entry_fits dim_image) li -> Forall (entry_fits tm) lt ->
    exists ichunks ri tchunks rt w',
      walk env client (Some tt) files (img_batch_of li, txt_batch_of lt) w
      = (Ret (img_batch_of ri, txt_batch_of rt), w')
      /\ li ++ omap (image_entry env m pr) files = concat ichunks ++ ri
      /\ lt ++ omap (text_entry env tm) files = concat tchunks ++ rt
      /\ Forall (fun ch => length ch = BATCH_SIZE) ichunks
      /\ Forall (fun ch => length ch = BATCH_SIZE) tchunks
      /\ (length ri < BATCH_SIZE)%nat /\ (length rt < BATCH_SIZE)%nat
      /\ Forall (img_entry_fits dim_image) ri /\ Forall (entry_fits tm) rt
      /\ text_model w' = Some tm /\ image_model w' = Some m /\ image_processor w' = Some pr
      /\ store w' !! IMAGE_COLL env
         = Some {| dimension := dimension ci;
                   rows := rows ci ++ map (img_row env) (concat ichunks) |}
      /\ store w' !! TEXT_COLL env
         = Some {| dimension := dimension ct;
                   rows := rows ct ++ map (txt_row env) (concat tchunks) |}
      /\ exists evs,
          trace w' = trace w ++ evs
          /\ calls_on (IMAGE_COLL env) (insert_calls evs) = map (map (img_row env)) ichunks
          /\ calls_on (TEXT_COLL env) (insert_calls evs) = map (map (txt_row env)) tchunks
          /\ Forall (full_insert env) (insert_calls evs).
Proof.
  intros Hup Hsound_t Hsound_i.
  induction files as [| f files IH];
    intros li lt ci ct w Htm Him Hpr Hci Hct Hdi Hdt Hli Hlt Hfi Hft.
  - exists [], li, [], lt, w. simpl. rewrite !app_nil_r.
    split; [reflexivity |]. split; [reflexivity |]. split; [reflexivity |].
    split; [constructor |]. split; [constructor |].
    split; [exact Hli |]. split; [exact Hlt |]. split; [exact Hfi |]. split; [exact Hft |].
    split; [exact Htm |]. split; [exact Him |]. split; [exact Hpr |].
    split; [rewrite Hci; now destruct ci |]. split; [rewrite Hct; now destruct ct |].
    exists []. rewrite app_nil_r. repeat split. constructor.
  - destruct (process_file_loaded f li lt w Htm Him Hpr)
      as (w1 & Hrun1 & Hs1 & Ht1 & Hm1 & Hp1 & evs1 & Htr1 & Hi1).
    set (li1 := li ++ option_list (image_entry env m pr f)) in *.
    set (lt1 := lt ++ option_list (text_entry env tm f)) in *.
    assert (Hfi1 : Forall (img_entry_fits dim_image) li1).
    { subst li1. apply Forall_app. split; [exact Hfi |].
      destruct (image_entry env m pr f) as [e |] eqn:He; simpl; [| constructor].
      constructor; [| constructor]. eapply image_entry_fits; eassumption. }
    assert (Hft1 : Forall (entry_fits tm) lt1).
    { subst lt1. apply Forall_app. split; [exact Hft |].
      destruct (text_entry env tm f) as [e |] eqn:He; simpl; [| constructor].
      constructor; [| constructor]. eapply text_entry_fits; eassumption. }
    assert (Hli1 : (length li1 <= BATCH_SIZE)%nat).
    { subst li1. rewrite length_app. destruct (image_entry env m pr f); simpl; lia. }
    assert (Hlt1 : (length lt1 <= BATCH_SIZE)%nat).
    { subst lt1. rewrite length_app. destruct (text_entry env tm f); simpl; lia. }
    rewrite <- Hdi in Hfi1.
    destruct (img_step li1 ci w1 Hup) as (w2 & Hrun2 & Hs2 & Ht2 & Hm2 & Hp2 & evs2 & Htr2 & Hi2);
      [congruence | exact Hfi1 |].
    rewrite Hdi in Hfi1.
    set (ci2 := {| dimension := dimension ci;
                   rows := rows ci ++ map (img_row env) (concat (step_chunks li1)) |}) in *.
    assert (Hct2 : store w2 !! TEXT_COLL env = Some ct).
    { rewrite Hs2, lookup_insert_ne by apply collections_differ. congruence. }
    destruct (txt_step lt1 ct w2 Hup Hct2 Hdt Hft1)
      as (w3 & Hrun3 & Hs3 & Ht3 & Hm3 & Hp3 & evs3 & Htr3 & Hi3).
    set (ct2 := {| dimension := dimension ct;
                   rows := rows ct ++ map (txt_row env) (concat (step_chunks lt1)) |}) in *.
    destruct (IH (step_rest li1) (step_rest lt1) ci2 ct2 w3)
      as (ichunks & ri & tchunks & rt & w' & Hrun & Heqi & Heqt & Hchi & Hcht & Hri & Hrt
          & Hfri & Hfrt & Htm' & Him' & Hpr' & Hci' & Hct' & evs & Htr & Hci_calls
          & Hct_calls & Hfull); try congruence;
      try (unfold ci2, ct2; cbn [dimension]; congruence).
    { rewrite Hs3, lookup_insert_ne by (apply not_eq_sym, collections_differ).
      rewrite Hs2. apply lookup_insert_eq. }
    { rewrite Hs3. apply lookup_insert_eq. }
    { apply step_rest_short. }
    { apply step_rest_short. }
    { now apply step_rest_Forall. }
    { now apply step_rest_Forall. }
    exists (step_chunks li1 ++ ichunks), ri, (step_chunks lt1 ++ tchunks), rt, w'.
    split.
    { cbn [walk]. unfold bind at 1. rewrite Hrun1. cbv beta iota.
      unfold bind at 1. rewrite Hrun2. cbv beta iota.
      unfold bind at 1. rewrite Hrun3. cbv beta iota. exact Hrun. }
    split.
    { rewrite omap_cons_app, app_assoc. fold li1.
      rewrite (step_split li1) at 1. rewrite concat_app, <- !app_assoc. f_equal.
      exact Heqi. }
    split.
    { rewrite omap_cons_app, app_assoc. fold lt1.
      rewrite (step_split lt1) at 1. rewrite concat_app, <- !app_assoc. f_equal.
      exact Heqt. }
    split; [apply Forall_app; split; [now apply step_chunks_full | exact Hchi] |].
    split; [apply Forall_app; split; [now apply step_chunks_full | exact Hcht] |].
    split; [exact Hri |]. split; [exact Hrt |]. split; [exact Hfri |]. split; [exact Hfrt |].
    split; [exact Htm' |]. split; [exact Him' |]. split; [exact Hpr' |].
    split.
    { rewrite Hci'. subst ci2. cbn [dimension rows].
      rewrite concat_app, map_app, <- app_assoc. reflexivity. }
    split.
    { rewrite Hct'. subst ct2. cbn [dimension rows].
      rewrite concat_app, map_app, <- app_assoc. reflexivity. }
    exists (evs1 ++ evs2 ++ evs3 ++ evs).
    split.
    { rewrite Htr, Htr3, Htr2, Htr1. rewrite <- !app_assoc. reflexivity. }
    rewrite !insert_calls_app, Hi1, Hi2, Hi3. cbn [app].
    split.
    { rewrite !calls_on_app, calls_on_same.
      rewrite calls_on_other by (apply not_eq_sym, collections_differ).
      rewrite Hci_calls, map_app. reflexivity. }
    split.
    { rewrite !calls_on_app, calls_on_same.
      rewrite calls_on_other by apply collections_differ.
      rewrite Hct_calls, map_app. reflexivity. }
    apply Forall_app. split; [apply Forall_full_map; [now left | now apply step_chunks_full] |].
    apply Forall_app. split; [apply Forall_full_map; [now right | now apply step_chunks_full] |].
    exact Hfull.
Qed.

(** A flush after the walk, of a batch that may be empty. *)
Lemma flush_img_any (l : list (Vec * string)) (col : Collection) (w : World) :
  store_up env = true ->
  store w !! IMAGE_COLL env = Some col ->
  Forall (img_entry_fits (dimension col)) l ->
  exists w',
    flush_img env client (img_batch_of l) w = (Ret img_empty, w')
    /\ store w' = <[IMAGE_COLL env := {| dimension := dimension col;
                                         rows := rows col ++ map (img_row env) l |}]>
                    (store w)
    /\ exists evs,
        trace w' = trace w ++ evs
        /\ insert_calls evs = flush_call (IMAGE_COLL env) (map (img_row env) l).
Proof.
  intros Hup Hcol Hfit. destruct l as [| e l].
  - exists w. split; [reflexivity |]. cbn [map].
    rewrite (insert_same_rows col _ _ Hcol). split; [reflexivity |].
    exists []. now rewrite app_nil_r.
  - rewrite (flush_img_run (e :: l) col w) by (assumption || discriminate).
    eexists. split; [reflexivity |]. split; [reflexivity |].
    exists [EvInsert client (IMAGE_COLL env) (map (img_row env) (e :: l))].
    split; reflexivity.
Qed.

Lemma flush_txt_any (l : list (Vec * string * string)) (col : Collection) (w : World) :
  store_up env = true ->
  store w !! TEXT_COLL env = Some col ->
  dimension col = get_sentence_embedding_dimension tm ->
  Forall (entry_fits tm) l ->
  exists w',
    flush_txt env client (txt_batch_of l) w = (Ret txt_empty, w')
    /\ store w' = <[TEXT_COLL env := {| dimension := dimension col;
                                        rows := rows col ++ map (txt_row env) l |}]>
                    (store w)
    /\ exists evs,
        trace w' = trace w ++ evs
        /\ insert_calls evs = flush_call (TEXT_COLL env) (map (txt_row env) l).
Proof.
  intros Hup Hcol Hdim Hfit. destruct l as [| e l].
  - exists w. split; [reflexivity |]. cbn [map].
    rewrite (insert_same_rows col _ _ Hcol). split; [reflexivity |].
    exists []. now rewrite app_nil_r.
  - rewrite (flush_txt_run env tm client (e :: l) col w) by (assumption || discriminate).
    eexists. split; [reflexivity |]. split; [reflexivity |].
    exists [EvInsert client (TEXT_COLL env) (map (txt_row env) (e :: l))].
    split; reflexivity.
Qed.

(** What follows the walk, for batches that may be empty. *)
Lemma drain_any (ri : list (Vec * string)) (rt : list (Vec * string * string))
    (ci ct : Collection) (w : World) :
  store_up env = true ->
  store w !! IMAGE_COLL env = Some ci ->
  store w !! TEXT_COLL env = Some ct ->
  dimension ct = get_sentence_embedding_dimension tm ->
  Forall (img_entry_fits (dimension ci)) ri ->
  Forall (entry_fits tm) rt ->
  exists w',
    (flush_img env client (img_batch_of ri) ;;
     flush_txt env client (txt_batch_of rt) ;;
     Store.flush env client (IMAGE_COLL env) ;;
     Store.flush env client (TEXT_COLL env) ;;
     do img_count <- Store.row_count env client (IMAGE_COLL env);
     do txt_count <- Store.row_count env client (TEXT_COLL env);
     logger_call (Some tt) "info"
       ("Done. Image entities: " +:+ pretty img_count
        +:+ ", Text entities: " +:+ pretty txt_count)) w
    = (Ret tt, w')
    /\ store w' !! IMAGE_COLL env
       = Some {| dimension := dimension ci; rows := rows ci ++ map (img_row env) ri |}
    /\ store w' !! TEXT_COLL env
       = Some {| dimension := dimension ct; rows := rows ct ++ map (txt_row env) rt |}
    /\ exists evs,
        trace w' = trace w ++ evs
        /\ insert_calls evs
           = flush_call (IMAGE_COLL env) (map (img_row env) ri)
             ++ flush_call (TEXT_COLL env) (map (txt_row env) rt)
        /\ last evs
           = Some (EvLog "info"
                     ("Done. Image entities: "
                      +:+ pretty (Z.of_nat (length (rows ci ++ map (img_row env) ri)))
                      +:+ ", Text entities: "
                      +:+ pretty (Z.of_nat (length (rows ct ++ map (txt_row env) rt))))).
Proof.
  intros Hup Hci Hct Hdim Hfi Hft.
  destruct (flush_img_any ri ci w Hup Hci Hfi) as (w1 & Hrun1 & Hs1 & evs1 & Htr1 & Hi1).
  set (ci' := {| dimension := dimension ci; rows := rows ci ++ map (img_row env) ri |}) in *.
  assert (Hct1 : store w1 !! TEXT_COLL env = Some ct).
  { rewrite Hs1, lookup_insert_ne by apply collections_differ. exact Hct. }
  destruct (flush_txt_any rt ct w1 Hup Hct1 Hdim Hft) as (w2 & Hrun2 & Hs2 & evs2 & Htr2 & Hi2).
  set (ct' := {| dimension := dimension ct; rows := rows ct ++ map (txt_row env) rt |}) in *.
  assert (Hci2 : store w2 !! IMAGE_COLL env = Some ci').
  { rewrite Hs2, lookup_insert_ne by (apply not_eq_sym, collections_differ).
    rewrite Hs1. apply lookup_insert_eq. }
  assert (Hct2 : store w2 !! TEXT_COLL env = Some ct').
  { rewrite Hs2. apply lookup_insert_eq. }
  eexists. split.
  { unfold bind at 1. rewrite Hrun1. cbv beta iota.
    unfold bind at 1. rewrite Hrun2. cbv beta iota.
    unfold bind at 1. rewrite (flush_run env client _ ci' w2 Hup Hci2). cbv beta iota.
    unfold bind at 1. rewrite (flush_run env client _ ct' _ Hup) by exact Hct2.
    cbv beta iota.
    unfold bind at 1. rewrite (row_count_run env client _ ci' _ Hup) by exact Hci2.
    cbv beta iota.
    unfold bind at 1. rewrite (row_count_run env client _ ct' _ Hup) by exact Hct2.
    cbv beta iota. reflexivity. }
  cbn [store add_event].
  split; [exact Hci2 |]. split; [exact Hct2 |].
  eexists (evs1 ++ evs2 ++ _ :: _ :: _ :: _ :: _ :: nil).
  split; [| split].
  - cbn [trace add_event]. rewrite Htr2, Htr1. rewrite <- !app_assoc. reflexivity.
  - rewrite !insert_calls_app, Hi1, Hi2. cbn [insert_calls flat_map app].
    now rewrite app_nil_r.
  - rewrite !app_assoc. rewrite last_app. reflexivity.
Qed.

End Ingest.


Section IngestAll.
Import Embeddings Preprocess.
Context (env : Env).

(** [get_embedding_dimensions] looks at the loaded models only; the image
    side. *)
Lemma get_embedding_dimensions_frame_image (w w2 : World) :
  same_models w w2 ->
  image_model (exec (get_embedding_dimensions env) w2)
  = image_model (exec (get_embedding_dimensions env) w)
  /\ image_processor (exec (get_embedding_dimensions env) w2)
     = image_processor (exec (get_embedding_dimensions env) w).
Proof.
  destruct w as [s c mc tmo imo ipo ito t], w2 as [s2 c2 mc2 tmo2 imo2 ipo2 ito2 t2].
  unfold same_models. simpl. intros (-> & -> & -> & ->).
  unfold get_embedding_dimensions, get_text_model, get_image_model, call_processor,
    call_get_image_features.
  munfold. simpl.
  destruct tmo as [tm0 |]; simpl.
  2: destruct (SentenceTransformer env _) as [tm0 |]; simpl; [| split; reflexivity].
  2: destruct (text_model_to_device env tm0) as [[] |]; simpl; [| split; reflexivity].
  all: destruct imo as [im |]; simpl.
  all: repeat match goal with
         | |- context [match AutoProcessor_from_pretrained env ?n with _ => _ end] =>
             destruct (AutoProcessor_from_pretrained env n); simpl
         | |- context [match AutoTokenizer_from_pretrained env ?n with _ => _ end] =>
             destruct (AutoTokenizer_from_pretrained env n); simpl
         | |- context [match AutoModel_from_pretrained env ?n with _ => _ end] =>
             destruct (AutoModel_from_pretrained env n); simpl
         end.
  all: try (split; reflexivity).
  all: try (destruct ipo as [pr0 |]; simpl; [| split; reflexivity]).
  all: match goal with
       | |- context [match ?pr0 (dummy_image env) with _ => _ end] =>
           destruct (pr0 (dummy_image env)); simpl; [| split; reflexivity]
       end.
  all: match goal with
       | |- context [match get_image_features ?m0 ?i with _ => _ end] =>
           destruct (get_image_features m0 i); simpl; split; reflexivity
       end.
Qed.

Lemma flush_call_batch (name : string) (data : list Row) :
  name = IMAGE_COLL env \/ name = TEXT_COLL env ->
  (length data < BATCH_SIZE)%nat ->
  Forall (batch_insert env) (flush_call name data).
Proof.
  intros Hname Hlen. destruct data as [| r data]; constructor; [| constructor].
  split; [exact Hname |]. simpl in *. lia.
Qed.

Lemma full_insert_batch (c : string * list Row) : full_insert env c -> batch_insert env c.
Proof. intros [Hname Hlen]. split; [exact Hname |]. rewrite Hlen. unfold BATCH_SIZE. lia. Qed.

Lemma calls_on_flush_same (name : string) (data : list Row) :
  concat (calls_on name (flush_call name data)) = data.
Proof.
  destruct data as [| r data]; [reflexivity |].
  simpl. rewrite String.eqb_refl. simpl. now rewrite app_nil_r.
Qed.

Lemma calls_on_flush_other (name other : string) (data : list Row) :
  other <> name -> calls_on name (flush_call other data) = [].
Proof.
  intros Hne. destruct data as [| r data]; [reflexivity |].
  simpl. destruct (String.eqb_spec other name); [contradiction | reflexivity].
Qed.

(** X1.  Ingestion into a store that has neither collection, with the
    store reachable, the models loading, their vectors of the reported
    lengths and a logger given, for any tree: the run returns normally; the
    image collection ends with one row for every image file that opens, is
    no icon and embeds, the text collection with one row for every text file
    that can be read and embeds, both in the order of the walk; a file that
    fails or is filtered leaves no row and does not stop the run; every
    insert call is on one of the two collections and carries between 1 and
    [BATCH_SIZE] rows; the last log line reports the two counts. *)
Theorem ingestion_stores_every_accepted_file
    (tm : TextModel) (m : ImageModel) (pr : Processor) (dim_text dim_image : Z) (w : World) :
  connect env (milvus_uri env) None None = Ret tt ->
  store_up env = true ->
  store w !! IMAGE_COLL env = None ->
  store w !! TEXT_COLL env = None ->
  eval (get_embedding_dimensions env) w = Ret (dim_text, dim_image) ->
  text_model (exec (get_embedding_dimensions env) w) = Some tm ->
  image_model (exec (get_embedding_dimensions env) w) = Some m ->
  image_processor (exec (get_embedding_dimensions env) w) = Some pr ->
  text_model_sound env tm ->
  image_model_sound env m pr dim_image ->
  let files := rglob_files env (attached_artifact_dir env) in
  let images := map (img_row env) (omap (image_entry env m pr) files) in
  let texts := map (txt_row env) (omap (text_entry env tm) files) in
  let run := preprocess_data_to_milvus env (Some tt) in
  eval run w = Ret tt
  /\ rows <$> store (exec run w) !! IMAGE_COLL env = Some images
  /\ rows <$> store (exec run w) !! TEXT_COLL env = Some texts
  /\ exists evs,
      trace (exec run w) = trace w ++ evs
      /\ concat (calls_on (IMAGE_COLL env) (insert_calls evs)) = images
      /\ concat (calls_on (TEXT_COLL env) (insert_calls evs)) = texts
      /\ Forall (batch_insert env) (insert_calls evs)
      /\ last evs
         = Some (EvLog "info"
                   ("Done. Image entities: " +:+ pretty (Z.of_nat (length images))
                    +:+ ", Text entities: " +:+ pretty (Z.of_nat (length texts)))).
Proof.
  intros Hconn Hup Himage Htext Hdims Htm Him Hpr Hsound_t Hsound_i files images texts run.
  set (client := {| client_id := clients_made w; client_uri := milvus_uri env;
                    client_token := None; client_db_name := None |}).
  set (w2 := add_event (EvHasCollection client (IMAGE_COLL env))
               (add_event (EvNewClient client) (set_clients_made (S (clients_made w)) w))).
  assert (Hsame : same_models w w2) by (repeat split).
  destruct (get_embedding_dimensions_frame env w w2 Hsame) as [Hval Htm2].
  destruct (get_embedding_dimensions_frame_image w w2 Hsame) as [Him2 Hpr2].
  unfold eval, exec in *.
  destruct (get_embedding_dimensions env w2) as [[[dt di] | e] w3] eqn:Hged;
    simpl in Hval, Htm2, Him2, Hpr2; [| congruence].
  assert (dt = dim_text /\ di = dim_image) as [-> ->] by (split; congruence).
  destruct (get_embedding_dimensions_Ret env w2 w3 dim_text dim_image Hged)
    as (tm' & Htm' & Hdim).
  assert (tm' = tm) by congruence. subst tm'.
  pose proof (get_embedding_dimensions_calm env w2) as [(evs_g & Htr_g & Hno_g) Hs_g].
  unfold keeps, exec in Hs_g, Htr_g. rewrite Hged in Hs_g, Htr_g. simpl in Hs_g, Htr_g.
  apply no_mutation_insert_calls in Hno_g.
  assert (Himage3 : store w3 !! IMAGE_COLL env = None) by (rewrite Hs_g; exact Himage).
  set (ci := {| dimension := dim_image; rows := [] |}).
  set (w4 := set_store <[IMAGE_COLL env := ci]>
               (add_event (EvCreateCollection client (IMAGE_COLL env) dim_image)
                  (add_event (EvLog "info" ("Creating collection " +:+ IMAGE_COLL env)) w3))).
  assert (Htext4 : store w4 !! TEXT_COLL env = None).
  { subst w4. cbn [store set_store add_event].
    rewrite lookup_insert_ne by apply collections_differ. rewrite Hs_g. exact Htext. }
  set (ct := {| dimension := dim_text; rows := [] |}).
  set (w5 := set_store <[TEXT_COLL env := ct]>
               (add_event (EvCreateCollection client (TEXT_COLL env) dim_text)
                  (add_event (EvLog "info" ("Creating collection " +:+ TEXT_COLL env)) w4))).
  destruct (walk_loaded env tm m pr client dim_image files Hup Hsound_t Hsound_i [] [] ci ct w5)
    as (ichunks & ri & tchunks & rt & w6 & Hwalk & Heqi & Heqt & Hchi & Hcht & Hri & Hrt
        & Hfri & Hfrt & Htm6 & Him6 & Hpr6 & Hci6 & Hct6 & evs_w & Htr_w & Hcalls_i
        & Hcalls_t & Hfull).
  { subst w5 w4. cbn. congruence. }
  { subst w5 w4. cbn. congruence. }
  { subst w5 w4. cbn. congruence. }
  { subst w5. cbn [store set_store add_event].
    rewrite lookup_insert_ne by (apply not_eq_sym, collections_differ).
    subst w4. cbn [store set_store add_event]. apply lookup_insert_eq. }
  { subst w5. cbn [store set_store add_event]. apply lookup_insert_eq. }
  { reflexivity. }
  { exact Hdim. }
  { unfold BATCH_SIZE. simpl. lia. }
  { unfold BATCH_SIZE. simpl. lia. }
  { constructor. }
  { constructor. }
  cbn [app] in Heqi, Heqt. cbn [dimension rows ci ct app] in Hci6, Hct6.
  destruct (drain_any env tm client ri rt _ _ w6 Hup Hci6 Hct6 Hdim)
    as (w7 & Hdrain & Hci7 & Hct7 & evs_d & Htr_d & Hi_d & Hlast); [exact Hfri | exact Hfrt |].
  cbn [dimension rows] in Hci7, Hct7, Hlast.
  assert (Himages : map (img_row env) (concat ichunks) ++ map (img_row env) ri = images).
  { subst images. fold files. rewrite Heqi, map_app. reflexivity. }
  assert (Htexts : map (txt_row env) (concat tchunks) ++ map (txt_row env) rt = texts).
  { subst texts. fold files. rewrite Heqt, map_app. reflexivity. }
  rewrite Himages in Hci7, Hlast. rewrite Htexts in Hct7, Hlast.
  assert (Hrun : run w = (Ret tt, w7)).
  { subst run. unfold preprocess_data_to_milvus.
    unfold bind at 1. rewrite MilvusClient_run, Hconn. cbv zeta. fold client.
    unfold bind at 1. rewrite has_collection_run, Hup.
    cbn [store add_event set_clients_made]. rewrite Himage.
    simpl bool_decide. cbv beta iota.
    unfold bind at 1. unfold ret at 1. cbv beta iota.
    unfold bind at 1. fold w2. rewrite Hged. cbv beta iota.
    unfold bind at 1.
    rewrite (create_collection_run env client _ _ w3 Hup Himage3). cbv beta iota.
    fold ci. fold w4. unfold bind at 1.
    rewrite (create_collection_run env client _ _ w4 Hup Htext4). cbv beta iota.
    fold ct. fold w5. cbv zeta. fold files.
    unfold bind at 1.
    change img_empty with (img_batch_of []). change txt_empty with (txt_batch_of []).
    rewrite Hwalk. cbv beta iota. exact Hdrain. }
  rewrite Hrun. cbn [fst snd].
  split; [reflexivity |]. split; [now rewrite Hci7 |]. split; [now rewrite Hct7 |].
  eexists (_ :: _ :: evs_g ++ _ :: _ :: _ :: _ :: evs_w ++ evs_d).
  split; [| split; [| split; [| split]]].
  - rewrite Htr_d, Htr_w. subst w5 w4. cbn [trace set_store add_event].
    rewrite Htr_g. subst w2. cbn [trace set_store add_event set_clients_made].
    rewrite <- !app_assoc. reflexivity.
  - change (insert_calls (?a :: ?b :: ?l)) with (insert_calls l).
    rewrite insert_calls_app, Hno_g. cbn [app].
    change (insert_calls (?a :: ?b :: ?c :: ?d :: ?l)) with (insert_calls l).
    rewrite insert_calls_app, calls_on_app, Hcalls_i, Hi_d, calls_on_app, concat_app,
      concat_app.
    rewrite (calls_on_flush_other _ (TEXT_COLL env))
      by (apply not_eq_sym, collections_differ).
    cbn [concat]. rewrite app_nil_r, calls_on_flush_same.
    rewrite <- Himages. f_equal. clear. induction ichunks as [| ch l IH]; [reflexivity |].
    cbn [map concat]. now rewrite map_app, IH.
  - change (insert_calls (?a :: ?b :: ?l)) with (insert_calls l).
    rewrite insert_calls_app, Hno_g. cbn [app].
    change (insert_calls (?a :: ?b :: ?c :: ?d :: ?l)) with (insert_calls l).
    rewrite insert_calls_app, calls_on_app, Hcalls_t, Hi_d, calls_on_app, concat_app,
      concat_app.
    rewrite (calls_on_flush_other _ (IMAGE_COLL env)) by apply collections_differ.
    cbn [concat app]. rewrite calls_on_flush_same.
    rewrite <- Htexts. f_equal. clear. induction tchunks as [| ch l IH]; [reflexivity |].
    cbn [map concat]. now rewrite map_app, IH.
  - change (insert_calls (?a :: ?b :: ?l)) with (insert_calls l).
    rewrite insert_calls_app, Hno_g. cbn [app].
    change (insert_calls (?a :: ?b :: ?c :: ?d :: ?l)) with (insert_calls l).
    rewrite insert_calls_app, Hi_d.
    apply Forall_app. split.
    + eapply List.Forall_impl; [| exact Hfull]. intros c. apply full_insert_batch.
    + apply Forall_app. split; apply flush_call_batch; auto;
        now rewrite length_map.
  - rewrite !app_comm_cons, !app_assoc. rewrite last_app, Hlast. reflexivity.
Qed.

End IngestAll.


(** ** What can abort a walk *)

Section Raises.
Context (P : exn -> Prop).

Lemma raises_only_ret {A} (a : A) : raises_only P (ret a).
Proof. intros w e H. discriminate. Qed.

Lemma raises_only_gets {A} (f : World -> A) : raises_only P (gets f).
Proof. intros w e H. discriminate. Qed.

Lemma raises_only_modify (f : World -> World) : raises_only P (modify f).
Proof. intros w e H. discriminate. Qed.

Lemma raises_only_raise {A} (e : exn) : P e -> raises_only P (@raise A e).
Proof. intros He w e' H. inversion H. now subst. Qed.

Lemma raises_only_lift_Ret {A} (a : A) : raises_only P (lift (Ret a)).
Proof. intros w e H. discriminate. Qed.

Lemma raises_only_bind {A B} (m : M A) (k : A -> M B) :
  raises_only P m -> (forall a, raises_only P (k a)) -> raises_only P (bind m k).
Proof.
  intros Hm Hk w e. specialize (Hm w). unfold eval, bind in *.
  destruct (m w) as [[a | e'] w1]; simpl in *.
  - apply Hk.
  - intros H. inversion H; subst. now apply Hm.
Qed.

Lemma raises_only_try {A} (m : M A) (h : exn -> M A) :
  (forall e, raises_only P (h e)) -> raises_only P (try_except m h).
Proof.
  intros Hh w e. unfold eval, try_except.
  destruct (m w) as [[a | e'] w1]; simpl; [discriminate | apply Hh].
Qed.

End Raises.

Ltac raises_step :=
  lazymatch goal with
  | |- raises_only _ (bind _ _) => apply raises_only_bind; [ | intros ? ]
  | |- raises_only _ (try_except _ _) => apply raises_only_try; intros ?
  | |- raises_only _ (ret _) => apply raises_only_ret
  | |- raises_only _ (gets _) => apply raises_only_gets
  | |- raises_only _ (modify _) => apply raises_only_modify
  | |- raises_only _ (emit _) => apply raises_only_modify
  | |- raises_only _ (print _) => apply raises_only_modify
  | |- raises_only _ (lift (Ret _)) => apply raises_only_lift_Ret
  | |- raises_only _ (raise (Store.diagnostic _)) =>
      apply raises_only_raise; eexists _, _; reflexivity
  | |- raises_only _ (match ?x with _ => _ end) => destruct x
  | |- raises_only _ _ => solve [ auto ]
  end.

Section WalkRaises.
Import Embeddings Preprocess.
Context (env : Env) (client : Client).

Lemma img_rows_never_raise (vs : list Vec) (ps : list string) :
  raises_only is_store_error (img_rows env vs ps).
Proof.
  revert ps. induction vs as [| v vs IH]; intros [| p ps]; simpl;
    try apply raises_only_ret.
  rewrite get_all_metadata_returns. repeat raises_step.
Qed.

Lemma txt_rows_never_raise (vs : list Vec) (ps cs : list string) :
  raises_only is_store_error (txt_rows env vs ps cs).
Proof.
  revert ps cs. induction vs as [| v vs IH]; intros [| p ps] [| c cs]; simpl;
    try apply raises_only_ret.
  rewrite get_all_metadata_returns. repeat raises_step.
Qed.

Lemma insert_raises_store_error (name : string) (data : list Row) :
  raises_only is_store_error (Store.insert env client name data).
Proof.
  unfold Store.insert, Store.reach, Store.the_collection. repeat raises_step.
Qed.

Lemma flush_img_raises_store_error (b : ImgBatch) :
  raises_only is_store_error (flush_img env client b).
Proof.
  pose proof img_rows_never_raise. pose proof insert_raises_store_error.
  unfold flush_img. repeat raises_step.
Qed.

Lemma flush_txt_raises_store_error (b : TxtBatch) :
  raises_only is_store_error (flush_txt env client b).
Proof.
  pose proof txt_rows_never_raise. pose proof insert_raises_store_error.
  unfold flush_txt. repeat raises_step.
Qed.

Lemma process_file_never_raises (p : Path) (b : ImgBatch * TxtBatch) :
  raises_only is_store_error (process_file env (Some tt) p b).
Proof. unfold process_file, logger_call. repeat raises_step. Qed.

(** X2.  With a logger, a walk is aborted by nothing but the store: when
    the walk over any files, from any batches, in any world, raises, the
    exception is a [MilvusException] of an insert; no file that cannot be
    read, opened or embedded, and no failing model, stops it.  Without a
    logger the handler of [process_file] itself raises: a file whose
    processing fails then aborts the walk with an [AttributeError]. *)
Theorem walk_aborts_only_on_store_errors :
  (forall files b w e,
      eval (walk env client (Some tt) files b) w = Raise e ->
      exists code message, e = MilvusException code message)
  /\ (forall p b w e,
        eval (process_file_try env p b) w = Raise e ->
        eval (process_file env None p b) w
        = Raise (AttributeError "'NoneType' object has no attribute 'error'")
        /\ forall files,
            eval (walk env client None (p :: files) b) w
            = Raise (AttributeError "'NoneType' object has no attribute 'error'")).
Proof.
  split.
  - intros files. induction files as [| f files IH]; intros b w e.
    + discriminate.
    + revert w e. change (raises_only is_store_error (walk env client (Some tt) (f :: files) b)).
      pose proof process_file_never_raises. pose proof flush_img_raises_store_error.
      pose proof flush_txt_raises_store_error.
      assert (forall b', raises_only is_store_error (walk env client (Some tt) files b'))
        by (intros b' w e; apply IH).
      cbn [walk]. repeat raises_step.
  - intros p b w e Hfail.
    assert (Hone : eval (process_file env None p b) w
                   = Raise (AttributeError "'NoneType' object has no attribute 'error'")).
    { unfold eval, process_file, try_except in *.
      destruct (process_file_try env p b w) as [[b' | e'] w']; simpl in Hfail;
        [discriminate | reflexivity]. }
    split; [exact Hone |].
    intros files. unfold eval in *. cbn [walk]. unfold bind at 1.
    destruct (process_file env None p b w) as [[b' | e'] w']; simpl in Hone;
      [discriminate |]. simpl. exact Hone.
Qed.

End WalkRaises.


(** On the tree with a photo, a logo, a torn image, a readme, an
    text that may not be read and a PDF, started with an empty store: the photo is
    the one image row and the readme the one text row. *)
Lemma ingestion_stores_every_accepted_file_witness :
  let run := Preprocess.preprocess_data_to_milvus Tree.env (Some tt) in
  eval run Demo.fresh = Ret tt
  /\ (fun col => map path (rows col))
       <$> store (exec run Demo.fresh) !! Preprocess.IMAGE_COLL Tree.env
     = Some ["photo.JPG"]
  /\ (fun col => map path (rows col))
       <$> store (exec run Demo.fresh) !! Preprocess.TEXT_COLL Tree.env
     = Some ["README.md"].
Proof.
  assert (Htext : text_model_sound Tree.env Demo.tm).
  { intros s vec H. inversion H. reflexivity. }
  assert (Himage : image_model_sound Tree.env Demo.im Demo.processor 3).
  { intros img inputs vec v _ H1 H2. inversion H1. subst vec. inversion H2. reflexivity. }
  pose proof (ingestion_stores_every_accepted_file Tree.env Demo.tm Demo.im Demo.processor
                2 3 Demo.fresh eq_refl eq_refl eq_refl eq_refl eq_refl eq_refl eq_refl
                eq_refl Htext Himage) as H.
  cbv zeta in *. destruct H as (Hret & Himg & Htxt & _).
  split; [exact Hret |]. split.
  - revert Himg.
    generalize (store (exec (Preprocess.preprocess_data_to_milvus Tree.env (Some tt))
                         Demo.fresh) !! Preprocess.IMAGE_COLL Tree.env).
    intros [col |] H; [| discriminate]. injection H as H.
    cbn [fmap option_fmap option_map]. rewrite H. reflexivity.
  - revert Htxt.
    generalize (store (exec (Preprocess.preprocess_data_to_milvus Tree.env (Some tt))
                         Demo.fresh) !! Preprocess.TEXT_COLL Tree.env).
    intros [col |] H; [| discriminate]. injection H as H.
    cbn [fmap option_fmap option_map]. rewrite H. reflexivity.
Defined.


(** ** The batches between two files *)

Section Batches.
Import Embeddings Preprocess.
Context (env : Env) (client : Client).

Lemma process_file_try_one_more (p : Path) (b b' : ImgBatch * TxtBatch) (w w' : World) :
  process_file_try env p b w = (Ret b', w') -> one_more b b'.
Proof.
  unfold process_file_try. destruct b as [ib tb].
  destruct (str_mem (str_lower (suffix p)) IMAGE_SUFFIXES).
  - intros H. apply bind_Ret_inv in H as ([vec |] & w1 & _ & H);
      unfold ret in H; inversion H; subst.
    + right. left. eexists _, _. reflexivity.
    + left. reflexivity.
  - destruct (str_mem (str_lower (suffix p)) TEXT_SUFFIXES).
    + intros H. apply bind_Ret_inv in H as (full_text & w1 & _ & H).
      apply bind_Ret_inv in H as (vec & w2 & _ & H).
      unfold ret in H; inversion H; subst.
      right. right. eexists _, _, _. reflexivity.
    + unfold ret. intros H. inversion H. left. reflexivity.
Qed.

Lemma process_file_one_more (logger : option unit) (p : Path) (b b' : ImgBatch * TxtBatch)
    (w w' : World) :
  process_file env logger p b w = (Ret b', w') -> one_more b b'.
Proof.
  unfold process_file, try_except.
  destruct (process_file_try env p b w) as [[b1 | e] w1] eqn:Htry.
  - intros H. inversion H; subst. eapply process_file_try_one_more, Htry.
  - intros H. apply bind_Ret_inv in H as (? & w2 & _ & H).
    unfold ret in H. inversion H. left. reflexivity.
Qed.

Lemma flush_img_Ret (b b' : ImgBatch) (w w' : World) :
  flush_img env client b w = (Ret b', w') ->
  b' = img_empty \/ (b' = b /\ img_vector b = []).
Proof.
  unfold flush_img. destruct (img_vector b) as [| v vs].
  - unfold ret. intros H. inversion H. right. split; reflexivity.
  - intros H. apply bind_Ret_inv in H as (rows & w1 & _ & H).
    apply bind_Ret_inv in H as (? & w2 & _ & H).
    unfold ret in H. inversion H. left. reflexivity.
Qed.

Lemma flush_txt_Ret (b b' : TxtBatch) (w w' : World) :
  flush_txt env client b w = (Ret b', w') ->
  b' = txt_empty \/ (b' = b /\ txt_vector b = []).
Proof.
  unfold flush_txt. destruct (txt_vector b) as [| v vs].
  - unfold ret. intros H. inversion H. right. split; reflexivity.
  - intros H. apply bind_Ret_inv in H as (rows & w1 & _ & H).
    apply bind_Ret_inv in H as (? & w2 & _ & H).
    unfold ret in H. inversion H. left. reflexivity.
Qed.

(** X3.  Between two files the loop holds batches whose lists have the same
    length (so the [zip] of a flush drops no entry) and fewer than
    [BATCH_SIZE] entries: whenever a walk that starts from such batches
    returns, whatever files failed on the way, it returns such batches. *)
Theorem walk_keeps_batches_parallel_and_short (logger : option unit) (files : list Path)
    (b b' : ImgBatch * TxtBatch) (w w' : World) :
  batches_ok b ->
  walk env client logger files b w = (Ret b', w') ->
  batches_ok b'.
Proof.
  revert b w. induction files as [| f files IH]; intros b w Hok.
  - unfold ret. intros H. inversion H; subst. exact Hok.
  - cbn [walk]. intros H.
    apply bind_Ret_inv in H as ([ib tb] & w1 & Hfile & H).
    apply bind_Ret_inv in H as (ib' & w2 & Himg & H).
    apply bind_Ret_inv in H as (tb' & w3 & Htxt & H).
    apply (IH _ _) in H; [exact H |].
    apply process_file_one_more in Hfile.
    destruct b as [ib0 tb0]. unfold batches_ok, one_more in Hok, Hfile.
    cbn [fst snd] in Hok, Hfile.
    destruct Hok as (Hip & Htp & Htc & Hil & Htl). unfold BATCH_SIZE in *.
    assert (Hmid : length (img_path ib) = length (img_vector ib)
                   /\ length (txt_path tb) = length (txt_vector tb)
                   /\ length (txt_content tb) = length (txt_vector tb)
                   /\ (length (img_vector ib) <= 100)%nat
                   /\ (length (txt_vector tb) <= 100)%nat).
    { destruct Hfile as [Heq | [(v & p & Heq) | (v & p & c & Heq)]];
        inversion Heq; subst; cbn [img_vector img_path txt_vector txt_path txt_content];
        rewrite ?length_app; cbn [length]; lia. }
    destruct Hmid as (Hip1 & Htp1 & Htc1 & Hil1 & Htl1).
    assert (Hi : length (img_path ib') = length (img_vector ib')
                 /\ (length (img_vector ib') < 100)%nat).
    { destruct (Nat.leb_spec 100 (length (img_vector ib))) as [Hge | Hlt].
      - apply flush_img_Ret in Himg as [-> | [-> Hnil]]; simpl; [lia |].
        rewrite Hnil in Hge. simpl in Hge. lia.
      - unfold ret in Himg. inversion Himg; subst. lia. }
    assert (Ht : length (txt_path tb') = length (txt_vector tb')
                 /\ length (txt_content tb') = length (txt_vector tb')
                 /\ (length (txt_vector tb') < 100)%nat).
    { destruct (Nat.leb_spec 100 (length (txt_vector tb))) as [Hge | Hlt].
      - apply flush_txt_Ret in Htxt as [-> | [-> Hnil]]; simpl; [lia |].
        rewrite Hnil in Hge. simpl in Hge. lia.
      - unfold ret in Htxt. inversion Htxt; subst. lia. }
    unfold batches_ok, BATCH_SIZE. cbn [fst snd]. lia.
Qed.

End Batches.

(** The walk over the tree with files of every kind, before any collection
    exists: it returns, with one image and one text waiting in the batches. *)
Lemma walk_keeps_batches_parallel_and_short_witness :
  exists b' w',
    Preprocess.walk Tree.env Demo.ingest_client (Some tt)
      (rglob_files Tree.env (attached_artifact_dir Tree.env))
      (Preprocess.img_empty, Preprocess.txt_empty) Demo.fresh = (Ret b', w')
    /\ batches_ok b'.
Proof.
  destruct (Preprocess.walk Tree.env Demo.ingest_client (Some tt)
              (rglob_files Tree.env (attached_artifact_dir Tree.env))
              (Preprocess.img_empty, Preprocess.txt_empty) Demo.fresh)
    as [[b' | e] w'] eqn:H.
  - exists b', w'. split; [reflexivity |].
    apply (walk_keeps_batches_parallel_and_short Tree.env Demo.ingest_client (Some tt)
             (rglob_files Tree.env (attached_artifact_dir Tree.env))
             (Preprocess.img_empty, Preprocess.txt_empty) b' Demo.fresh w');
      [| exact H].
    unfold batches_ok, Preprocess.BATCH_SIZE. simpl. lia.
  - vm_compute in H. discriminate.
Defined.


(** ** Running ingestion again *)

Section Rerun.
Import Preprocess.


End Rerun.



(** ** Creating the collections *)

Section Creation.
Import Embeddings Preprocess.
Context (env : Env).

Lemma grows_any (ok : Event -> bool) (w w' : World) : grows ok w w' -> grows any_event w w'.
Proof.
  intros (evs & Htrace & _). exists evs. split; [exact Htrace |].
  clear. induction evs; [reflexivity | exact IHevs].
Qed.

Lemma own_grows_any {A} (client : Client) (m : M A) :
  preserves (own client) m -> preserves (grows any_event) m.
Proof. intros H w. destruct (H w) as [Hgrows _]. eapply grows_any, Hgrows. Qed.

Lemma emit_then_traced {A B} (ev : Event) (rest : M A) (K : A -> M B) (w : World) :
  preserves (grows any_event) rest ->
  (forall a, preserves (grows any_event) (K a)) ->
  exists evs, trace (exec (bind (bind (emit ev) (fun _ => rest)) K) w) = trace w ++ ev :: evs.
Proof.
  intros Hrest HK.
  change (exec (bind (bind (emit ev) (fun _ => rest)) K) w)
    with (exec (bind rest K) (add_event ev w)).
  destruct (preserves_bind (grows any_event) rest K Hrest HK (add_event ev w))
    as (evs & Htrace & _).
  exists evs. rewrite Htrace. cbn [trace add_event]. now rewrite <- app_assoc.
Qed.

Lemma create_collection_traced {B} (client : Client) (name : string) (dim : Z)
    (logger : option unit) (K : unit -> M B) (w : World) :
  (forall u, preserves (grows any_event) (K u)) ->
  exists evs,
    trace (exec (bind (create_collection env client name dim logger) K) w) = trace w ++ evs
    /\ In (EvCreateCollection client name dim) evs.
Proof.
  intros HK.
  assert (Hrest : forall w0,
             exists evs,
               trace (exec (bind (Store.create_collection env client name dim) K) w0)
               = trace w0 ++ EvCreateCollection client name dim :: evs).
  { intros w0. unfold Store.create_collection. apply emit_then_traced; [| exact HK].
    unfold Store.reach. preserves_auto leaf_rel. }
  destruct logger as [[] |].
  - change (exec (bind (create_collection env client name dim (Some tt)) K) w)
      with (exec (bind (Store.create_collection env client name dim) K)
              (add_event (EvLog "info" ("Creating collection " +:+ name)) w)).
    destruct (Hrest (add_event (EvLog "info" ("Creating collection " +:+ name)) w))
      as (evs & Htrace).
    eexists (_ :: _ :: evs). rewrite Htrace. cbn [trace add_event].
    rewrite <- app_assoc. split; [reflexivity |]. right. left. reflexivity.
  - change (exec (bind (create_collection env client name dim None) K) w)
      with (exec (bind (Store.create_collection env client name dim) K) w).
    destruct (Hrest w) as (evs & Htrace).
    eexists (_ :: evs). rewrite Htrace. split; [reflexivity |]. left. reflexivity.
Qed.

Lemma create_collection_returns (client : Client) (name : string) (dim : Z)
    (logger : option unit) (w : World) :
  store_up env = true ->
  create_accepted env w name dim ->
  eval (create_collection env client name dim logger) w = Ret tt.
Proof.
  intros Hup Hok. unfold create_accepted in Hok.
  unfold create_collection, Store.create_collection, Store.reach.
  destruct logger as [[] |]; munfold; rewrite Hup; cbn [store add_event];
    (destruct (store w !! name) as [col |]; [rewrite Hok |]); reflexivity.
Qed.

Lemma create_collection_refused (client : Client) (name : string) (dim : Z)
    (logger : option unit) (w : World) (col : Collection) (e : exn) :
  store_up env = true ->
  store w !! name = Some col ->
  create_existing env name col dim = Raise e ->
  exists w',
    create_collection env client name dim logger w = (Raise e, w')
    /\ trace w'
       = trace w ++ match logger with
                    | Some _ => [EvLog "info" ("Creating collection " +:+ name)]
                    | None => []
                    end ++ [EvCreateCollection client name dim].
Proof.
  intros Hup Hcol Hrefuse.
  unfold create_collection, Store.create_collection, Store.reach.
  destruct logger as [[] |]; munfold; rewrite Hup; cbn [store add_event];
    rewrite Hcol, Hrefuse; eexists; (split; [reflexivity |]);
    cbn [trace add_event]; rewrite <- ?app_assoc; reflexivity.
Qed.

Lemma create_collection_grows (client : Client) (name : string) (dim : Z)
    (logger : option unit) :
  preserves (grows any_event) (create_collection env client name dim logger).
Proof.
  unfold create_collection, Store.create_collection, Store.reach.
  preserves_auto leaf_rel.
Qed.

Lemma exec_bind_Ret {A B} (m : M A) (k : A -> M B) (w : World) (a : A) :
  eval m w = Ret a -> exec (bind m k) w = exec (k a) (exec m w).
Proof.
  unfold eval, exec, bind. destruct (m w) as [[a' | e] w1]; simpl; [| discriminate].
  now intros [= ->].
Qed.

Lemma no_mutation_no_create (evs : list Event) (c : Client) (name : string) (dim : Z) :
  forallb no_mutation evs = true -> ~ In (EvCreateCollection c name dim) evs.
Proof.
  intros Hall Hin. rewrite List.forallb_forall in Hall.
  specialize (Hall _ Hin). discriminate.
Qed.

(** X5.  A run that does not find both collections asks the store to create
    the image collection without testing whether that one is there, with
    the dimension the image model reports, through the client of the run,
    with or without a logger.  When the store lets this call return, the
    run asks for the text collection as well.  When the image collection is
    there and the store refuses to create it again, the run ends with the
    store's exception: the text collection is not asked for and nothing is
    inserted. *)
Theorem collections_are_created_without_a_test (logger : option unit)
    (dim_text dim_image : Z) (w : World) :
  connect env (milvus_uri env) None None = Ret tt ->
  store_up env = true ->
  store w !! IMAGE_COLL env = None \/ store w !! TEXT_COLL env = None ->
  eval (get_embedding_dimensions env) w = Ret (dim_text, dim_image) ->
  let run := preprocess_data_to_milvus env logger in
  let client := ingestion_client env w in
  exists evs,
    trace (exec run w) = trace w ++ evs
    /\ In (EvCreateCollection client (IMAGE_COLL env) dim_image) evs
    /\ (create_accepted env w (IMAGE_COLL env) dim_image ->
        In (EvCreateCollection client (TEXT_COLL env) dim_text) evs)
    /\ (forall col e,
          store w !! IMAGE_COLL env = Some col ->
          create_existing env (IMAGE_COLL env) col dim_image = Raise e ->
          eval run w = Raise e
          /\ ~ In (EvCreateCollection client (TEXT_COLL env) dim_text) evs
          /\ insert_calls evs = []).
Proof.
  intros Hconn Hup Hmissing Hdims run client.
  set (w1 := add_event (EvHasCollection client (IMAGE_COLL env))
               (add_event (EvNewClient client) (set_clients_made (S (clients_made w)) w))).
  set (has_image := bool_decide (is_Some (store w !! IMAGE_COLL env))).
  set (w2 := if has_image then add_event (EvHasCollection client (TEXT_COLL env)) w1 else w1).
  assert (Hs2 : store w2 = store w) by (subst w2; destruct has_image; reflexivity).
  assert (Hprobe : exists evs_p,
             trace w2 = trace w ++ evs_p /\ forallb no_mutation evs_p = true).
  { subst w2 w1. destruct has_image; cbn [trace add_event set_clients_made];
      rewrite <- ?app_assoc; eexists; split; reflexivity. }
  destruct Hprobe as (evs_p & Htr_p & Hno_p).
  assert (Hsame : same_models w w2) by (subst w2; destruct has_image; repeat split).
  assert (Hhead : (if has_image then Store.has_collection env client (TEXT_COLL env)
                   else ret false) w1 = (Ret false, w2)).
  { subst w2. destruct has_image eqn:Hhas; [| reflexivity].
    rewrite has_collection_run, Hup. unfold w1. cbn [store add_event set_clients_made].
    subst has_image. apply bool_decide_eq_true in Hhas.
    destruct Hmissing as [Hnone | Hnone].
    - rewrite Hnone in Hhas. destruct Hhas; discriminate.
    - rewrite Hnone. reflexivity. }
  destruct (get_embedding_dimensions_frame env w w2 Hsame) as [Hval _].
  pose proof (get_embedding_dimensions_calm env w2) as [(evs_g & Htr_g & Hno_g) Hs_g].
  unfold keeps in Hs_g. unfold eval, exec in Hval, Htr_g, Hs_g, Hdims.
  destruct (get_embedding_dimensions env w2) as [[[dt di] | e] w3] eqn:Hged;
    simpl in Hval, Htr_g, Hs_g; [| congruence].
  assert (dt = dim_text /\ di = dim_image) as [-> ->] by (split; congruence).
  pose proof (own_grows_any client _ (walk_own env client logger
                                         (rglob_files env (attached_artifact_dir env))
                                         (img_empty, txt_empty))) as Hwalk.
  assert (Hflush_i : forall b, preserves (grows any_event) (flush_img env client b))
    by (intros b; eapply own_grows_any, flush_img_own).
  assert (Hflush_t : forall b, preserves (grows any_event) (flush_txt env client b))
    by (intros b; eapply own_grows_any, flush_txt_own).
  set (K2 := fun _ : unit =>
               do '(img_batch, txt_batch) <-
                 walk env client logger (rglob_files env (attached_artifact_dir env))
                   (img_empty, txt_empty);
               flush_img env client img_batch ;;
               flush_txt env client txt_batch ;;
               Store.flush env client (IMAGE_COLL env) ;;
               Store.flush env client (TEXT_COLL env) ;;
               do img_count <- Store.row_count env client (IMAGE_COLL env);
               do txt_count <- Store.row_count env client (TEXT_COLL env);
               logger_call logger "info"
                 ("Done. Image entities: " +:+ pretty img_count
                  +:+ ", Text entities: " +:+ pretty txt_count)).
  assert (HK2 : forall u, preserves (grows any_event) (K2 u)).
  { intros u. subst K2. cbv beta.
    unfold Store.flush, Store.row_count, Store.reach, Store.the_collection.
    preserves_auto leaf_rel. }
  set (K1 := fun _ : unit => bind (create_collection env client (TEXT_COLL env) dim_text logger) K2).
  assert (HK1 : forall u, preserves (grows any_event) (K1 u)).
  { intros u. subst K1. cbv beta. apply preserves_bind; [apply _ | | exact HK2].
    apply create_collection_grows. }
  assert (Hrun : run w
                 = bind (create_collection env client (IMAGE_COLL env) dim_image logger)
                     K1 w3).
  { subst run. unfold preprocess_data_to_milvus.
    unfold bind at 1. rewrite MilvusClient_run, Hconn. cbv zeta.
    fold (ingestion_client env w). fold client.
    unfold bind at 1. rewrite has_collection_run, Hup.
    cbn [store add_event set_clients_made]. fold has_image. fold w1. cbv beta iota.
    unfold bind at 1. rewrite Hhead. cbv beta iota.
    unfold bind at 1. rewrite Hged. cbv beta iota. reflexivity. }
  destruct (create_collection_traced client (IMAGE_COLL env) dim_image logger K1 w3 HK1)
    as (evs & Htrace & Hin).
  exists (evs_p ++ evs_g ++ evs). split; [| split; [| split]].
  - unfold exec in *. rewrite Hrun, Htrace, Htr_g, Htr_p. now rewrite <- !app_assoc.
  - apply in_or_app. right. apply in_or_app. right. exact Hin.
  - intros Hok.
    assert (Hret : eval (create_collection env client (IMAGE_COLL env) dim_image logger) w3
                   = Ret tt).
    { apply create_collection_returns; [exact Hup |]. unfold create_accepted in *.
      now rewrite Hs_g, Hs2. }
    rewrite (exec_bind_Ret _ _ _ _ Hret) in Htrace.
    destruct (create_collection_traced client (TEXT_COLL env) dim_text logger K2
                (exec (create_collection env client (IMAGE_COLL env) dim_image logger) w3)
                HK2) as (evs_t & Htrace_t & Hin_t).
    destruct (create_collection_grows client (IMAGE_COLL env) dim_image logger w3)
      as (evs_i & Htrace_i & _).
    subst K1. cbv beta in Htrace. rewrite Htrace_t, Htrace_i, <- app_assoc in Htrace.
    apply app_inv_head in Htrace. subst evs.
    apply in_or_app. right. apply in_or_app. right. apply in_or_app. right. exact Hin_t.
  - intros col e Hcol Hrefuse.
    destruct (create_collection_refused client (IMAGE_COLL env) dim_image logger w3 col e Hup)
      as (w4 & Hcreate & Htr4); [now rewrite Hs_g, Hs2 | exact Hrefuse |].
    assert (Hraise : run w = (Raise e, w4)).
    { rewrite Hrun. unfold bind at 1. rewrite Hcreate. reflexivity. }
    unfold exec in Htrace. rewrite <- Hrun, Hraise in Htrace. cbn [snd] in Htrace.
    rewrite Htr4 in Htrace. apply app_inv_head in Htrace. subst evs.
    split; [unfold eval; now rewrite Hraise |].
    split.
    + intros Hmem. rewrite !in_app_iff in Hmem.
      destruct Hmem as [Hmem | [Hmem | [Hmem | Hmem]]].
      * now apply no_mutation_no_create in Hmem.
      * now apply no_mutation_no_create in Hmem.
      * destruct logger; simpl in Hmem; [destruct Hmem as [? | []]; discriminate | exact Hmem].
      * simpl in Hmem. destruct Hmem as [Heq | []]. injection Heq as Heq _.
        now apply collections_differ in Heq.
    + rewrite !insert_calls_app, (no_mutation_insert_calls _ Hno_p),
        (no_mutation_insert_calls _ Hno_g).
      destruct logger; reflexivity.
Qed.

End Creation.

(** The image collection of the demo store is there, the text collection is
    not, and the demo store does not create a collection twice: the run
    asks for the image collection to be created and ends with the store's
    exception. *)
Lemma collections_are_created_without_a_test_witness :
  let w := {| store := <["case1__attachments_image" := {| dimension := 3; rows := [] |}]> ∅;
              clients_made := 0; milvus_client_instance := None;
              text_model := None; image_model := None; image_processor := None;
              image_tokenizer := None; trace := [] |} in
  let run := Preprocess.preprocess_data_to_milvus Demo.env (Some tt) in
  In (EvCreateCollection (ingestion_client Demo.env w) "case1__attachments_image" 3)
     (trace (exec run w))
  /\ eval run w
     = Raise (MilvusException 1 "collection case1__attachments_image already exists").
Proof.
  cbv zeta.
  destruct (collections_are_created_without_a_test Demo.env (Some tt) 2 3
              {| store := <["case1__attachments_image" := {| dimension := 3; rows := [] |}]> ∅;
                 clients_made := 0; milvus_client_instance := None;
                 text_model := None; image_model := None; image_processor := None;
                 image_tokenizer := None; trace := [] |}
              eq_refl eq_refl)
    as (evs & Htrace & Hin & _ & Hrefused); [right; reflexivity | reflexivity |].
  split; [rewrite Htrace; exact Hin |].
  apply (Hrefused {| dimension := 3; rows := [] |}); reflexivity.
Defined.


(** ** The tools of tools/milvus_tools.py *)

Section Tools.
Import MilvusTools.
Context (env : Env).

Lemma read_only_preserves {A} (m : M A) :
  preserves (both (grows no_mutation) (keeps store)) m -> read_only m.
Proof. intros H w. destruct (H w) as [Hgrows Hkeeps]. split; assumption. Qed.

Lemma get_milvus_client_reads :
  preserves (both (grows no_mutation) (keeps store)) (get_milvus_client env).
Proof.
  unfold get_milvus_client, Store.MilvusClient, Store.list_collections, Store.reach.
  preserves_auto leaf_rel.
Qed.

Lemma collection_details_loop_reads (client : Client) (collections : list string)
    (acc : string) :
  preserves (both (grows no_mutation) (keeps store))
    (collection_details_loop env client collections acc).
Proof.
  revert acc. induction collections as [| name rest IH]; intros acc; simpl;
    unfold Store.describe_collection, Store.reach, Store.the_collection;
    preserves_auto leaf_rel.
Qed.

(** X6.  The three tools and [get_collection_info] only read: none of
    them changes a collection of the store, and none makes an [insert] or a
    [create_collection] call, whatever its arguments and whatever fails on
    the way. *)
Theorem tools_only_read :
  (forall query_text collection_name vector_field limit output_fields metric_type,
      read_only (milvus_text_image_search env query_text collection_name vector_field
                   limit output_fields metric_type))
  /\ (forall collection_name query_text text_field_name limit output_fields,
        read_only (milvus_text_search env collection_name query_text text_field_name
                     limit output_fields))
  /\ read_only (milvus_list_collections env)
  /\ (forall collection_name, read_only (get_collection_info env collection_name)).
Proof.
  pose proof get_milvus_client_reads as Hclient.
  pose proof collection_details_loop_reads as Hloop.
  split; [| split; [| split]]; intros; apply read_only_preserves.
  - unfold milvus_text_image_search, Embeddings.query2vector, Embeddings.get_image_model,
      Embeddings.call_tokenizer, Embeddings.call_get_text_features, Store.search,
      Store.reach, Store.the_collection.
    preserves_auto leaf_rel.
  - unfold milvus_text_search, Store.query, Store.reach, Store.the_collection.
    preserves_auto leaf_rel.
  - unfold milvus_list_collections, Store.list_collections, Store.reach.
    preserves_auto leaf_rel.
  - unfold get_collection_info, Store.describe_collection, Store.reach,
      Store.the_collection.
    preserves_auto leaf_rel.
Qed.

End Tools.


Section ToolOutcomes.
Import MilvusTools.
Context (env : Env).

Lemma describe_collection_Ret (c : Client) (name s : string) (w : World) :
  eval (Store.describe_collection env c name) w = Ret s ->
  exists col, store w !! name = Some col /\ s = describe env name col.
Proof.
  unfold Store.describe_collection, Store.reach, Store.the_collection. munfold.
  destruct (store_up env); cbn [fst snd store add_event]; [| discriminate].
  destruct (store w !! name) as [col |]; cbn [fst]; [| discriminate].
  intros [= <-]. now exists col.
Qed.

(** X7.  [get_collection_info] raises nothing but a [ValueError] whose text
    starts with [Failed to get collection info: ].  It has no test for a
    missing client: when the client cannot be made, the error is the
    wrapped [AttributeError] of the call on [None].  When it returns, the
    answer is the store's description of a collection that exists. *)
Theorem get_collection_info_outcomes (collection_name : string) (w : World) :
  (forall e, eval (get_collection_info env collection_name) w = Raise e ->
             exists msg, e = ValueError ("Failed to get collection info: " +:+ msg))
  /\ (milvus_client_instance (exec (get_milvus_client env) w) = None ->
      eval (get_collection_info env collection_name) w
      = Raise (ValueError
                 ("Failed to get collection info: "
                  +:+ "'NoneType' object has no attribute 'describe_collection'")))
  /\ (forall s, eval (get_collection_info env collection_name) w = Ret s ->
                exists col, store w !! collection_name = Some col
                            /\ s = describe env collection_name col).
Proof.
  pose proof (get_milvus_client_reads env w) as [_ Hstore]. unfold keeps in Hstore.
  unfold eval, get_collection_info, try_except. unfold bind at 1 2 3.
  rewrite get_milvus_client_returns.
  destruct (milvus_client_instance (exec (get_milvus_client env) w)) as [c |].
  - destruct (Store.describe_collection env c collection_name _) as [[s | e] w2] eqn:Hd.
    + split; [discriminate |]. split; [discriminate |].
      intros s' [= <-]. rewrite <- Hstore.
      apply (describe_collection_Ret c). unfold eval. now rewrite Hd.
    + split; [| split; discriminate].
      intros e' [= <-]. eexists. reflexivity.
  - split; [| split; [reflexivity | discriminate]].
    intros e' [= <-]. eexists. reflexivity.
Qed.

Lemma get_milvus_client_no_query :
  preserves (grows (fun ev => negb (is_query_event ev))) (get_milvus_client env).
Proof.
  unfold get_milvus_client, Store.MilvusClient, Store.list_collections, Store.reach.
  preserves_auto leaf_rel.
Qed.

Lemma query_exec (c : Client) (name filter : string) (limit : Z)
    (output_fields : option (list string)) (w : World) :
  exec (Store.query env c name filter limit output_fields) w
  = add_event (EvQuery c name filter limit output_fields) w.
Proof.
  unfold exec, Store.query, Store.reach, Store.the_collection. munfold.
  destruct (store_up env); cbn [fst snd store add_event]; [| reflexivity].
  destruct (store w !! name) as [col |]; cbn [fst snd]; [| reflexivity].
  destruct (like_query env col filter limit output_fields); reflexivity.
Qed.

Lemma milvus_text_search_paths (collection_name query_text text_field_name : string)
    (limit : Z) (output_fields : option (list string)) (w : World) :
  milvus_text_search env collection_name query_text text_field_name limit output_fields w
  = let w1 := exec (get_milvus_client env) w in
    match milvus_client_instance w1 with
    | None => (Ret "Error: Milvus client not available or connection failed.", w1)
    | Some client =>
        let q := Store.query env client collection_name
                   (like_filter text_field_name query_text) limit output_fields in
        (Ret match eval q w1 with
             | Ret results =>
                 fold_left (fun output result => output +:+ result +:+ nl +:+ nl) results
                   ("Text search results for '" +:+ query_text
                    +:+ "' in collection '" +:+ collection_name +:+ "':" +:+ nl +:+ nl)
             | Raise e => "Error: Text search failed: " +:+ str_exn e
             end,
         add_event (EvQuery client collection_name (like_filter text_field_name query_text)
                      limit output_fields) w1)
    end.
Proof.
  cbv zeta. unfold milvus_text_search. unfold bind at 1.
  rewrite get_milvus_client_returns.
  destruct (milvus_client_instance (exec (get_milvus_client env) w)) as [client |];
    [| reflexivity].
  fold (like_filter text_field_name query_text).
  rewrite <- query_exec. unfold try_except, eval, exec. unfold bind at 1.
  destruct (Store.query env client collection_name _ limit output_fields _) as [[r | e] w2];
    reflexivity.
Qed.

(** X8.  [milvus_text_search] never raises.  Without a client it makes no
    query.  With one it makes exactly one, through the memoised client, in
    the collection named, with the limit and the output fields given, and
    with the filter [<field> like '%<query>%'] in which the query text is
    spliced as it is. *)
Theorem text_search_makes_one_spliced_query
    (collection_name query_text text_field_name : string) (limit : Z)
    (output_fields : option (list string)) (w : World) :
  let run := milvus_text_search env collection_name query_text text_field_name limit
               output_fields in
  (exists s, eval run w = Ret s)
  /\ exists evs,
      trace (exec run w) = trace w ++ evs
      /\ List.filter is_query_event evs
         = match milvus_client_instance (exec run w) with
           | Some c => [EvQuery c collection_name
                          (text_field_name +:+ " like '%" +:+ query_text +:+ "%'")
                          limit output_fields]
           | None => []
           end.
Proof.
  intros run. subst run. unfold eval, exec. rewrite milvus_text_search_paths. cbv zeta.
  destruct (get_milvus_client_no_query w) as (evs & Htrace & Hnone).
  assert (Hfilter : List.filter is_query_event evs = []).
  { clear Htrace. induction evs as [| ev evs IH]; [reflexivity |].
    simpl in *. apply andb_prop in Hnone as [Hev Hevs].
    destruct (is_query_event ev); [discriminate | now apply IH]. }
  destruct (milvus_client_instance (exec (get_milvus_client env) w)) as [client |] eqn:Hc;
    cbn [fst snd].
  - split; [eexists; reflexivity |].
    exists (evs ++ [EvQuery client collection_name (like_filter text_field_name query_text)
                      limit output_fields]).
    cbn [trace milvus_client_instance add_event]. rewrite Htrace, Hc, <- app_assoc.
    split; [reflexivity |].
    rewrite List.filter_app, Hfilter. reflexivity.
  - split; [eexists; reflexivity |].
    exists evs. rewrite Hc. split; [exact Htrace | exact Hfilter].
Qed.


Lemma occurs_in_before (s t post : string) : occurs_in s t -> occurs_in s (t +:+ post).
Proof.
  intros (a & b & ->). exists a, (b +:+ post). now rewrite !string_app_assoc.
Qed.






End ToolOutcomes.


(** ** The models of tools/embeddings.py *)

Section Models.
Import Embeddings.
Context (env : Env).


Lemma get_image_model_together :
  keeps_together (get_image_model env)
  /\ forall w m p t,
      loaded_together w ->
      eval (get_image_model env) w = Ret (m, p, t) ->
      is_Some m /\ is_Some p /\ is_Some t.
Proof.
  split.
  - intros w Hw. unfold loaded_together, exec, get_image_model in *. munfold.
    destruct (image_model w) as [m0 |] eqn:Hm; cbn [fst snd].
    + rewrite Hm. exact Hw.
    + destruct (AutoProcessor_from_pretrained env _) as [p0 |];
        [| cbn; rewrite Hm; intros [? [=]]].
      destruct (AutoTokenizer_from_pretrained env _) as [t0 |];
        [| cbn; rewrite Hm; intros [? [=]]].
      destruct (AutoModel_from_pretrained env _) as [m1 |];
        [| cbn; rewrite Hm; intros [? [=]]].
      cbn. intros _. split; eauto.
  - intros w m p t Hw. unfold loaded_together, eval, get_image_model in *. munfold.
    destruct (image_model w) as [m0 |] eqn:Hm; cbn [fst snd].
    + rewrite Hm. intros [= <- <- <-]. destruct Hw as [Hp Ht]; eauto.
    + destruct (AutoProcessor_from_pretrained env _) as [p0 |]; cbn; [| discriminate].
      destruct (AutoTokenizer_from_pretrained env _) as [t0 |]; cbn; [| discriminate].
      destruct (AutoModel_from_pretrained env _) as [m1 |]; cbn; [| discriminate].
      intros [= <- <- <-]. eauto.
Qed.

#[local] Instance together_step_preorder : PreOrder together_step.
Proof.
  split.
  - intros w H. exact H.
  - intros w1 w2 w3 H1 H2 H. apply H2, H1, H.
Qed.

Ltac leaf_together :=
  idtac;
  lazymatch goal with
  | |- together_step _ _ => let H := fresh in intros H; exact H
  end.

Lemma get_image_model_step : preserves together_step (get_image_model env).
Proof. intros w H. now apply get_image_model_together. Qed.

(** X11.  Only [image_model] is tested before the three globals of the
    image model are used.  This is safe: in a process where the model is
    never set without processor and tokenizer (as in one that has just
    started), whenever [get_image_model] returns, all three are there; and
    no function of the program breaks this, whatever fails inside it. *)
Theorem image_globals_are_loaded_together :
  (forall w m p t,
      loaded_together w ->
      eval (get_image_model env) w = Ret (m, p, t) ->
      is_Some m /\ is_Some p /\ is_Some t)
  /\ keeps_together (get_image_model env)
  /\ (forall image_path filter_icons, keeps_together (image2vector env image_path filter_icons))
  /\ (forall query, keeps_together (query2vector env query))
  /\ (forall text, keeps_together (text2vector env text))
  /\ keeps_together (get_embedding_dimensions env)
  /\ (forall logger, keeps_together (Preprocess.preprocess_data_to_milvus env logger))
  /\ (forall query_text collection_name vector_field limit output_fields metric_type,
        keeps_together (MilvusTools.milvus_text_image_search env query_text collection_name
                          vector_field limit output_fields metric_type)).
Proof.
  pose proof get_image_model_step as Hmodel.
  assert (Htext : forall text, preserves together_step (text2vector env text)).
  { intros text. unfold text2vector, get_text_model. preserves_auto leaf_together. }
  assert (Himage : forall image_path filter_icons,
             preserves together_step (image2vector env image_path filter_icons)).
  { intros. unfold image2vector, call_processor, call_get_image_features.
    preserves_auto leaf_together. }
  assert (Hquery : forall query, preserves together_step (query2vector env query)).
  { intros. unfold query2vector, call_tokenizer, call_get_text_features.
    preserves_auto leaf_together. }
  assert (Hdims : preserves together_step (get_embedding_dimensions env)).
  { unfold get_embedding_dimensions, get_text_model, call_processor,
      call_get_image_features.
    preserves_auto leaf_together. }
  split; [apply get_image_model_together |].
  split; [exact Hmodel |]. split; [exact Himage |]. split; [exact Hquery |].
  split; [exact Htext |]. split; [exact Hdims |]. split.
  - intros logger.
    assert (Hrows_i : forall vs ps, preserves together_step (Preprocess.img_rows env vs ps)).
    { induction vs as [| v vs IH]; intros [| p ps]; simpl; preserves_auto leaf_together. }
    assert (Hrows_t : forall vs ps cs,
               preserves together_step (Preprocess.txt_rows env vs ps cs)).
    { induction vs as [| v vs IH]; intros [| p ps] [| c cs]; simpl;
        preserves_auto leaf_together. }
    assert (Hinsert : forall client name data,
               preserves together_step (Store.insert env client name data)).
    { intros. unfold Store.insert, Store.reach, Store.the_collection.
      preserves_auto leaf_together. }
    assert (Hflush_i : forall client b,
               preserves together_step (Preprocess.flush_img env client b)).
    { intros. unfold Preprocess.flush_img. preserves_auto leaf_together. }
    assert (Hflush_t : forall client b,
               preserves together_step (Preprocess.flush_txt env client b)).
    { intros. unfold Preprocess.flush_txt. preserves_auto leaf_together. }
    assert (Hfile : forall p b, preserves together_step (Preprocess.process_file env logger p b)).
    { intros. unfold Preprocess.process_file, Preprocess.process_file_try.
      preserves_auto leaf_together. }
    assert (Hwalk : forall client files b,
               preserves together_step (Preprocess.walk env client logger files b)).
    { intros client files. induction files as [| f files IH]; intros b; simpl;
        preserves_auto leaf_together. }
    change (preserves together_step (Preprocess.preprocess_data_to_milvus env logger)).
    unfold Preprocess.preprocess_data_to_milvus, Store.MilvusClient, Store.has_collection,
      Preprocess.create_collection, Store.create_collection, Store.flush,
      Store.row_count, Store.reach, Store.the_collection.
    preserves_auto leaf_together.
  - intros.
    change (preserves together_step
              (MilvusTools.milvus_text_image_search env query_text collection_name
                 vector_field limit output_fields metric_type)).
    unfold MilvusTools.milvus_text_image_search, MilvusTools.get_milvus_client,
      Store.MilvusClient, Store.list_collections, Store.search, Store.reach,
      Store.the_collection.
    preserves_auto leaf_together.
Qed.

Lemma text2vector_Ret (text : string) (v : Vec) (w w' : World) :
  text2vector env text w = (Ret v, w') ->
  exists tm raw,
    text_model w' = Some tm
    /\ encode tm (str_take 500 text) = Ret raw
    /\ v = astype_float32 env raw
    /\ trace w' = trace w ++ [EvTextModelEncode (str_take 500 text)].
Proof.
  unfold text2vector. intros H.
  apply bind_Ret_inv in H as (tm & w1 & Hmodel & H).
  assert (Htrace : trace w1 = trace w).
  { revert Hmodel. unfold get_text_model. munfold.
    destruct (text_model w); [intros [= _ <-]; reflexivity |].
    destruct (SentenceTransformer env _) as [m0 |]; simpl; [| discriminate].
    destruct (text_model_to_device env m0) as [[] |]; simpl; intros [= _ <-]; reflexivity. }
  apply get_text_model_Ret in Hmodel.
  revert H. munfold. cbn [text_model trace add_event].
  destruct (encode tm (str_take 500 text)) as [raw |] eqn:Henc; intros [= <- <-].
  exists tm, raw. cbn [text_model trace add_event]. rewrite Htrace. auto.
Qed.

(** X12.  The content stored for a text file is the text that was embedded:
    when [process_file] takes a text file, the one entry it adds to the text
    batch has as content the first 500 characters of the file, as vector
    the model's vector for exactly that string, and the model was run on
    it once. *)
Theorem stored_text_is_the_embedded_text (p : Path)
    (ib ib' : Preprocess.ImgBatch) (tb tb' : Preprocess.TxtBatch) (w w' : World) :
  str_mem (str_lower (suffix p)) Preprocess.TEXT_SUFFIXES = true ->
  Preprocess.process_file_try env p (ib, tb) w = (Ret (ib', tb'), w') ->
  exists full_text tm raw,
    read_text env (str p) = Ret full_text
    /\ text_model w' = Some tm
    /\ encode tm (str_take 500 full_text) = Ret raw
    /\ ib' = ib
    /\ Preprocess.txt_content tb' = Preprocess.txt_content tb ++ [str_take 500 full_text]
    /\ Preprocess.txt_path tb' = Preprocess.txt_path tb ++ [str p]
    /\ Preprocess.txt_vector tb'
       = Preprocess.txt_vector tb ++ [astype_float32 env (astype_float32 env raw)]
    /\ trace w' = trace w ++ [EvTextModelEncode (str_take 500 full_text)].
Proof.
  intros Htext. unfold Preprocess.process_file_try.
  rewrite (text_suffix_not_image _ Htext), Htext. intros H.
  apply bind_Ret_inv in H as (full_text & w1 & Hread & H).
  apply bind_Ret_inv in H as (vec & w2 & Hvec & H).
  unfold lift in Hread. unfold ret in H.
  destruct (read_text env (str p)) as [t |]; inversion Hread; subst.
  inversion H; subst. clear H Hread.
  apply text2vector_Ret in Hvec as (tm & raw & Hm & Henc & -> & Htrace).
  rewrite str_take_idem in Henc, Htrace.
  exists full_text, tm, raw. cbn. auto 10.
Qed.

(** X13.  The model getters memoise: after a call that returned, the next
    call returns the same objects and changes nothing.  A text model whose
    constructor failed leaves everything as it was.  A text model that was
    constructed but could not be moved to the device stays in the global:
    the call raises, and the next call returns that model without trying
    again.  An image model that failed to load leaves [image_model] unset,
    so that the next call loads again. *)
Theorem model_getters_are_memoised (w w1 : World) :
  (forall m, get_text_model env w = (Ret m, w1) -> get_text_model env w1 = (Ret m, w1))
  /\ (forall e, get_text_model env w = (Raise e, w1) ->
        text_model w = None
        /\ ((SentenceTransformer env (embed_text_model_name env) = Raise e /\ w1 = w)
            \/ exists m,
                SentenceTransformer env (embed_text_model_name env) = Ret m
                /\ text_model_to_device env m = Raise e
                /\ w1 = set_text_model (Some m) w
                /\ get_text_model env w1 = (Ret m, w1)))
  /\ (forall r, get_image_model env w = (Ret r, w1) -> get_image_model env w1 = (Ret r, w1))
  /\ (forall e, get_image_model env w = (Raise e, w1) ->
                image_model w = None /\ image_model w1 = None).
Proof.
  split; [| split; [| split]].
  - unfold get_text_model. munfold.
    destruct (text_model w) as [m0 |] eqn:Hcur.
    + intros m [= <- <-]. now rewrite Hcur.
    + destruct (SentenceTransformer env _) as [m0 |]; simpl; [| discriminate].
      destruct (text_model_to_device env m0) as [[] |]; simpl; intros m [= <- <-].
      reflexivity.
  - unfold get_text_model. munfold.
    destruct (text_model w) as [m0 |] eqn:Hcur; [discriminate |].
    destruct (SentenceTransformer env _) as [m0 |] eqn:Hctor; simpl.
    + destruct (text_model_to_device env m0) as [[] |] eqn:Hto; simpl; [discriminate |].
      intros e' [= <- <-]. split; [reflexivity |]. right. exists m0.
      split; [reflexivity |]. split; [exact Hto |]. split; reflexivity.
    + intros e' [= <- <-]. split; [reflexivity |]. left. split; reflexivity.
  - unfold get_image_model. munfold.
    destruct (image_model w) as [m0 |] eqn:Hcur; cbn [fst snd].
    + intros r [= <- <-]. rewrite Hcur. cbn. now rewrite Hcur.
    + destruct (AutoProcessor_from_pretrained env _) as [p0 |]; [| discriminate].
      destruct (AutoTokenizer_from_pretrained env _) as [t0 |]; [| discriminate].
      destruct (AutoModel_from_pretrained env _) as [m1 |]; [| discriminate].
      intros r [= <- <-]. reflexivity.
  - unfold get_image_model. munfold.
    destruct (image_model w) as [m0 |] eqn:Hcur; cbn [fst snd].
    + rewrite Hcur. discriminate.
    + destruct (AutoProcessor_from_pretrained env _) as [p0 |];
        [| intros e' [= _ <-]; split; [reflexivity | exact Hcur]].
      destruct (AutoTokenizer_from_pretrained env _) as [t0 |];
        [| intros e' [= _ <-]; split; [reflexivity | exact Hcur]].
      destruct (AutoModel_from_pretrained env _) as [m1 |];
        [discriminate | intros e' [= _ <-]; split; [reflexivity | exact Hcur]].
Qed.

End Models.


Section Dimensions.
Import Embeddings.
Context (env : Env).

Lemma get_text_model_trace (w w1 : World) (tm : TextModel) :
  get_text_model env w = (Ret tm, w1) ->
  trace w1 = trace w /\ image_model w1 = image_model w
  /\ image_processor w1 = image_processor w.
Proof.
  unfold get_text_model. munfold.
  destruct (text_model w); [intros [= _ <-]; repeat split |].
  destruct (SentenceTransformer env _) as [m0 |]; simpl; [| discriminate].
  destruct (text_model_to_device env m0) as [[] |]; simpl; intros [= _ <-]; repeat split.
Qed.

Lemma get_image_model_text (w w1 : World)
    (r : option ImageModel * option Processor * option Tokenizer) :
  get_image_model env w = (Ret r, w1) -> text_model w1 = text_model w.
Proof.
  unfold get_image_model. munfold.
  destruct (image_model w); cbn [fst snd]; [intros [= _ <-]; reflexivity |].
  destruct (AutoProcessor_from_pretrained env _); [| discriminate].
  destruct (AutoTokenizer_from_pretrained env _); [| discriminate].
  destruct (AutoModel_from_pretrained env _); [| discriminate].
  intros [= _ <-]. reflexivity.
Qed.

(** X14.  Where the two dimensions come from: the text dimension is what
    the text model reports about itself, and the text model is not run; the
    image dimension is the length of the features the image model gives for
    the dummy image, which is the one inference made.  Both models are
    loaded afterwards. *)
Theorem embedding_dimensions_are_read_off (w w' : World) (dim_text dim_image : Z) :
  get_embedding_dimensions env w = (Ret (dim_text, dim_image), w') ->
  exists tm m pr inputs features,
    text_model w' = Some tm
    /\ dim_text = get_sentence_embedding_dimension tm
    /\ image_model w' = Some m
    /\ image_processor w' = Some pr
    /\ pr (dummy_image env) = Ret inputs
    /\ get_image_features m inputs = Ret features
    /\ dim_image = Z.of_nat (length features)
    /\ trace w' = trace w ++ [EvImageFeatures inputs].
Proof.
  unfold get_embedding_dimensions. intros H.
  apply bind_Ret_inv in H as (tm & w1 & Htm & H).
  apply bind_Ret_inv in H as ([[model processor] tokenizer] & w2 & Him & H).
  apply bind_Ret_inv in H as (inputs & w3 & Hpr & H).
  apply bind_Ret_inv in H as (features & w4 & Hfeat & H).
  unfold ret in H. injection H as Hdt Hdi Hw.
  pose proof (get_text_model_trace _ _ _ Htm) as (Htr1 & _ & _).
  apply get_text_model_Ret in Htm.
  pose proof (get_image_model_text _ _ _ Him) as Htext2.
  apply get_image_model_Ret in Him as (Hm2 & Hp2 & _ & Htr2).
  unfold call_processor in Hpr. destruct processor as [pr |]; [| discriminate].
  unfold lift in Hpr. injection Hpr as Hpr Hw3.
  unfold call_get_image_features in Hfeat. destruct model as [m |]; [| discriminate].
  revert Hfeat. munfold. intros [= Hfeat Hw4].
  exists tm, m, pr, inputs, features. subst w' w4 w3.
  cbn [text_model image_model image_processor trace add_event].
  split; [congruence |]. split; [now symmetry |]. split; [exact Hm2 |].
  split; [exact Hp2 |]. split; [exact Hpr |]. split; [exact Hfeat |].
  split; [now symmetry |]. congruence.
Qed.

End Dimensions.

(** The demo models: dimension 2 is what the text model reports, 3 is the
    length of the image features. *)
Lemma embedding_dimensions_are_read_off_witness :
  exists inputs,
    trace (exec (Embeddings.get_embedding_dimensions Demo.env) Demo.fresh)
    = [EvImageFeatures inputs].
Proof.
  destruct (embedding_dimensions_are_read_off Demo.env Demo.fresh
              (exec (Embeddings.get_embedding_dimensions Demo.env) Demo.fresh) 2 3 eq_refl)
    as (tm & m & pr & inputs & features & _ & _ & _ & _ & _ & _ & _ & Htrace).
  exists inputs. exact Htrace.
Defined.

(** The readme of the demo tree: 17 characters are stored, and the model
    was run on these. *)
Lemma stored_text_is_the_embedded_text_witness :
  exists tb' w',
    Preprocess.process_file_try Demo.env {| str := "README.md"; suffix := ".md" |}
      (Preprocess.img_empty, Preprocess.txt_empty) Demo.fresh
    = (Ret (Preprocess.img_empty, tb'), w')
    /\ Preprocess.txt_content tb' = ["text of README.md"]
    /\ trace w' = [EvTextModelEncode "text of README.md"].
Proof.
  assert (Hrun : Preprocess.process_file_try Demo.env
                   {| str := "README.md"; suffix := ".md" |}
                   (Preprocess.img_empty, Preprocess.txt_empty) Demo.fresh
                 = (Ret (Preprocess.img_empty,
                         {| Preprocess.txt_vector := [[17; 1]];
                            Preprocess.txt_path := ["README.md"];
                            Preprocess.txt_content := ["text of README.md"] |}),
                    exec (Preprocess.process_file_try Demo.env
                            {| str := "README.md"; suffix := ".md" |}
                            (Preprocess.img_empty, Preprocess.txt_empty)) Demo.fresh))
    by (vm_compute; reflexivity).
  destruct (stored_text_is_the_embedded_text Demo.env
              {| str := "README.md"; suffix := ".md" |} _ _ _ _ _ _ eq_refl Hrun)
    as (full_text & tm & raw & Hread & _ & _ & _ & Hcontent & _ & _ & Htrace).
  injection Hread as <-.
  eexists _, _. split; [exact Hrun |]. split; [exact Hcontent | exact Htrace].
Defined.


(** ** The answer of get_all_metadata *)

Section MetadataAnswer.
Import Metadata.
Context (env : Env).

Lemma str_rstrip_keeps (c : ascii) (s : string) :
  chr_isspace c = false -> str_rstrip (String c s) = String c (str_rstrip s).
Proof. intros Hc. simpl. rewrite Hc. now destruct (str_rstrip s). Qed.

Lemma str_rstrip_prefix (p s : string) :
  p <> "" -> str_rstrip p = p -> exists r, str_rstrip (p +:+ s) = p +:+ r.
Proof.
  induction p as [| c p IH]; [congruence |]. intros _ Hp.
  destruct p as [| c' p'].
  - simpl in Hp. destruct (chr_isspace c) eqn:Hc; [discriminate |].
    exists (str_rstrip s). change (String c "" +:+ s) with (String c s).
    now rewrite str_rstrip_keeps.
  - assert (Hp' : str_rstrip (String c' p') = String c' p').
    { change (str_rstrip (String c (String c' p')))
        with (match str_rstrip (String c' p') with
              | EmptyString => if chr_isspace c then EmptyString else String c EmptyString
              | r => String c r
              end) in Hp.
      destruct (str_rstrip (String c' p')) as [| x r].
      - destruct (chr_isspace c); discriminate.
      - congruence. }
    destruct (IH ltac:(discriminate) Hp') as (r & Hr).
    exists r.
    change (String c (String c' p') +:+ s) with (String c (String c' p' +:+ s)).
    change (str_rstrip (String c (String c' p' +:+ s)))
      with (match str_rstrip (String c' p' +:+ s) with
            | EmptyString => if chr_isspace c then EmptyString else String c EmptyString
            | r => String c r
            end).
    rewrite Hr. reflexivity.
Qed.

Lemma str_prefix_app (p s : string) : str_prefix p (p +:+ s) = true.
Proof.
  induction p as [| c p IH]; [reflexivity |].
  change (String c p +:+ s) with (String c (p +:+ s)). simpl.
  now rewrite Ascii.eqb_refl.
Qed.

Lemma strip_keeps_header (rest : string) :
  str_prefix "ExifTool Metadata:" (str_strip (("ExifTool Metadata:" +:+ nl) +:+ rest)) = true.
Proof.
  unfold str_strip.
  change (str_lstrip (("ExifTool Metadata:" +:+ nl) +:+ rest))
    with ("ExifTool Metadata:" +:+ (nl +:+ rest)).
  destruct (str_rstrip_prefix "ExifTool Metadata:" (nl +:+ rest)) as (r & ->);
    [discriminate | reflexivity |].
  apply str_prefix_app.
Qed.

(** X15.  [get_all_metadata] always returns a string, and the string tells
    which: it starts with [ExifTool Metadata:] when the file exists and
    ExifTool gave a metadata dict, and with [Error] in every other case
    (no such file, ExifTool missing or failing, an empty answer). *)
Theorem metadata_result_is_tagged (p : string) :
  exists s,
    get_all_metadata env p = Ret s
    /\ if metadata_available env p
       then str_prefix "ExifTool Metadata:" s = true
       else str_prefix "Error" s = true.
Proof.
  unfold get_all_metadata, get_all_metadata_try, metadata_available.
  destruct (path_exists env (abspath env p)); cbn [negb andb];
    [| eexists; split; reflexivity].
  destruct (exiftool_get_metadata env (abspath env p)) as [[| metadata rest] | e].
  - eexists. split; reflexivity.
  - destruct metadata as [| item items].
    + eexists. split; [reflexivity |]. apply strip_keeps_header.
    + eexists. split; [reflexivity |].
      destruct (filter_metadata _); rewrite string_app_assoc; apply strip_keeps_header.
  - destruct e; eexists; split; reflexivity.
Qed.

End MetadataAnswer.

(** ** The size hint of the icon filter *)

(** X16.  A file-size hint can only veto: with a hint, [is_icon] says
    [true] exactly when it says [true] without one and the hint is at most
    10,000 bytes.  So the filter of ingestion, which gives no hint, rejects
    every image that any hint would let it reject. *)
Theorem is_icon_hint_only_vetoes (img : Image) (file_bytes : Z) :
  Embeddings.is_icon img (Some file_bytes)
  = Embeddings.is_icon img None && (file_bytes <=? 10000).
Proof.
  unfold Embeddings.is_icon. destruct (size img) as [w h].
  destruct (Z.max w h >? Embeddings.EDGE_MAX); [reflexivity |].
  destruct (rgba_getcolors img (256 * 256)) as [[colours |] | e]; try reflexivity.
  destruct (Z.of_nat (length colours) >? Embeddings.COLORS_MAX); [reflexivity |].
  rewrite Z.gtb_ltb, Z.ltb_antisym. now destruct (file_bytes <=? 10000).
Qed.

(** ** A query that cannot be turned into a vector *)

Section NoVector.
Import MilvusTools.
Context (env : Env).

Lemma query2vector_no_search (query : string) :
  preserves (grows (fun ev => negb (is_search_event ev))) (Embeddings.query2vector env query).
Proof.
  unfold Embeddings.query2vector, Embeddings.get_image_model, Embeddings.call_tokenizer,
    Embeddings.call_get_text_features.
  preserves_auto leaf_rel.
Qed.

Lemma get_milvus_client_no_search :
  preserves (grows (fun ev => negb (is_search_event ev))) (get_milvus_client env).
Proof.
  unfold get_milvus_client, Store.MilvusClient, Store.list_collections, Store.reach.
  preserves_auto leaf_rel.
Qed.

Lemma filter_none (ok : Event -> bool) (evs : list Event) :
  forallb (fun ev => negb (ok ev)) evs = true -> List.filter ok evs = [].
Proof.
  induction evs as [| ev evs IH]; [reflexivity |].
  simpl. intros H. apply andb_prop in H as [Hev Hevs].
  destruct (ok ev); [discriminate | now apply IH].
Qed.

(** X17.  When the client is there but the query cannot be turned into a
    vector (the image model, its tokenizer or the normalisation fails),
    [milvus_text_image_search] sends nothing to the store: it returns the
    one item [{"error": "Failed to convert query to vector: ..."}] with the
    text of the exception, and makes no search. *)
Theorem search_without_vector_makes_no_search
    (query_text collection_name vector_field : string) (limit : Z)
    (output_fields : option (list string)) (metric_type : string) (w : World) (e : exn) :
  is_Some (milvus_client_instance (exec (get_milvus_client env) w)) ->
  eval (Embeddings.query2vector env query_text) (exec (get_milvus_client env) w) = Raise e ->
  let run := milvus_text_image_search env query_text collection_name vector_field limit
               output_fields metric_type in
  eval run w = Ret [ItemError ("Failed to convert query to vector: " +:+ str_exn e)]
  /\ exists evs,
      trace (exec run w) = trace w ++ evs /\ List.filter is_search_event evs = [].
Proof.
  intros [client Hclient] Hfail run. subst run.
  unfold eval, exec in *. rewrite milvus_text_image_search_paths.
  rewrite get_milvus_client_returns. unfold exec in *. rewrite Hclient.
  destruct (get_milvus_client_no_search w) as (evs1 & Htr1 & Hno1).
  destruct (query2vector_no_search query_text (snd (get_milvus_client env w)))
    as (evs2 & Htr2 & Hno2).
  unfold exec in Htr1, Htr2.
  destruct (Embeddings.query2vector env query_text (snd (get_milvus_client env w)))
    as [[v | e'] w2]; simpl in Hfail; [discriminate |].
  injection Hfail as ->. cbn [fst snd] in *.
  split; [reflexivity |].
  exists (evs1 ++ evs2). split; [rewrite Htr2, Htr1; now rewrite <- app_assoc |].
  rewrite List.filter_app, (filter_none _ _ Hno1), (filter_none _ _ Hno2). reflexivity.
Qed.

End NoVector.

(** Without the tokenizer files the query cannot be encoded: the tool
    answers with the loader's message and the store sees no search. *)
Lemma search_without_vector_makes_no_search_witness :
  eval (MilvusTools.milvus_text_image_search_default Offline.env "a cat"
          "case1__attachments_image") Demo.fresh
  = Ret [ItemError "Failed to convert query to vector: image-model is not a local folder"].
Proof.
  destruct (search_without_vector_makes_no_search Offline.env "a cat"
              "case1__attachments_image" "vector" 5 None "COSINE" Demo.fresh
              (OSError "image-model is not a local folder"))
    as [Hret _]; [vm_compute; eauto | vm_compute; reflexivity |].
  exact Hret.
Defined.


(** ** Ingestion with the default logger *)

Section NoLogger.
Import Preprocess.
Context (env : Env).

(** X18.  With the default [logger=None], [preprocess_data_to_milvus] never
    returns normally: on every path the last statement is a call of
    [logger.info], which is not guarded as the one in [create_collection]
    is.  So whenever nothing else fails, the run ends in an exception, on
    the path that skips as on the path that has just stored the rows. *)
Theorem ingestion_without_logger_never_returns (w : World) :
  exists e, eval (preprocess_data_to_milvus env None) w = Raise e.
Proof.
  unfold eval.
  destruct (preprocess_data_to_milvus env None w) as [[[] | e] w'] eqn:Hrun;
    [exfalso | now exists e].
  unfold preprocess_data_to_milvus in Hrun.
  apply bind_Ret_inv in Hrun as (client & w1 & _ & H).
  apply bind_Ret_inv in H as (has_image & w2 & _ & H).
  apply bind_Ret_inv in H as ([] & w3 & _ & H).
  - discriminate.
  - apply bind_Ret_inv in H as ([dim_text dim_image] & w4 & _ & H).
    apply bind_Ret_inv in H as (? & w5 & _ & H).
    apply bind_Ret_inv in H as (? & w6 & _ & H).
    apply bind_Ret_inv in H as ([img_batch txt_batch] & w7 & _ & H).
    apply bind_Ret_inv in H as (? & w8 & _ & H).
    apply bind_Ret_inv in H as (? & w9 & _ & H).
    apply bind_Ret_inv in H as (? & w10 & _ & H).
    apply bind_Ret_inv in H as (? & w11 & _ & H).
    apply bind_Ret_inv in H as (img_count & w12 & _ & H).
    apply bind_Ret_inv in H as (txt_count & w13 & _ & H).
    discriminate.
Qed.

End NoLogger.

(** The demo tree, ingested without a logger: the run raises at its last
    line, and the 137 rows are in the store. *)
Example run_without_logger_in_demo_world :
  let run := Preprocess.preprocess_data_to_milvus Demo.env None in
  eval run Demo.fresh = Raise (AttributeError "'NoneType' object has no attribute 'info'")
  /\ row_count_of (exec run Demo.fresh) "case1__attachments_text" = Some 137%nat.
Proof. cbv zeta. split; vm_compute; reflexivity. Qed.
